(** * Polymarket MCP server: rate governor and real-time subscription manager

    A shallow embedding of

    - [src/polymarket_mcp/utils/rate_limiter.py]
      ([TokenBucket], [RateLimiter]) and
    - [src/polymarket_mcp/utils/websocket_manager.py]
      ([WebSocketManager]: connection lifecycle, subscription registry,
      event routing),

    followed by the properties of the specification that concern them.

    Conventions of the embedding.

    - Python [float] values (token counts, monotonic timestamps, durations)
      are exact rationals [Q]; Python [int] is [Z].
    - [async] methods are functions that pass the object state explicitly and
      return an [outcome]: a value, a raised exception, or [Pending] when the
      awaited event does not arrive in the modelled environment.
    - The clock only advances while a coroutine sleeps or between calls;
      [asyncio.sleep d] lasts [d] plus a non-negative overshoot chosen by the
      environment.
    - The insertion-ordered [dict] of subscriptions is an association list;
      the [defaultdict(set)] indexes are [gmap string (gset string)]. *)

From Stdlib Require Import ZArith QArith Qminmax Lqa Lia List String Bool.
From Stdlib Require Import Qround.
From stdpp Require Import base gmap sets list strings.
Import ListNotations.

(** ** Python outcomes *)

Module Py.

Inductive exn : Type :=
| RuntimeError (msg : string)
| AttributeError (msg : string)
| ZeroDivisionError
| OSError (msg : string)
| ConnectionClosed.

Inductive outcome (A : Type) : Type :=
| Returned (a : A)
| Raised (e : exn)
| Pending.

Arguments Returned {A} a.
Arguments Raised {A} e.
Arguments Pending {A}.

Definition raises {A : Type} (o : outcome A) : bool :=
  match o with Raised _ => true | _ => false end.

End Py.

Import Py.

(** ** rate_limiter.py *)

Module RateLimit.

Local Open Scope Q_scope.

Inductive EndpointCategory : Type :=
| CLOB_GENERAL | MARKET_DATA | BATCH_OPS | TRADING_BURST
| TRADING_SUSTAINED | GAMMA_API | DATA_API.

Record RateLimitConfig : Type := {
  cfg_max_tokens : Z;
  cfg_refill_rate : Q;
  cfg_window_seconds : Q
}.

Definition RATE_LIMITS (c : EndpointCategory) : RateLimitConfig :=
  match c with
  | CLOB_GENERAL => {| cfg_max_tokens := 5000; cfg_refill_rate := 500; cfg_window_seconds := 10 |}
  | MARKET_DATA => {| cfg_max_tokens := 200; cfg_refill_rate := 20; cfg_window_seconds := 10 |}
  | BATCH_OPS => {| cfg_max_tokens := 80; cfg_refill_rate := 8; cfg_window_seconds := 10 |}
  | TRADING_BURST => {| cfg_max_tokens := 2400; cfg_refill_rate := 240; cfg_window_seconds := 10 |}
  | TRADING_SUSTAINED => {| cfg_max_tokens := 24000; cfg_refill_rate := 40; cfg_window_seconds := 600 |}
  | GAMMA_API => {| cfg_max_tokens := 750; cfg_refill_rate := 75; cfg_window_seconds := 10 |}
  | DATA_API => {| cfg_max_tokens := 200; cfg_refill_rate := 20; cfg_window_seconds := 10 |}
  end.

Definition all_categories : list EndpointCategory :=
  [CLOB_GENERAL; MARKET_DATA; BATCH_OPS; TRADING_BURST;
   TRADING_SUSTAINED; GAMMA_API; DATA_API].

(** *** TokenBucket *)

Record TokenBucket : Type := {
  max_tokens : Z;
  refill_rate : Q;
  tokens : Q;
  last_refill : Q
}.

(** [TokenBucket.__init__]; [now] is the reading of [time.monotonic()]. *)
Definition TokenBucket_init (config : RateLimitConfig) (now : Q) : TokenBucket :=
  {| max_tokens := cfg_max_tokens config;
     refill_rate := cfg_refill_rate config;
     tokens := inject_Z (cfg_max_tokens config);
     last_refill := now |}.

Definition _refill (now : Q) (b : TokenBucket) : TokenBucket :=
  let elapsed := now - last_refill b in
  let new_tokens := elapsed * refill_rate b in
  {| max_tokens := max_tokens b;
     refill_rate := refill_rate b;
     tokens := Qmin (inject_Z (max_tokens b)) (tokens b + new_tokens);
     last_refill := now |}.

Definition set_tokens (t : Q) (b : TokenBucket) : TokenBucket :=
  {| max_tokens := max_tokens b;
     refill_rate := refill_rate b;
     tokens := t;
     last_refill := last_refill b |}.

(** One pass through the [while True] body of [TokenBucket.acquire]. *)
Record Iteration : Type := {
  it_time : Q;        (* clock reading used by the refill *)
  it_request : Z;     (* the [tokens] argument *)
  it_refilled : Q;    (* token count right after [_refill] *)
  it_granted : bool;  (* whether the request was admitted in this pass *)
  it_tokens : Q       (* token count at the end of the pass *)
}.

Record AcquireResult : Type := {
  ar_now : Q;
  ar_bucket : TokenBucket;
  ar_outcome : outcome Q;
  ar_log : list Iteration
}.

(** The loop of [TokenBucket.acquire].  Each sleep consumes one overshoot
    from the environment; when none is left the caller is still asleep
    ([Pending]). *)
Fixpoint acquire_loop (overshoot : list Q) (n : Z) (now : Q) (b : TokenBucket)
    (wait_time : Q) : AcquireResult :=
  let b1 := _refill now b in
  if Qle_bool (inject_Z n) (tokens b1) then
    let b2 := set_tokens (tokens b1 - inject_Z n) b1 in
    {| ar_now := now; ar_bucket := b2; ar_outcome := Returned wait_time;
       ar_log := [ {| it_time := now; it_request := n; it_refilled := tokens b1;
                      it_granted := true; it_tokens := tokens b2 |} ] |}
  else
    let it := {| it_time := now; it_request := n; it_refilled := tokens b1;
                 it_granted := false; it_tokens := tokens b1 |} in
    if Qeq_bool (refill_rate b1) 0 then
      {| ar_now := now; ar_bucket := b1; ar_outcome := Raised ZeroDivisionError;
         ar_log := [it] |}
    else
      let tokens_needed := inject_Z n - tokens b1 in
      let sleep_time := Qmax (tokens_needed / refill_rate b1) (1 # 100) in
      match overshoot with
      | [] =>
          {| ar_now := now; ar_bucket := b1; ar_outcome := Pending; ar_log := [it] |}
      | late :: overshoot' =>
          let r := acquire_loop overshoot' n (now + sleep_time + late) b1
                     (wait_time + sleep_time) in
          {| ar_now := ar_now r; ar_bucket := ar_bucket r;
             ar_outcome := ar_outcome r; ar_log := it :: ar_log r |}
      end.

Definition acquire (overshoot : list Q) (n : Z) (now : Q) (b : TokenBucket)
    : AcquireResult :=
  acquire_loop overshoot n now b 0.

(** What a client of one bucket can do: call [acquire], or let time pass. *)
Inductive Action : Type :=
| Acquire (n : Z) (overshoot : list Q)
| Elapse (d : Q).

Record RunResult : Type := {
  rr_now : Q;
  rr_bucket : TokenBucket;
  rr_log : list Iteration
}.

Fixpoint run (acts : list Action) (now : Q) (b : TokenBucket) : RunResult :=
  match acts with
  | [] => {| rr_now := now; rr_bucket := b; rr_log := [] |}
  | Acquire n overshoot :: acts' =>
      let r := acquire overshoot n now b in
      let r' := run acts' (ar_now r) (ar_bucket r) in
      {| rr_now := rr_now r'; rr_bucket := rr_bucket r';
         rr_log := ar_log r ++ rr_log r' |}
  | Elapse d :: acts' => run acts' (now + d) b
  end.

Definition in_window (a T t : Q) : bool :=
  Qle_bool a t && Qle_bool t (a + T).

(** Tokens granted by the passes of [log] whose time lies in [[a, a+T]]. *)
Fixpoint granted_in_window (a T : Q) (log : list Iteration) : Q :=
  match log with
  | [] => 0
  | it :: log' =>
      (if it_granted it && in_window a T (it_time it)
       then inject_Z (it_request it) else 0)
      + granted_in_window a T log'
  end.

Definition well_formed_action (act : Action) : Prop :=
  match act with
  | Acquire n overshoot => (0 <= n)%Z /\ Forall (fun late => 0 <= late) overshoot
  | Elapse d => 0 <= d
  end.

Definition within_capacity (c : Z) (t : Q) : Prop :=
  0 <= t /\ t <= inject_Z c.

(** [coherent c r k l log]: [log] is a sequence of passes that a bucket of
    capacity [c] and rate [r] can make from token count [k] and last refill
    time [l]. *)
Fixpoint coherent (c : Z) (r : Q) (k l : Q) (log : list Iteration) : Prop :=
  match log with
  | [] => True
  | it :: log' =>
      l <= it_time it /\
      it_refilled it == Qmin (inject_Z c) (k + (it_time it - l) * r) /\
      (if it_granted it
       then inject_Z (it_request it) <= it_refilled it /\
            it_tokens it == it_refilled it - inject_Z (it_request it)
       else it_tokens it == it_refilled it) /\
      coherent c r (it_tokens it) (it_time it) log'
  end.

(** *** RateLimiter *)

(** What a caller may pass as [category]: a member of the enum, or any other
    hashable object (identified here by its [repr]). *)
Inductive CategoryArg : Type :=
| Category (c : EndpointCategory)
| Foreign (repr : string).

Definition category_index (c : EndpointCategory) : nat :=
  match c with
  | CLOB_GENERAL => 0 | MARKET_DATA => 1 | BATCH_OPS => 2 | TRADING_BURST => 3
  | TRADING_SUSTAINED => 4 | GAMMA_API => 5 | DATA_API => 6
  end%nat.

Definition category_of_index (i : nat) : EndpointCategory :=
  match i with
  | 0 => CLOB_GENERAL | 1 => MARKET_DATA | 2 => BATCH_OPS | 3 => TRADING_BURST
  | 4 => TRADING_SUSTAINED | 5 => GAMMA_API | _ => DATA_API
  end%nat.

Definition arg_encode (k : CategoryArg) : nat + string :=
  match k with Category c => inl (category_index c) | Foreign s => inr s end.

Definition arg_decode (x : nat + string) : CategoryArg :=
  match x with inl i => Category (category_of_index i) | inr s => Foreign s end.

#[global] Instance EndpointCategory_eq_dec : EqDecision EndpointCategory.
Proof. solve_decision. Defined.

#[global] Instance CategoryArg_eq_dec : EqDecision CategoryArg.
Proof. solve_decision. Defined.

#[global] Instance CategoryArg_countable : Countable CategoryArg.
Proof.
  apply (inj_countable' arg_encode arg_decode).
  intros [c | s]; [destruct c |]; reflexivity.
Defined.

Record RateLimiter : Type := {
  buckets : gmap CategoryArg TokenBucket;
  _429_backoff : gmap CategoryArg Q
}.

(** [RateLimiter.__init__]: one full bucket per configured category. *)
Definition RateLimiter_init (now : Q) : RateLimiter :=
  {| buckets :=
       foldr (fun c m => <[Category c := TokenBucket_init (RATE_LIMITS c) now]> m)
             ∅ all_categories;
     _429_backoff := ∅ |}.

Inductive LogRecord : Type :=
| WarnUnknownCategory (category : CategoryArg)
| WarnBackoffActive (category : EndpointCategory) (wait_time : Q)
| WarnBackoffSet (category : EndpointCategory) (backoff_time : Q).

Record LimiterResult (A : Type) : Type := {
  lr_now : Q;
  lr_limiter : RateLimiter;
  lr_outcome : outcome A;
  lr_warnings : list LogRecord
}.

Arguments lr_now {A} _.
Arguments lr_limiter {A} _.
Arguments lr_outcome {A} _.
Arguments lr_warnings {A} _.

Definition Qlt_bool (x y : Q) : bool := negb (Qle_bool y x).

Definition set_bucket (k : CategoryArg) (b : TokenBucket) (rl : RateLimiter)
    : RateLimiter :=
  {| buckets := <[k := b]> (buckets rl); _429_backoff := _429_backoff rl |}.

(** The tail of [RateLimiter.acquire]: delegate to the category's bucket
    (a Python object mutated in place, hence written back under its key). *)
Definition acquire_bucket (rl : RateLimiter) (category : CategoryArg)
    (bucket : TokenBucket) (n : Z) (overshoot : list Q) (now total_wait : Q)
    (warnings : list LogRecord) : LimiterResult Q :=
  let r := acquire overshoot n now bucket in
  {| lr_now := ar_now r;
     lr_limiter := set_bucket category (ar_bucket r) rl;
     lr_outcome :=
       match ar_outcome r with
       | Returned wait_time => Returned (total_wait + wait_time)
       | Raised e => Raised e
       | Pending => Pending
       end;
     lr_warnings := warnings |}.

Definition limiter_acquire (rl : RateLimiter) (category : CategoryArg) (n : Z)
    (retry_on_429 : bool) (overshoot : list Q) (now : Q) : LimiterResult Q :=
  match buckets rl !! category with
  | None =>
      {| lr_now := now; lr_limiter := rl; lr_outcome := Returned 0;
         lr_warnings := [WarnUnknownCategory category] |}
  | Some bucket =>
      let backoff_until := default 0 (_429_backoff rl !! category) in
      if retry_on_429 && Qlt_bool now backoff_until then
        let wait_time := backoff_until - now in
        match category with
        | Foreign _ =>
            (* the warning formats [category.value] *)
            {| lr_now := now; lr_limiter := rl;
               lr_outcome := Raised (AttributeError "value");
               lr_warnings := [] |}
        | Category c =>
            match overshoot with
            | [] =>
                {| lr_now := now; lr_limiter := rl; lr_outcome := Pending;
                   lr_warnings := [WarnBackoffActive c wait_time] |}
            | late :: overshoot' =>
                acquire_bucket rl category bucket n overshoot'
                  (now + wait_time + late) wait_time
                  [WarnBackoffActive c wait_time]
            end
        end
      else acquire_bucket rl category bucket n overshoot now 0 []
  end.

(** The duration chosen by [handle_429_error]; [retry_after] is tested for
    truthiness, so [Some 0] counts as absent. *)
Definition backoff_time (current_backoff now : Q) (retry_after : option Z) : Q :=
  match retry_after with
  | Some r =>
      if Z.eqb r 0 then
        if Qlt_bool now current_backoff
        then Qmin ((current_backoff - now) * 2) 60 else 1
      else inject_Z r
  | None =>
      if Qlt_bool now current_backoff
      then Qmin ((current_backoff - now) * 2) 60 else 1
  end.

Definition handle_429_error (rl : RateLimiter) (category : CategoryArg)
    (retry_after : option Z) (now : Q) : LimiterResult unit :=
  let current_backoff := default 0 (_429_backoff rl !! category) in
  let d := backoff_time current_backoff now retry_after in
  let backoff_until := now + d in
  let rl' := {| buckets := buckets rl;
                _429_backoff := <[category := backoff_until]> (_429_backoff rl) |} in
  match category with
  | Category c =>
      {| lr_now := now; lr_limiter := rl'; lr_outcome := Returned tt;
         lr_warnings := [WarnBackoffSet c d] |}
  | Foreign _ =>
      {| lr_now := now; lr_limiter := rl';
         lr_outcome := Raised (AttributeError "value"); lr_warnings := [] |}
  end.

(** The backoff deadline stored for a category, [0.0] when absent. *)
Definition backoff_deadline (rl : RateLimiter) (category : CategoryArg) : Q :=
  default 0 (_429_backoff rl !! category).

(** Concrete inputs used by the examples below. *)
Definition cfg5 : RateLimitConfig :=
  {| cfg_max_tokens := 5; cfg_refill_rate := 1; cfg_window_seconds := 5 |}.

Definition six_requests : list Action :=
  [Acquire 1 []; Acquire 1 []; Acquire 1 []; Acquire 1 []; Acquire 1 [];
   Acquire 1 [0]].

End RateLimit.

(** ** websocket_manager.py *)

Module WebSocket.

Local Open Scope string_scope.
Local Open Scope list_scope.

Inductive ChannelType : Type :=
| CLOB_USER | CLOB_MARKET | ACTIVITY | CRYPTO_PRICES.

Inductive EventType : Type :=
| ORDER | TRADE
| PRICE_CHANGE | AGG_ORDERBOOK | LAST_TRADE_PRICE | TICK_SIZE_CHANGE
| MARKET_CREATED | MARKET_RESOLVED
| TRADES | ORDERS_MATCHED
| CRYPTO_UPDATE.

Definition ChannelType_value (c : ChannelType) : string :=
  match c with
  | CLOB_USER => "user" | CLOB_MARKET => "market"
  | ACTIVITY => "activity" | CRYPTO_PRICES => "crypto_prices"
  end.

Definition EventType_value (e : EventType) : string :=
  match e with
  | ORDER => "order" | TRADE => "trade"
  | PRICE_CHANGE => "price_change" | AGG_ORDERBOOK => "agg_orderbook"
  | LAST_TRADE_PRICE => "last_trade_price" | TICK_SIZE_CHANGE => "tick_size_change"
  | MARKET_CREATED => "market_created" | MARKET_RESOLVED => "market_resolved"
  | TRADES => "trades" | ORDERS_MATCHED => "orders_matched"
  | CRYPTO_UPDATE => "update"
  end.

#[global] Instance ChannelType_eq_dec : EqDecision ChannelType.
Proof. solve_decision. Defined.

#[global] Instance EventType_eq_dec : EqDecision EventType.
Proof. solve_decision. Defined.

(** A [datetime], kept abstract as a number. *)
Definition datetime : Type := Z.

Record Subscription : Type := {
  sub_id : string;
  sub_type : EventType;
  sub_channel : ChannelType;
  market_ids : option (list string);
  token_ids : option (list string);
  callback_type : string;
  created_at : datetime;
  events_received : Z;
  last_event_at : option datetime
}.

(** Python truthiness of an [Optional[List[str]]] and of an [Optional[str]]. *)
Definition truthy_list (o : option (list string)) : bool :=
  match o with Some (_ :: _) => true | _ => false end.

Definition truthy_str (o : option string) : bool :=
  match o with Some s => negb (String.eqb s "") | None => false end.

(** The elements visited by [if xs: for x in xs: ...]. *)
Definition items (o : option (list string)) : list string :=
  match o with Some l => l | None => [] end.

(** [x in xs] for a list of strings. *)
Definition contains (x : string) (xs : list string) : bool :=
  existsb (String.eqb x) xs.

(** *** The insertion-ordered dict of subscriptions *)

Fixpoint dict_get {V : Type} (k : string) (d : list (string * V)) : option V :=
  match d with
  | [] => None
  | (k', v) :: d' => if String.eqb k k' then Some v else dict_get k d'
  end.

Fixpoint dict_set {V : Type} (k : string) (v : V) (d : list (string * V))
    : list (string * V) :=
  match d with
  | [] => [(k, v)]
  | (k', v') :: d' =>
      if String.eqb k k' then (k, v) :: d' else (k', v') :: dict_set k v d'
  end.

Definition dict_del {V : Type} (k : string) (d : list (string * V))
    : list (string * V) :=
  List.filter (fun kv => negb (String.eqb k (fst kv))) d.

Definition dict_keys {V : Type} (d : list (string * V)) : list string :=
  List.map fst d.

Definition dict_values {V : Type} (d : list (string * V)) : list V :=
  List.map snd d.

(** *** The [defaultdict(set)] indexes *)

Definition index_add (key id : string) (idx : gmap string (gset string))
    : gmap string (gset string) :=
  <[key := (idx !!! key) ∪ {[id]}]> idx.

Definition index_discard (key id : string) (idx : gmap string (gset string))
    : gmap string (gset string) :=
  <[key := (idx !!! key) ∖ {[id]}]> idx.

(** *** Sockets and the network *)

Inductive Frame : Type :=
| AuthFrame
| SubscribeFrame (channel event : string) (markets assets : option (list string))
| UnsubscribeFrame (channel event : string).

(** A [websockets] connection as the manager sees it: its [closed] flag and
    the frames it has carried.  [drops_after] is the environment's part: the
    number of further sends the peer accepts before the connection is lost
    ([None]: it stays up). *)
Record Socket : Type := {
  closed : bool;
  sent : list Frame;
  drops_after : option nat
}.

Definition fresh_socket (drops : option nat) : Socket :=
  {| closed := false; sent := []; drops_after := drops |}.

Definition ws_send (f : Frame) (ws : Socket) : Socket * outcome unit :=
  if closed ws then (ws, Raised ConnectionClosed)
  else
    match drops_after ws with
    | Some O =>
        ({| closed := true; sent := sent ws; drops_after := Some O |},
         Raised ConnectionClosed)
    | Some (S k) =>
        ({| closed := false; sent := sent ws ++ [f]; drops_after := Some k |},
         Returned tt)
    | None =>
        ({| closed := false; sent := sent ws ++ [f]; drops_after := None |},
         Returned tt)
    end.

Definition ws_close (ws : Socket) : Socket :=
  {| closed := true; sent := sent ws; drops_after := drops_after ws |}.

(** What [websockets.connect] does for one endpoint. *)
Inductive Link : Type :=
| Refused
| Opened (drops : option nat).

(** What the server answers to the auth frame within the 5 s timeout. *)
Inductive AuthReply : Type :=
| ReplyJson (type_field : option string)
| ReplyTimeout
| ReplyGarbled.

Record Network : Type := {
  clob_link : Link;
  auth_reply : AuthReply;
  realtime_link : Link
}.

(** *** WebSocketManager *)

Record WebSocketManager : Type := {
  has_api_credentials : bool;
  notification_callback : bool;
  log_callback : bool;
  clob_ws : option Socket;
  realtime_ws : option Socket;
  clob_connected : bool;
  realtime_connected : bool;
  authenticated : bool;
  subscriptions : list (string * Subscription);
  market_subscriptions : gmap string (gset string);
  token_subscriptions : gmap string (gset string);
  reconnect_attempts : nat;
  last_reconnect_time : Q;
  total_events_received : nat;
  events_by_type : gmap string nat;
  connection_errors : nat;
  reconnect_count : nat
}.

(** [WebSocketManager.__init__]. *)
Definition WebSocketManager_init (credentials notification log : bool)
    : WebSocketManager :=
  {| has_api_credentials := credentials;
     notification_callback := notification;
     log_callback := log;
     clob_ws := None; realtime_ws := None;
     clob_connected := false; realtime_connected := false;
     authenticated := false;
     subscriptions := [];
     market_subscriptions := ∅; token_subscriptions := ∅;
     reconnect_attempts := 0; last_reconnect_time := 0%Q;
     total_events_received := 0; events_by_type := ∅;
     connection_errors := 0; reconnect_count := 0 |}.

(** Attribute assignments [self.<field> = v]. *)
Definition set_clob_ws (v : option Socket) (m : WebSocketManager)
    : WebSocketManager :=
  {| has_api_credentials := has_api_credentials m;
     notification_callback := notification_callback m;
     log_callback := log_callback m; clob_ws := v; realtime_ws := realtime_ws m;
     clob_connected := clob_connected m; realtime_connected := realtime_connected m;
     authenticated := authenticated m; subscriptions := subscriptions m;
     market_subscriptions := market_subscriptions m;
     token_subscriptions := token_subscriptions m;
     reconnect_attempts := reconnect_attempts m;
     last_reconnect_time := last_reconnect_time m;
     total_events_received := total_events_received m;
     events_by_type := events_by_type m; connection_errors := connection_errors m;
     reconnect_count := reconnect_count m |}.

Definition set_realtime_ws (v : option Socket) (m : WebSocketManager)
    : WebSocketManager :=
  {| has_api_credentials := has_api_credentials m;
     notification_callback := notification_callback m;
     log_callback := log_callback m; clob_ws := clob_ws m; realtime_ws := v;
     clob_connected := clob_connected m; realtime_connected := realtime_connected m;
     authenticated := authenticated m; subscriptions := subscriptions m;
     market_subscriptions := market_subscriptions m;
     token_subscriptions := token_subscriptions m;
     reconnect_attempts := reconnect_attempts m;
     last_reconnect_time := last_reconnect_time m;
     total_events_received := total_events_received m;
     events_by_type := events_by_type m; connection_errors := connection_errors m;
     reconnect_count := reconnect_count m |}.

Definition set_clob_connected (v : bool) (m : WebSocketManager)
    : WebSocketManager :=
  {| has_api_credentials := has_api_credentials m;
     notification_callback := notification_callback m;
     log_callback := log_callback m; clob_ws := clob_ws m;
     realtime_ws := realtime_ws m; clob_connected := v;
     realtime_connected := realtime_connected m; authenticated := authenticated m;
     subscriptions := subscriptions m;
     market_subscriptions := market_subscriptions m;
     token_subscriptions := token_subscriptions m;
     reconnect_attempts := reconnect_attempts m;
     last_reconnect_time := last_reconnect_time m;
     total_events_received := total_events_received m;
     events_by_type := events_by_type m; connection_errors := connection_errors m;
     reconnect_count := reconnect_count m |}.

Definition set_realtime_connected (v : bool) (m : WebSocketManager)
    : WebSocketManager :=
  {| has_api_credentials := has_api_credentials m;
     notification_callback := notification_callback m;
     log_callback := log_callback m; clob_ws := clob_ws m;
     realtime_ws := realtime_ws m; clob_connected := clob_connected m;
     realtime_connected := v; authenticated := authenticated m;
     subscriptions := subscriptions m;
     market_subscriptions := market_subscriptions m;
     token_subscriptions := token_subscriptions m;
     reconnect_attempts := reconnect_attempts m;
     last_reconnect_time := last_reconnect_time m;
     total_events_received := total_events_received m;
     events_by_type := events_by_type m; connection_errors := connection_errors m;
     reconnect_count := reconnect_count m |}.

Definition set_authenticated (v : bool) (m : WebSocketManager)
    : WebSocketManager :=
  {| has_api_credentials := has_api_credentials m;
     notification_callback := notification_callback m;
     log_callback := log_callback m; clob_ws := clob_ws m;
     realtime_ws := realtime_ws m; clob_connected := clob_connected m;
     realtime_connected := realtime_connected m; authenticated := v;
     subscriptions := subscriptions m;
     market_subscriptions := market_subscriptions m;
     token_subscriptions := token_subscriptions m;
     reconnect_attempts := reconnect_attempts m;
     last_reconnect_time := last_reconnect_time m;
     total_events_received := total_events_received m;
     events_by_type := events_by_type m; connection_errors := connection_errors m;
     reconnect_count := reconnect_count m |}.

Definition set_subscriptions (v : list (string * Subscription)) (m : WebSocketManager)
    : WebSocketManager :=
  {| has_api_credentials := has_api_credentials m;
     notification_callback := notification_callback m;
     log_callback := log_callback m; clob_ws := clob_ws m;
     realtime_ws := realtime_ws m; clob_connected := clob_connected m;
     realtime_connected := realtime_connected m; authenticated := authenticated m;
     subscriptions := v; market_subscriptions := market_subscriptions m;
     token_subscriptions := token_subscriptions m;
     reconnect_attempts := reconnect_attempts m;
     last_reconnect_time := last_reconnect_time m;
     total_events_received := total_events_received m;
     events_by_type := events_by_type m; connection_errors := connection_errors m;
     reconnect_count := reconnect_count m |}.

Definition set_market_subscriptions (v : gmap string (gset string)) (m : WebSocketManager)
    : WebSocketManager :=
  {| has_api_credentials := has_api_credentials m;
     notification_callback := notification_callback m;
     log_callback := log_callback m; clob_ws := clob_ws m;
     realtime_ws := realtime_ws m; clob_connected := clob_connected m;
     realtime_connected := realtime_connected m; authenticated := authenticated m;
     subscriptions := subscriptions m; market_subscriptions := v;
     token_subscriptions := token_subscriptions m;
     reconnect_attempts := reconnect_attempts m;
     last_reconnect_time := last_reconnect_time m;
     total_events_received := total_events_received m;
     events_by_type := events_by_type m; connection_errors := connection_errors m;
     reconnect_count := reconnect_count m |}.

Definition set_token_subscriptions (v : gmap string (gset string)) (m : WebSocketManager)
    : WebSocketManager :=
  {| has_api_credentials := has_api_credentials m;
     notification_callback := notification_callback m;
     log_callback := log_callback m; clob_ws := clob_ws m;
     realtime_ws := realtime_ws m; clob_connected := clob_connected m;
     realtime_connected := realtime_connected m; authenticated := authenticated m;
     subscriptions := subscriptions m;
     market_subscriptions := market_subscriptions m; token_subscriptions := v;
     reconnect_attempts := reconnect_attempts m;
     last_reconnect_time := last_reconnect_time m;
     total_events_received := total_events_received m;
     events_by_type := events_by_type m; connection_errors := connection_errors m;
     reconnect_count := reconnect_count m |}.

Definition set_reconnect_attempts (v : nat) (m : WebSocketManager)
    : WebSocketManager :=
  {| has_api_credentials := has_api_credentials m;
     notification_callback := notification_callback m;
     log_callback := log_callback m; clob_ws := clob_ws m;
     realtime_ws := realtime_ws m; clob_connected := clob_connected m;
     realtime_connected := realtime_connected m; authenticated := authenticated m;
     subscriptions := subscriptions m;
     market_subscriptions := market_subscriptions m;
     token_subscriptions := token_subscriptions m; reconnect_attempts := v;
     last_reconnect_time := last_reconnect_time m;
     total_events_received := total_events_received m;
     events_by_type := events_by_type m; connection_errors := connection_errors m;
     reconnect_count := reconnect_count m |}.

Definition set_last_reconnect_time (v : Q) (m : WebSocketManager)
    : WebSocketManager :=
  {| has_api_credentials := has_api_credentials m;
     notification_callback := notification_callback m;
     log_callback := log_callback m; clob_ws := clob_ws m;
     realtime_ws := realtime_ws m; clob_connected := clob_connected m;
     realtime_connected := realtime_connected m; authenticated := authenticated m;
     subscriptions := subscriptions m;
     market_subscriptions := market_subscriptions m;
     token_subscriptions := token_subscriptions m;
     reconnect_attempts := reconnect_attempts m; last_reconnect_time := v;
     total_events_received := total_events_received m;
     events_by_type := events_by_type m; connection_errors := connection_errors m;
     reconnect_count := reconnect_count m |}.

Definition set_total_events_received (v : nat) (m : WebSocketManager)
    : WebSocketManager :=
  {| has_api_credentials := has_api_credentials m;
     notification_callback := notification_callback m;
     log_callback := log_callback m; clob_ws := clob_ws m;
     realtime_ws := realtime_ws m; clob_connected := clob_connected m;
     realtime_connected := realtime_connected m; authenticated := authenticated m;
     subscriptions := subscriptions m;
     market_subscriptions := market_subscriptions m;
     token_subscriptions := token_subscriptions m;
     reconnect_attempts := reconnect_attempts m;
     last_reconnect_time := last_reconnect_time m; total_events_received := v;
     events_by_type := events_by_type m; connection_errors := connection_errors m;
     reconnect_count := reconnect_count m |}.

Definition set_events_by_type (v : gmap string nat) (m : WebSocketManager)
    : WebSocketManager :=
  {| has_api_credentials := has_api_credentials m;
     notification_callback := notification_callback m;
     log_callback := log_callback m; clob_ws := clob_ws m;
     realtime_ws := realtime_ws m; clob_connected := clob_connected m;
     realtime_connected := realtime_connected m; authenticated := authenticated m;
     subscriptions := subscriptions m;
     market_subscriptions := market_subscriptions m;
     token_subscriptions := token_subscriptions m;
     reconnect_attempts := reconnect_attempts m;
     last_reconnect_time := last_reconnect_time m;
     total_events_received := total_events_received m; events_by_type := v;
     connection_errors := connection_errors m;
     reconnect_count := reconnect_count m |}.

Definition set_connection_errors (v : nat) (m : WebSocketManager)
    : WebSocketManager :=
  {| has_api_credentials := has_api_credentials m;
     notification_callback := notification_callback m;
     log_callback := log_callback m; clob_ws := clob_ws m;
     realtime_ws := realtime_ws m; clob_connected := clob_connected m;
     realtime_connected := realtime_connected m; authenticated := authenticated m;
     subscriptions := subscriptions m;
     market_subscriptions := market_subscriptions m;
     token_subscriptions := token_subscriptions m;
     reconnect_attempts := reconnect_attempts m;
     last_reconnect_time := last_reconnect_time m;
     total_events_received := total_events_received m;
     events_by_type := events_by_type m; connection_errors := v;
     reconnect_count := reconnect_count m |}.

Definition set_reconnect_count (v : nat) (m : WebSocketManager)
    : WebSocketManager :=
  {| has_api_credentials := has_api_credentials m;
     notification_callback := notification_callback m;
     log_callback := log_callback m; clob_ws := clob_ws m;
     realtime_ws := realtime_ws m; clob_connected := clob_connected m;
     realtime_connected := realtime_connected m; authenticated := authenticated m;
     subscriptions := subscriptions m;
     market_subscriptions := market_subscriptions m;
     token_subscriptions := token_subscriptions m;
     reconnect_attempts := reconnect_attempts m;
     last_reconnect_time := last_reconnect_time m;
     total_events_received := total_events_received m;
     events_by_type := events_by_type m; connection_errors := connection_errors m;
     reconnect_count := v |}.

Definition INITIAL_RECONNECT_DELAY : Z := 1.
Definition MAX_RECONNECT_DELAY : Z := 60.
Definition RECONNECT_MULTIPLIER : Z := 2.

(** [_authenticate_clob]: every exception is caught, so it always returns. *)
Definition _authenticate_clob (reply : AuthReply) (m : WebSocketManager)
    : WebSocketManager * outcome unit :=
  match clob_ws m with
  | None => (set_authenticated false m, Returned tt)
  | Some ws =>
      let (ws', o) := ws_send AuthFrame ws in
      let m1 := set_clob_ws (Some ws') m in
      match o with
      | Returned _ =>
          match reply with
          | ReplyJson type_field =>
              if bool_decide (type_field = Some "authenticated")
              then (set_authenticated true m1, Returned tt)
              else (set_authenticated false m1, Returned tt)
          | ReplyTimeout => (set_authenticated false m1, Returned tt)
          | ReplyGarbled => (set_authenticated false m1, Returned tt)
          end
      | _ => (set_authenticated false m1, Returned tt)
      end
  end.

Definition _connect_clob (net : Network) (m : WebSocketManager)
    : WebSocketManager * outcome unit :=
  match clob_link net with
  | Refused =>
      (set_clob_connected false m, Raised (OSError "connect"))
  | Opened drops =>
      let m1 := set_clob_connected true (set_clob_ws (Some (fresh_socket drops)) m) in
      if has_api_credentials m1 then _authenticate_clob (auth_reply net) m1
      else (m1, Returned tt)
  end.

Definition _connect_realtime (net : Network) (m : WebSocketManager)
    : WebSocketManager * outcome unit :=
  match realtime_link net with
  | Refused =>
      (set_realtime_connected false m, Raised (OSError "connect"))
  | Opened drops =>
      (set_realtime_connected true
         (set_realtime_ws (Some (fresh_socket drops)) m), Returned tt)
  end.

Definition connect (net : Network) (m : WebSocketManager)
    : WebSocketManager * outcome unit :=
  let (m1, o1) := _connect_clob net m in
  match o1 with
  | Returned _ =>
      let (m2, o2) := _connect_realtime net m1 in
      match o2 with
      | Returned _ => (m2, Returned tt)
      | _ => (set_connection_errors (S (connection_errors m2)) m2, o2)
      end
  | _ => (set_connection_errors (S (connection_errors m1)) m1, o1)
  end.

Definition close_if_open (ws : option Socket) : option Socket :=
  match ws with
  | Some s => if negb (closed s) then Some (ws_close s) else Some s
  | None => None
  end.

Definition disconnect (m : WebSocketManager) : WebSocketManager :=
  let m1 := set_clob_ws (close_if_open (clob_ws m)) m in
  let m2 := set_authenticated false (set_clob_connected false m1) in
  let m3 := set_realtime_ws (close_if_open (realtime_ws m2)) m2 in
  set_realtime_connected false m3.

Definition subscription_frame (s : Subscription) : Frame :=
  SubscribeFrame (ChannelType_value (sub_channel s)) (EventType_value (sub_type s))
    (if truthy_list (market_ids s) then market_ids s else None)
    (if truthy_list (token_ids s) then token_ids s else None).

Definition unsubscription_frame (s : Subscription) : Frame :=
  UnsubscribeFrame (ChannelType_value (sub_channel s)) (EventType_value (sub_type s)).

(** Whether the channel is served by the CLOB socket (else by the real-time
    socket). *)
Definition on_clob (c : ChannelType) : bool :=
  match c with CLOB_USER | CLOB_MARKET => true | ACTIVITY | CRYPTO_PRICES => false end.

Definition _send_subscription (s : Subscription) (m : WebSocketManager)
    : WebSocketManager * outcome unit :=
  if on_clob (sub_channel s) then
    if negb (clob_connected m) then
      (m, Raised (RuntimeError "CLOB WebSocket not connected"))
    else
      match clob_ws m with
      | None => (m, Raised (AttributeError "send"))
      | Some ws =>
          let (ws', o) := ws_send (subscription_frame s) ws in
          (set_clob_ws (Some ws') m, o)
      end
  else
    if negb (realtime_connected m) then
      (m, Raised (RuntimeError "Real-time WebSocket not connected"))
    else
      match realtime_ws m with
      | None => (m, Raised (AttributeError "send"))
      | Some ws =>
          let (ws', o) := ws_send (subscription_frame s) ws in
          (set_realtime_ws (Some ws') m, o)
      end.

(** [_resubscribe_all]: a failed send is logged and the loop goes on. *)
Definition _resubscribe_all (m : WebSocketManager) : WebSocketManager :=
  foldl (fun m' s => fst (_send_subscription s m')) m
        (dict_values (subscriptions m)).

(** [reconnect]; returns the manager and the delay slept before the attempt.
    [now] is the reading of [time.time()] on success. *)
Definition reconnect (net : Network) (now : Q) (m : WebSocketManager)
    : WebSocketManager * Z :=
  let m0 := set_reconnect_count (S (reconnect_count m)) m in
  let delay :=
    Z.min (INITIAL_RECONNECT_DELAY *
             RECONNECT_MULTIPLIER ^ Z.of_nat (reconnect_attempts m0))
          MAX_RECONNECT_DELAY in
  let m1 := disconnect m0 in
  let (m2, o) := connect net m1 in
  match o with
  | Returned _ =>
      let m3 := _resubscribe_all m2 in
      (set_last_reconnect_time now (set_reconnect_attempts 0 m3), delay)
  | _ => (set_reconnect_attempts (S (reconnect_attempts m2)) m2, delay)
  end.

(** The [Subscription(...)] built by [subscribe]. *)
Definition new_subscription (event_type : EventType) (channel : ChannelType)
    (markets tokens : option (list string)) (mode : string)
    (new_id : string) (now : datetime) : Subscription :=
  {| sub_id := new_id; sub_type := event_type; sub_channel := channel;
     market_ids := markets; token_ids := tokens; callback_type := mode;
     created_at := now; events_received := 0; last_event_at := None |}.

(** [subscribe]; [new_id] is the value of [str(uuid.uuid4())] and [now] that
    of [datetime.now()]. *)
Definition subscribe (event_type : EventType) (channel : ChannelType)
    (markets tokens : option (list string)) (mode : string)
    (new_id : string) (now : datetime) (m : WebSocketManager)
    : WebSocketManager * outcome string :=
  if bool_decide (channel = CLOB_USER) && negb (authenticated m) then
    (m, Raised (RuntimeError "CLOB authentication required for user subscriptions"))
  else
    let subscription :=
      new_subscription event_type channel markets tokens mode new_id now in
    let m1 := set_subscriptions (dict_set new_id subscription (subscriptions m)) m in
    let m2 := set_market_subscriptions
                (foldl (fun idx market_id => index_add market_id new_id idx)
                       (market_subscriptions m1) (items markets)) m1 in
    let m3 := set_token_subscriptions
                (foldl (fun idx token_id => index_add token_id new_id idx)
                       (token_subscriptions m2) (items tokens)) m2 in
    let (m4, o) := _send_subscription subscription m3 in
    match o with
    | Returned _ => (m4, Returned new_id)
    | Raised e => (m4, Raised e)
    | Pending => (m4, Pending)
    end.

Definition _send_unsubscription (s : Subscription) (m : WebSocketManager)
    : WebSocketManager * outcome unit :=
  if on_clob (sub_channel s) then
    match clob_ws m with
    | None => (m, Returned tt)
    | Some ws =>
        if closed ws then (m, Returned tt)
        else
          let (ws', o) := ws_send (unsubscription_frame s) ws in
          (set_clob_ws (Some ws') m, o)
    end
  else
    match realtime_ws m with
    | None => (m, Returned tt)
    | Some ws =>
        if closed ws then (m, Returned tt)
        else
          let (ws', o) := ws_send (unsubscription_frame s) ws in
          (set_realtime_ws (Some ws') m, o)
    end.

(** [unsubscribe]: whatever [_send_unsubscription] raises is logged and
    dropped. *)
Definition unsubscribe (subscription_id : string) (m : WebSocketManager)
    : WebSocketManager * outcome bool :=
  match dict_get subscription_id (subscriptions m) with
  | None => (m, Returned false)
  | Some subscription =>
      let m1 := fst (_send_unsubscription subscription m) in
      let m2 := set_market_subscriptions
                  (foldl (fun idx market_id => index_discard market_id subscription_id idx)
                         (market_subscriptions m1) (items (market_ids subscription))) m1 in
      let m3 := set_token_subscriptions
                  (foldl (fun idx token_id => index_discard token_id subscription_id idx)
                         (token_subscriptions m2) (items (token_ids subscription))) m2 in
      let m4 := set_subscriptions (dict_del subscription_id (subscriptions m3)) m3 in
      (m4, Returned true)
  end.

(** *** Events and their delivery *)

Record PriceChangeEvent : Type := {
  pc_asset_id : string;
  pc_price : Q;
  pc_timestamp : datetime;
  pc_market : option string
}.

Record OrderbookUpdate : Type := {
  ob_asset_id : string;
  ob_bids : list (Q * Q);
  ob_asks : list (Q * Q);
  ob_timestamp : datetime
}.

Record OrderUpdate : Type := {
  ou_order_id : string;
  ou_status : string;
  ou_filled_size : Q;
  ou_remaining_size : Q;
  ou_price : Q;
  ou_side : string;
  ou_timestamp : datetime;
  ou_market_id : option string
}.

Record TradeUpdate : Type := {
  tu_trade_id : string;
  tu_order_id : string;
  tu_market_id : string;
  tu_price : Q;
  tu_size : Q;
  tu_side : string;
  tu_timestamp : datetime
}.

Record MarketResolutionEvent : Type := {
  mr_market_id : string;
  mr_outcome : string;
  mr_timestamp : datetime
}.

(** The argument of one callback invocation. *)
Inductive Call : Type :=
| NotifyPriceChange (subscription_id : string) (event : PriceChangeEvent)
| NotifyOrderbook (subscription_id : string) (event : OrderbookUpdate)
    (best_bid best_ask : option Q) (bid_depth ask_depth : nat)
| NotifyOrder (subscription_id : string) (event : OrderUpdate)
| NotifyTrade (subscription_id : string) (event : TradeUpdate)
| NotifyResolution (subscription_id : string) (event : MarketResolutionEvent)
| LogPriceChange (subject : string) (price : Q).

Definition is_notification (c : Call) : bool :=
  match c with LogPriceChange _ _ => false | _ => true end.

Definition is_log (c : Call) : bool :=
  match c with LogPriceChange _ _ => true | _ => false end.

(** A callback invocation together with the subscription it was made for. *)
Record Delivery : Type := {
  d_subscription : string;
  d_call : Call
}.

(** The body of the loop in [_find_matching_subscriptions]. *)
Definition subscription_matches (event_type : EventType)
    (market_id token_id : option string) (sub : Subscription) : bool :=
  if negb (bool_decide (sub_type sub = event_type)) then false
  else if truthy_list (market_ids sub) && truthy_str market_id
          && negb (contains (default "" market_id) (items (market_ids sub)))
  then false
  else if truthy_list (token_ids sub) && truthy_str token_id
          && negb (contains (default "" token_id) (items (token_ids sub)))
  then false
  else true.

Definition _find_matching_subscriptions (m : WebSocketManager)
    (event_type : EventType) (market_id token_id : option string)
    : list Subscription :=
  List.filter (subscription_matches event_type market_id token_id)
              (dict_values (subscriptions m)).

(** [sub.events_received += 1; sub.last_event_at = datetime.now()] on the
    subscription object, which the registry shares. *)
Definition touch (now : datetime) (s : Subscription) : Subscription :=
  {| sub_id := sub_id s; sub_type := sub_type s; sub_channel := sub_channel s;
     market_ids := market_ids s; token_ids := token_ids s;
     callback_type := callback_type s; created_at := created_at s;
     events_received := events_received s + 1; last_event_at := Some now |}.

Definition touch_subscription (id : string) (now : datetime) (m : WebSocketManager)
    : WebSocketManager :=
  set_subscriptions
    (List.map (fun kv => if String.eqb id (sub_id (snd kv))
                         then (fst kv, touch now (snd kv)) else kv)
              (subscriptions m)) m.

(** The [for sub in matching_subs] loop shared by the typed handlers;
    [calls sub] are the callback invocations its body makes for [sub]. *)
Definition notify_each (calls : Subscription -> list Call) (now : datetime)
    (matching : list Subscription) (m : WebSocketManager)
    : WebSocketManager * list Delivery :=
  foldl (fun acc sub =>
           (touch_subscription (sub_id sub) now (fst acc),
            snd acc ++ List.map (fun c => {| d_subscription := sub_id sub; d_call := c |})
                                (calls sub)))
        (m, []) matching.

Definition price_change_calls (m : WebSocketManager) (event : PriceChangeEvent)
    (sub : Subscription) : list Call :=
  if String.eqb (callback_type sub) "notification" && notification_callback m then
    [NotifyPriceChange (sub_id sub) event]
  else if String.eqb (callback_type sub) "log" && log_callback m then
    [LogPriceChange (if truthy_str (pc_market event)
                     then default "" (pc_market event) else pc_asset_id event)
                    (pc_price event)]
  else [].

Definition orderbook_calls (m : WebSocketManager) (event : OrderbookUpdate)
    (sub : Subscription) : list Call :=
  if String.eqb (callback_type sub) "notification" && notification_callback m then
    [NotifyOrderbook (sub_id sub) event
       (option_map fst (head (ob_bids event)))
       (option_map fst (head (ob_asks event)))
       (length (ob_bids event)) (length (ob_asks event))]
  else [].

Definition order_calls (m : WebSocketManager) (event : OrderUpdate)
    (sub : Subscription) : list Call :=
  if String.eqb (callback_type sub) "notification" && notification_callback m then
    [NotifyOrder (sub_id sub) event]
  else [].

Definition trade_calls (m : WebSocketManager) (event : TradeUpdate)
    (sub : Subscription) : list Call :=
  if String.eqb (callback_type sub) "notification" && notification_callback m then
    [NotifyTrade (sub_id sub) event]
  else [].

Definition resolution_calls (m : WebSocketManager) (event : MarketResolutionEvent)
    (sub : Subscription) : list Call :=
  if String.eqb (callback_type sub) "notification" && notification_callback m then
    [NotifyResolution (sub_id sub) event]
  else [].

(** The typed handlers.  Building the event record from the raw dict
    (pydantic validation, [Decimal] and ISO-date parsing) either succeeds or
    raises inside the handler's [try]; the argument is [None] in the second
    case, which the [except] turns into a logged error. *)
Definition _handle_price_change (data : option PriceChangeEvent) (now : datetime)
    (m : WebSocketManager) : WebSocketManager * list Delivery :=
  match data with
  | None => (m, [])
  | Some event =>
      notify_each (price_change_calls m event) now
        (_find_matching_subscriptions m PRICE_CHANGE
           (pc_market event) (Some (pc_asset_id event))) m
  end.

Definition _handle_orderbook_update (data : option OrderbookUpdate) (now : datetime)
    (m : WebSocketManager) : WebSocketManager * list Delivery :=
  match data with
  | None => (m, [])
  | Some event =>
      notify_each (orderbook_calls m event) now
        (_find_matching_subscriptions m AGG_ORDERBOOK
           None (Some (ob_asset_id event))) m
  end.

Definition _handle_order_update (data : option OrderUpdate) (now : datetime)
    (m : WebSocketManager) : WebSocketManager * list Delivery :=
  match data with
  | None => (m, [])
  | Some event =>
      notify_each (order_calls m event) now
        (_find_matching_subscriptions m ORDER (ou_market_id event) None) m
  end.

Definition _handle_trade_update (data : option TradeUpdate) (now : datetime)
    (m : WebSocketManager) : WebSocketManager * list Delivery :=
  match data with
  | None => (m, [])
  | Some event =>
      notify_each (trade_calls m event) now
        (_find_matching_subscriptions m TRADE (Some (tu_market_id event)) None) m
  end.

Definition _handle_market_resolution (data : option MarketResolutionEvent)
    (now : datetime) (m : WebSocketManager) : WebSocketManager * list Delivery :=
  match data with
  | None => (m, [])
  | Some event =>
      notify_each (resolution_calls m event) now
        (_find_matching_subscriptions m MARKET_RESOLVED
           (Some (mr_market_id event)) None) m
  end.

(** An inbound frame: its two discriminator fields and what each typed
    handler would make of the rest of the dict. *)
Record Message : Type := {
  msg_type : option string;
  msg_event : option string;
  as_price_change : option PriceChangeEvent;
  as_orderbook : option OrderbookUpdate;
  as_order : option OrderUpdate;
  as_trade : option TradeUpdate;
  as_resolution : option MarketResolutionEvent
}.

Definition handle_message (message : Message) (now : datetime)
    (m : WebSocketManager) : WebSocketManager * list Delivery :=
  let event_type :=
    if truthy_str (msg_type message) then msg_type message else msg_event message in
  if negb (truthy_str event_type) then (m, [])
  else
    let name := default "" event_type in
    let m1 :=
      set_events_by_type
        (<[name := S (default O (events_by_type m !! name))]> (events_by_type m))
        (set_total_events_received (S (total_events_received m)) m) in
    if String.eqb name (EventType_value PRICE_CHANGE) then
      _handle_price_change (as_price_change message) now m1
    else if String.eqb name (EventType_value AGG_ORDERBOOK) then
      _handle_orderbook_update (as_orderbook message) now m1
    else if String.eqb name (EventType_value ORDER) then
      _handle_order_update (as_order message) now m1
    else if String.eqb name (EventType_value TRADE) then
      _handle_trade_update (as_trade message) now m1
    else if String.eqb name (EventType_value MARKET_RESOLVED) then
      _handle_market_resolution (as_resolution message) now m1
    else (m1, []).

(** The deliveries made for one subscription. *)
Definition deliveries_for (id : string) (ds : list Delivery) : list Call :=
  List.map d_call (List.filter (fun d => String.eqb id (d_subscription d)) ds).

(** The matching rule as the specification words it: same type, and for each
    filter either the subscription has none or the event's id is in it. *)
Definition spec_filter_passes (filter : option (list string)) (id : option string)
    : Prop :=
  filter = None \/
  exists (l : list string) (x : string), filter = Some l /\ id = Some x /\ In x l.

Definition spec_matches (event_type : EventType) (market_id token_id : option string)
    (sub : Subscription) : Prop :=
  sub_type sub = event_type /\
  spec_filter_passes (market_ids sub) market_id /\
  spec_filter_passes (token_ids sub) token_id.

(** The matching rule of the code: a filter is also passed when it is empty
    or when the event carries no (or an empty) id of that kind. *)
Definition filter_passes (filter : option (list string)) (id : option string)
    : Prop :=
  filter = None \/ filter = Some [] \/ id = None \/ id = Some "" \/
  exists (l : list string) (x : string), filter = Some l /\ id = Some x /\ In x l.

Definition code_matches (event_type : EventType) (market_id token_id : option string)
    (sub : Subscription) : Prop :=
  sub_type sub = event_type /\
  filter_passes (market_ids sub) market_id /\
  filter_passes (token_ids sub) token_id.

(** A timeout or an explicit failure response of the handshake. *)
Definition auth_refused (reply : AuthReply) : Prop :=
  reply = ReplyTimeout \/
  exists t : option string, reply = ReplyJson t /\ t <> Some "authenticated".

(** The socket is there, open, and the peer accepts the next send. *)
Definition socket_ready (ws : option Socket) : Prop :=
  exists s : Socket, ws = Some s /\ closed s = false /\ drops_after s <> Some O.

Definition channel_ready (c : ChannelType) (m : WebSocketManager) : Prop :=
  if on_clob c
  then clob_connected m = true /\ socket_ready (clob_ws m)
  else realtime_connected m = true /\ socket_ready (realtime_ws m).

(** Every id listed by an index belongs to a registered subscription that
    names the key. *)
Definition index_consistent (m : WebSocketManager) : Prop :=
  forall (id k : string),
    (id ∈ market_subscriptions m !!! k ->
     exists sub, dict_get id (subscriptions m) = Some sub /\
                 In k (items (market_ids sub))) /\
    (id ∈ token_subscriptions m !!! k ->
     exists sub, dict_get id (subscriptions m) = Some sub /\
                 In k (items (token_ids sub))).

Definition auth_required : exn :=
  RuntimeError "CLOB authentication required for user subscriptions".


(** The frames a socket attribute has carried. *)
Definition wire_log (ws : option Socket) : list Frame :=
  match ws with Some s => sent s | None => [] end.





(** Concrete inputs used by the examples below. *)
Definition book_sub : Subscription :=
  {| sub_id := "s1"; sub_type := AGG_ORDERBOOK; sub_channel := CLOB_MARKET;
     market_ids := Some ["M1"]; token_ids := None; callback_type := "log";
     created_at := 0%Z; events_received := 0; last_event_at := None |}.

Definition price_sub : Subscription :=
  {| sub_id := "s2"; sub_type := PRICE_CHANGE; sub_channel := CLOB_MARKET;
     market_ids := Some ["M1"]; token_ids := Some ["T1"];
     callback_type := "notification";
     created_at := 0%Z; events_received := 0; last_event_at := None |}.

Definition activity_sub : Subscription :=
  {| sub_id := "s3"; sub_type := TRADES; sub_channel := ACTIVITY;
     market_ids := None; token_ids := None; callback_type := "log";
     created_at := 0%Z; events_received := 0; last_event_at := None |}.

Definition price_log_sub : Subscription :=
  {| sub_id := "s4"; sub_type := PRICE_CHANGE; sub_channel := CLOB_MARKET;
     market_ids := None; token_ids := None; callback_type := "log";
     created_at := 0%Z; events_received := 0; last_event_at := None |}.

(** A connected, unauthenticated manager with both callbacks configured and
    four subscriptions, as [subscribe] leaves it. *)
Definition demo_manager : WebSocketManager :=
  {| has_api_credentials := true;
     notification_callback := true;
     log_callback := true;
     clob_ws := Some (fresh_socket None);
     realtime_ws := Some (fresh_socket None);
     clob_connected := true; realtime_connected := true;
     authenticated := false;
     subscriptions := [("s1", book_sub); ("s2", price_sub); ("s3", activity_sub);
                       ("s4", price_log_sub)];
     market_subscriptions := {["M1" := {["s1"; "s2"]}]};
     token_subscriptions := {["T1" := {["s2"]}]};
     reconnect_attempts := 3; last_reconnect_time := 0%Q;
     total_events_received := 0; events_by_type := ∅;
     connection_errors := 0; reconnect_count := 0 |}.

Definition book_event : OrderbookUpdate :=
  {| ob_asset_id := "T1"; ob_bids := [(1 # 2, 100)%Q]; ob_asks := [(51 # 100, 150)%Q];
     ob_timestamp := 1%Z |}.

Definition price_event : PriceChangeEvent :=
  {| pc_asset_id := "T1"; pc_price := (55 # 100)%Q; pc_timestamp := 1%Z;
     pc_market := Some "M1" |}.

Definition no_body : Message :=
  {| msg_type := None; msg_event := None; as_price_change := None;
     as_orderbook := None; as_order := None; as_trade := None;
     as_resolution := None |}.

(** The frames [{"type": "agg_orderbook", ...}] and
    [{"type": "price_change", ...}] carrying the two events above. *)
Definition book_message : Message :=
  {| msg_type := Some "agg_orderbook"; msg_event := None; as_price_change := None;
     as_orderbook := Some book_event; as_order := None; as_trade := None;
     as_resolution := None |}.

Definition price_message : Message :=
  {| msg_type := Some "price_change"; msg_event := None;
     as_price_change := Some price_event;
     as_orderbook := None; as_order := None; as_trade := None;
     as_resolution := None |}.


(** [demo_manager] with a CLOB connection that fails on the next send. *)
Definition flaky_manager : WebSocketManager :=
  set_clob_ws (Some (fresh_socket (Some O))) demo_manager.

End WebSocket.

(** ** rate_limiter.py: status and reset *)

Module RateLimitStatus.

Import RateLimit.
Local Open Scope Q_scope.

Definition EndpointCategory_value (c : EndpointCategory) : string :=
  match c with
  | CLOB_GENERAL => "clob_general"
  | MARKET_DATA => "market_data"
  | BATCH_OPS => "batch_ops"
  | TRADING_BURST => "trading_burst"
  | TRADING_SUSTAINED => "trading_sustained"
  | GAMMA_API => "gamma_api"
  | DATA_API => "data_api"
  end.

(** Python's [int(x)] on a float: truncation toward zero. *)
Definition py_int (x : Q) : Z := Z.quot (Qnum x) (Zpos (Qden x)).

(** [TokenBucket.available_tokens]: refills, then reports the whole tokens. *)
Definition available_tokens (now : Q) (b : TokenBucket) : TokenBucket * Z :=
  let b1 := _refill now b in
  (b1, py_int (tokens b1)).

Record StatusRow : Type := {
  st_available_tokens : Z;
  st_max_tokens : Z;
  st_refill_rate_per_sec : Q;
  st_backoff_remaining_sec : Q;
  st_is_throttled : bool
}.

(** The status dict, keyed by [category.value], in insertion order. *)
Fixpoint status_get (k : string) (d : list (string * StatusRow)) : option StatusRow :=
  match d with
  | [] => None
  | (k', v) :: d' => if String.eqb k k' then Some v else status_get k d'
  end.

Fixpoint status_set (k : string) (v : StatusRow) (d : list (string * StatusRow))
    : list (string * StatusRow) :=
  match d with
  | [] => [(k, v)]
  | (k', v') :: d' =>
      if String.eqb k k' then (k, v) :: d' else (k', v') :: status_set k v d'
  end.

(** The loop of [RateLimiter.get_status] over [self.buckets.items()].  The
    map of buckets does not record the order in which the dict yields its
    keys, so the loop takes it as [order]; an entry of [order] that is not a
    key is passed over.  The value of [status[category.value] = {...}] is
    built before the target is evaluated, so the bucket of a foreign key has
    been refilled when [category.value] raises. *)
Fixpoint status_loop (order : list CategoryArg) (now : Q) (rl : RateLimiter)
    (status : list (string * StatusRow))
    : RateLimiter * outcome (list (string * StatusRow)) :=
  match order with
  | [] => (rl, Returned status)
  | category :: order' =>
      match buckets rl !! category with
      | None => status_loop order' now rl status
      | Some bucket =>
          let backoff_remaining :=
            Qmax 0 (default 0 (_429_backoff rl !! category) - now) in
          let (bucket', available) := available_tokens now bucket in
          let rl1 := set_bucket category bucket' rl in
          match category with
          | Foreign _ => (rl1, Raised (AttributeError "value"))
          | Category c =>
              status_loop order' now rl1
                (status_set (EndpointCategory_value c)
                   {| st_available_tokens := available;
                      st_max_tokens := max_tokens bucket';
                      st_refill_rate_per_sec := refill_rate bucket';
                      st_backoff_remaining_sec := backoff_remaining;
                      st_is_throttled := Qlt_bool 0 backoff_remaining |}
                   status)
          end
      end
  end.

Definition get_status (order : list CategoryArg) (now : Q) (rl : RateLimiter)
    : RateLimiter * outcome (list (string * StatusRow)) :=
  status_loop order now rl [].

(** The order in which [RateLimiter.__init__] inserts the buckets. *)
Definition init_order : list CategoryArg := List.map Category all_categories.

(** [RateLimiter.reset_backoff]; a member of the enum is truthy. *)
Definition reset_backoff (category : option EndpointCategory) (rl : RateLimiter)
    : RateLimiter :=
  match category with
  | Some c =>
      {| buckets := buckets rl;
         _429_backoff := <[Category c := 0]> (_429_backoff rl) |}
  | None => {| buckets := buckets rl; _429_backoff := ∅ |}
  end.

(** [get_rate_limiter] on the module-level [_rate_limiter]; [now] is read
    only when the instance is created. *)
Definition get_rate_limiter (now : Q) (global : option RateLimiter)
    : option RateLimiter * RateLimiter :=
  match global with
  | Some rl => (Some rl, rl)
  | None => let rl := RateLimiter_init now in (Some rl, rl)
  end.

(** [k] calls of [handle_429_error] without retry-after at the same instant. *)
Fixpoint repeat_429 (k : nat) (category : CategoryArg) (now : Q) (rl : RateLimiter)
    : RateLimiter :=
  match k with
  | O => rl
  | S k' =>
      lr_limiter (handle_429_error (repeat_429 k' category now rl) category None now)
  end.

(** The limiter's bucket invariant: every bucket is within its capacity, has
    a non-negative capacity and rate, and was refilled no later than [now]. *)
Definition bucket_ok (now : Q) (b : TokenBucket) : Prop :=
  (0 <= max_tokens b)%Z /\ 0 <= refill_rate b /\
  last_refill b <= now /\ within_capacity (max_tokens b) (tokens b).

(** The burst-then-refill schedule: take the whole capacity, idle for [w],
    take the whole capacity again. *)
Definition burst_twice (config : RateLimitConfig) (w : Q) : list Action :=
  [Acquire (cfg_max_tokens config) []; Elapse w; Acquire (cfg_max_tokens config) []].

End RateLimitStatus.

(** ** websocket_manager.py: status, sequences of operations *)

Module WebSocketStatus.

Import WebSocket.
Local Open Scope string_scope.
Local Open Scope list_scope.

Definition CLOB_WS_URL : string := "wss://ws-subscriptions-clob.polymarket.com/ws/".
Definition REALTIME_WS_URL : string := "wss://ws-live-data.polymarket.com".

(** The members of [EventType], in declaration order. *)
Definition all_event_types : list EventType :=
  [ORDER; TRADE; PRICE_CHANGE; AGG_ORDERBOOK; LAST_TRADE_PRICE; TICK_SIZE_CHANGE;
   MARKET_CREATED; MARKET_RESOLVED; TRADES; ORDERS_MATCHED; CRYPTO_UPDATE].

Record SubscriptionRow : Type := {
  row_id : string;
  row_type : string;
  row_channel : string;
  row_created_at : datetime;
  row_events_received : Z;
  row_last_event : option datetime
}.

Record ManagerStatus : Type := {
  st_clob_connected : bool;
  st_clob_authenticated : bool;
  st_clob_url : string;
  st_realtime_connected : bool;
  st_realtime_url : string;
  st_total : nat;
  st_by_type : list (EventType * nat);
  st_active : list SubscriptionRow;
  st_total_events : nat;
  st_events_by_type : gmap string nat;
  st_connection_errors : nat;
  st_reconnect_count : nat;
  st_last_reconnect : Q;
  st_running : bool;
  st_task_exists : bool
}.

Definition subscription_row (sub : Subscription) : SubscriptionRow :=
  {| row_id := sub_id sub;
     row_type := EventType_value (sub_type sub);
     row_channel := ChannelType_value (sub_channel sub);
     row_created_at := created_at sub;
     row_events_received := events_received sub;
     row_last_event := last_event_at sub |}.

(** [WebSocketManager.get_status].  [should_run] and [task_exists] are the
    two attributes of the background task, which the manager record does not
    carry. *)
Definition get_status (should_run task_exists : bool) (m : WebSocketManager)
    : ManagerStatus :=
  {| st_clob_connected := clob_connected m;
     st_clob_authenticated := authenticated m;
     st_clob_url := CLOB_WS_URL;
     st_realtime_connected := realtime_connected m;
     st_realtime_url := REALTIME_WS_URL;
     st_total := length (subscriptions m);
     st_by_type :=
       List.map (fun event_type =>
                   (event_type,
                    length (List.filter
                              (fun s => bool_decide (sub_type s = event_type))
                              (dict_values (subscriptions m)))))
                all_event_types;
     st_active := List.map subscription_row (dict_values (subscriptions m));
     st_total_events := total_events_received m;
     st_events_by_type := events_by_type m;
     st_connection_errors := connection_errors m;
     st_reconnect_count := reconnect_count m;
     st_last_reconnect := last_reconnect_time m;
     st_running := should_run;
     st_task_exists := task_exists |}.

(** The discriminator [handle_message] routes on:
    [message.get("type") or message.get("event")], when truthy. *)
Definition discriminator (message : Message) : option string :=
  if truthy_str (msg_type message) then msg_type message
  else if truthy_str (msg_event message) then msg_event message
  else None.

(** Frames handled one after the other, in arrival order, each with the
    reading of [datetime.now()] made while it is handled. *)
Definition feed (frames : list (Message * datetime)) (m : WebSocketManager)
    : WebSocketManager * list Delivery :=
  foldl (fun acc frame =>
           let r := handle_message (fst frame) (snd frame) (fst acc) in
           (fst r, snd acc ++ snd r))
        (m, []) frames.

(** [k] calls of [reconnect] in a row. *)
Fixpoint reconnect_times (k : nat) (net : Network) (now : Q) (m : WebSocketManager)
    : WebSocketManager :=
  match k with
  | O => m
  | S k' => fst (reconnect net now (reconnect_times k' net now m))
  end.

(** Calls on the registry. *)
Inductive RegistryCall : Type :=
| CallSubscribe (event_type : EventType) (channel : ChannelType)
    (markets tokens : option (list string)) (mode new_id : string) (now : datetime)
| CallUnsubscribe (subscription_id : string)
| CallHandle (message : Message) (now : datetime).

Definition call (c : RegistryCall) (m : WebSocketManager) : WebSocketManager :=
  match c with
  | CallSubscribe event_type channel markets tokens mode new_id now =>
      fst (subscribe event_type channel markets tokens mode new_id now m)
  | CallUnsubscribe subscription_id => fst (unsubscribe subscription_id m)
  | CallHandle message now => fst (handle_message message now m)
  end.

Fixpoint calls (cs : list RegistryCall) (m : WebSocketManager) : WebSocketManager :=
  match cs with
  | [] => m
  | c :: cs' => calls cs' (call c m)
  end.

(** No [uuid4] collision: every subscribe draws an id that is not
    registered at that moment. *)
Fixpoint ids_fresh (cs : list RegistryCall) (m : WebSocketManager) : Prop :=
  match cs with
  | [] => True
  | c :: cs' =>
      match c with
      | CallSubscribe _ _ _ _ _ new_id _ => dict_get new_id (subscriptions m) = None
      | _ => True
      end /\ ids_fresh cs' (call c m)
  end.

(** Every registered subscription is listed under each of its market and
    token ids. *)
Definition index_complete (m : WebSocketManager) : Prop :=
  forall (id k : string) (sub : Subscription),
    dict_get id (subscriptions m) = Some sub ->
    (In k (items (market_ids sub)) -> id ∈ market_subscriptions m !!! k) /\
    (In k (items (token_ids sub)) -> id ∈ token_subscriptions m !!! k).

(** The registry is keyed by the ids of its subscriptions, without
    repetition. *)
Definition registry_keyed (m : WebSocketManager) : Prop :=
  List.NoDup (dict_keys (subscriptions m)) /\
  Forall (fun kv => fst kv = sub_id (snd kv)) (subscriptions m).

Definition registry_invariant (m : WebSocketManager) : Prop :=
  registry_keyed m /\ index_consistent m /\ index_complete m.

(** The attributes of a subscription that routing reads. *)
Definition same_identity (s s' : Subscription) : Prop :=
  sub_id s' = sub_id s /\ sub_type s' = sub_type s /\
  sub_channel s' = sub_channel s /\ market_ids s' = market_ids s /\
  token_ids s' = token_ids s /\ callback_type s' = callback_type s /\
  created_at s' = created_at s.

(** Everything but the registry and the two event counters. *)
Definition same_connection (m m' : WebSocketManager) : Prop :=
  clob_ws m' = clob_ws m /\ realtime_ws m' = realtime_ws m /\
  clob_connected m' = clob_connected m /\
  realtime_connected m' = realtime_connected m /\
  authenticated m' = authenticated m /\
  market_subscriptions m' = market_subscriptions m /\
  token_subscriptions m' = token_subscriptions m /\
  reconnect_attempts m' = reconnect_attempts m /\
  reconnect_count m' = reconnect_count m /\
  connection_errors m' = connection_errors m.

(** The events the five typed handlers are called with. *)
Inductive TypedEvent : Type :=
| EvPriceChange (event : PriceChangeEvent)
| EvOrderbook (event : OrderbookUpdate)
| EvOrder (event : OrderUpdate)
| EvTrade (event : TradeUpdate)
| EvResolution (event : MarketResolutionEvent).

Definition handle_typed (ev : TypedEvent) (now : datetime) (m : WebSocketManager)
    : WebSocketManager * list Delivery :=
  match ev with
  | EvPriceChange event => _handle_price_change (Some event) now m
  | EvOrderbook event => _handle_orderbook_update (Some event) now m
  | EvOrder event => _handle_order_update (Some event) now m
  | EvTrade event => _handle_trade_update (Some event) now m
  | EvResolution event => _handle_market_resolution (Some event) now m
  end.

(** The subscriptions a typed handler looks for. *)
Definition routed_to (ev : TypedEvent) (sub : Subscription) : bool :=
  match ev with
  | EvPriceChange event =>
      subscription_matches PRICE_CHANGE (pc_market event) (Some (pc_asset_id event)) sub
  | EvOrderbook event =>
      subscription_matches AGG_ORDERBOOK None (Some (ob_asset_id event)) sub
  | EvOrder event => subscription_matches ORDER (ou_market_id event) None sub
  | EvTrade event => subscription_matches TRADE (Some (tu_market_id event)) None sub
  | EvResolution event =>
      subscription_matches MARKET_RESOLVED (Some (mr_market_id event)) None sub
  end.


(** The callback invocations a typed handler makes for one matching
    subscription. *)
Definition typed_calls (m : WebSocketManager) (ev : TypedEvent) (sub : Subscription)
    : list Call :=
  match ev with
  | EvPriceChange event => price_change_calls m event sub
  | EvOrderbook event => orderbook_calls m event sub
  | EvOrder event => order_calls m event sub
  | EvTrade event => trade_calls m event sub
  | EvResolution event => resolution_calls m event sub
  end.

(** The registry with the entries satisfying [p] touched at [now]. *)
Definition touch_where (p : Subscription -> bool) (now : datetime)
    (d : list (string * Subscription)) : list (string * Subscription) :=
  List.map (fun kv => if p (snd kv) then (fst kv, touch now (snd kv)) else kv) d.

(** One entry of the registry before and after some events: same key, same
    identity, and a counter that has not gone down. *)
Definition entry_evolved (kv kv' : string * Subscription) : Prop :=
  fst kv' = fst kv /\ same_identity (snd kv) (snd kv') /\
  (events_received (snd kv) <= events_received (snd kv'))%Z.

(** How many of the frames carry the discriminator [name]. *)
Definition frames_named (name : string) (frames : list (Message * datetime)) : nat :=
  length (List.filter
            (fun frame => bool_decide (discriminator (fst frame) = Some name)) frames).

Definition frames_counted (frames : list (Message * datetime)) : nat :=
  length (List.filter
            (fun frame => bool_decide (discriminator (fst frame) <> None)) frames).

End WebSocketStatus.

(** * The real-time tools ([tools/realtime.py])

    The tool layer over the manager.  A tool call carries the [arguments]
    dict, of which the handlers read five keys; a reply is the one
    [TextContent] the handler returns, kept here as the template it was
    formatted from together with the values formatted into it (an exception
    [e] stands for [str(e)]).  [new_id] and [now] are, as for [subscribe],
    the readings of [uuid4] and [datetime.now()] of the call. *)

Module RealtimeTools.

Import Py WebSocket WebSocketStatus.
Local Open Scope string_scope.
Local Open Scope list_scope.

Record ToolArguments : Type := {
  arg_market_ids : option (list string);
  arg_token_ids : option (list string);
  arg_depth : option Z;
  arg_callback_type : option string;
  arg_subscription_id : option string
}.

(** One entry of [get_tools]: the tool's name and the [required] list of its
    input schema. *)
Record Tool : Type := {
  tool_name : string;
  tool_required : list string
}.

Definition get_tools : list Tool :=
  [ {| tool_name := "subscribe_market_prices"; tool_required := ["market_ids"] |};
    {| tool_name := "subscribe_orderbook_updates"; tool_required := ["token_ids"] |};
    {| tool_name := "subscribe_user_orders"; tool_required := [] |};
    {| tool_name := "subscribe_user_trades"; tool_required := [] |};
    {| tool_name := "subscribe_market_resolution"; tool_required := ["market_ids"] |};
    {| tool_name := "get_realtime_status"; tool_required := [] |};
    {| tool_name := "unsubscribe_realtime"; tool_required := ["subscription_id"] |} ].

(** One subscription of the status text. *)
Record StatusLine : Type := {
  sl_id_prefix : string;
  sl_type : string;
  sl_channel : string;
  sl_events : Z;
  sl_created : datetime;
  sl_last_event : option datetime
}.

Record StatusReport : Type := {
  sr_clob : string;
  sr_realtime : string;
  sr_total : nat;
  sr_lines : list StatusLine;
  sr_total_events : nat;
  sr_connection_errors : nat;
  sr_reconnects : nat;
  sr_events_by_type : gmap string nat;
  sr_background : string
}.

Inductive Reply : Type :=
| NotInitialized                 (* Error: WebSocket manager not initialized. ... *)
| UnknownTool (name : string)    (* Error: Unknown tool '<name>' *)
| ToolError (e : exn)            (* Error: <e> *)
| Required (field : string)      (* Error: <field> required *)
| PriceSubscriptionCreated (subscription_id : string) (markets : nat)
    (callback_type : string)
| OrderbookSubscriptionCreated (subscription_id : string) (tokens : nat) (depth : Z)
    (callback_type : string)
| UserOrderSubscriptionCreated (subscription_id : string) (scope : option nat)
    (callback_type : string)
| UserTradeSubscriptionCreated (subscription_id : string) (scope : option nat)
    (callback_type : string)
| ResolutionSubscriptionCreated (subscription_id : string) (markets : nat)
    (callback_type : string)
| SubscribeFailed (what : string) (e : exn)     (* Error subscribing to <what>: <e> *)
| AuthenticationRequired (what : string) (e : exn)
                                 (* Authentication required: <e> ... User <what>
                                    subscriptions require CLOB API credentials. *)
| Unsubscribed (subscription_id : string)
| SubscriptionNotFound (subscription_id : string)
| UnsubscribeFailed (e : exn)    (* Error unsubscribing: <e> *)
| StatusText (report : StatusReport)
| StatusFailed (e : exn).        (* Error getting status: <e> *)

(** [set_websocket_manager]: the module's global is rebound. *)
Definition set_websocket_manager (manager : WebSocketManager)
    (global : option WebSocketManager) : option WebSocketManager :=
  Some manager.

(** [f"{len(market_ids)} specific markets" if market_ids else "all markets"]. *)
Definition market_filter (market_ids : option (list string)) : option nat :=
  if truthy_list market_ids then Some (length (items market_ids)) else None.

Definition _subscribe_market_prices (new_id : string) (now : datetime)
    (arguments : ToolArguments) (m : WebSocketManager)
    : WebSocketManager * outcome Reply :=
  let market_ids := default [] (arg_market_ids arguments) in
  let callback_type := default "notification" (arg_callback_type arguments) in
  if negb (truthy_list (Some market_ids)) then (m, Returned (Required "market_ids"))
  else
    let (m', o) := subscribe PRICE_CHANGE CLOB_MARKET (Some market_ids) None
                     callback_type new_id now m in
    match o with
    | Returned subscription_id =>
        (m', Returned (PriceSubscriptionCreated subscription_id (length market_ids)
                         callback_type))
    | Raised e => (m', Returned (SubscribeFailed "market prices" e))
    | Pending => (m', Pending)
    end.

Definition _subscribe_orderbook_updates (new_id : string) (now : datetime)
    (arguments : ToolArguments) (m : WebSocketManager)
    : WebSocketManager * outcome Reply :=
  let token_ids := default [] (arg_token_ids arguments) in
  let depth := default 10%Z (arg_depth arguments) in
  let callback_type := default "notification" (arg_callback_type arguments) in
  if negb (truthy_list (Some token_ids)) then (m, Returned (Required "token_ids"))
  else
    let (m', o) := subscribe AGG_ORDERBOOK CLOB_MARKET None (Some token_ids)
                     callback_type new_id now m in
    match o with
    | Returned subscription_id =>
        (m', Returned (OrderbookSubscriptionCreated subscription_id (length token_ids)
                         depth callback_type))
    | Raised e => (m', Returned (SubscribeFailed "orderbook updates" e))
    | Pending => (m', Pending)
    end.

Definition _subscribe_user_orders (new_id : string) (now : datetime)
    (arguments : ToolArguments) (m : WebSocketManager)
    : WebSocketManager * outcome Reply :=
  let market_ids := arg_market_ids arguments in
  let callback_type := default "notification" (arg_callback_type arguments) in
  let (m', o) := subscribe ORDER CLOB_USER market_ids None callback_type new_id now m in
  match o with
  | Returned subscription_id =>
      (m', Returned (UserOrderSubscriptionCreated subscription_id
                       (market_filter market_ids) callback_type))
  | Raised (RuntimeError msg) =>
      (m', Returned (AuthenticationRequired "order" (RuntimeError msg)))
  | Raised e => (m', Returned (SubscribeFailed "user orders" e))
  | Pending => (m', Pending)
  end.

Definition _subscribe_user_trades (new_id : string) (now : datetime)
    (arguments : ToolArguments) (m : WebSocketManager)
    : WebSocketManager * outcome Reply :=
  let market_ids := arg_market_ids arguments in
  let callback_type := default "notification" (arg_callback_type arguments) in
  let (m', o) := subscribe TRADE CLOB_USER market_ids None callback_type new_id now m in
  match o with
  | Returned subscription_id =>
      (m', Returned (UserTradeSubscriptionCreated subscription_id
                       (market_filter market_ids) callback_type))
  | Raised (RuntimeError msg) =>
      (m', Returned (AuthenticationRequired "trade" (RuntimeError msg)))
  | Raised e => (m', Returned (SubscribeFailed "user trades" e))
  | Pending => (m', Pending)
  end.

Definition _subscribe_market_resolution (new_id : string) (now : datetime)
    (arguments : ToolArguments) (m : WebSocketManager)
    : WebSocketManager * outcome Reply :=
  let market_ids := default [] (arg_market_ids arguments) in
  let callback_type := default "notification" (arg_callback_type arguments) in
  if negb (truthy_list (Some market_ids)) then (m, Returned (Required "market_ids"))
  else
    let (m', o) := subscribe MARKET_RESOLVED CLOB_MARKET (Some market_ids) None
                     callback_type new_id now m in
    match o with
    | Returned subscription_id =>
        (m', Returned (ResolutionSubscriptionCreated subscription_id (length market_ids)
                         callback_type))
    | Raised e => (m', Returned (SubscribeFailed "market resolution" e))
    | Pending => (m', Pending)
    end.

Definition status_line (row : SubscriptionRow) : StatusLine :=
  {| sl_id_prefix := String.substring 0 8 (row_id row);
     sl_type := row_type row;
     sl_channel := row_channel row;
     sl_events := row_events_received row;
     sl_created := row_created_at row;
     sl_last_event := row_last_event row |}.

(** [_get_realtime_status]; the two flags are those of the background task
    that [get_status] reports.  The per-type lines are those with a positive
    count. *)
Definition _get_realtime_status (should_run task_exists : bool)
    (arguments : ToolArguments) (m : WebSocketManager)
    : WebSocketManager * outcome Reply :=
  let status := get_status should_run task_exists m in
  let clob_status :=
    if st_clob_authenticated status then "CONNECTED & AUTHENTICATED"
    else if st_clob_connected status then "CONNECTED (no auth)" else "DISCONNECTED" in
  let realtime_status :=
    if st_realtime_connected status then "CONNECTED" else "DISCONNECTED" in
  (m, Returned (StatusText
        {| sr_clob := clob_status;
           sr_realtime := realtime_status;
           sr_total := st_total status;
           sr_lines := List.map status_line (st_active status);
           sr_total_events := st_total_events status;
           sr_connection_errors := st_connection_errors status;
           sr_reconnects := st_reconnect_count status;
           sr_events_by_type :=
             filter (fun kv => (0 < snd kv)%nat) (st_events_by_type status);
           sr_background := if st_running status then "RUNNING" else "STOPPED" |})).

Definition _unsubscribe_realtime (arguments : ToolArguments) (m : WebSocketManager)
    : WebSocketManager * outcome Reply :=
  let subscription_id := arg_subscription_id arguments in
  if negb (truthy_str subscription_id) then (m, Returned (Required "subscription_id"))
  else
    let id := default "" subscription_id in
    let (m', o) := unsubscribe id m in
    match o with
    | Returned true => (m', Returned (Unsubscribed id))
    | Returned false => (m', Returned (SubscriptionNotFound id))
    | Raised e => (m', Returned (UnsubscribeFailed e))
    | Pending => (m', Pending)
    end.

(** What one call reads from its environment. *)
Record Environment : Type := {
  env_new_id : string;
  env_now : datetime;
  env_should_run : bool;
  env_task_exists : bool
}.

Definition dispatch (env : Environment) (name : string) (arguments : ToolArguments)
    (m : WebSocketManager) : WebSocketManager * outcome Reply :=
  if String.eqb name "subscribe_market_prices" then
    _subscribe_market_prices (env_new_id env) (env_now env) arguments m
  else if String.eqb name "subscribe_orderbook_updates" then
    _subscribe_orderbook_updates (env_new_id env) (env_now env) arguments m
  else if String.eqb name "subscribe_user_orders" then
    _subscribe_user_orders (env_new_id env) (env_now env) arguments m
  else if String.eqb name "subscribe_user_trades" then
    _subscribe_user_trades (env_new_id env) (env_now env) arguments m
  else if String.eqb name "subscribe_market_resolution" then
    _subscribe_market_resolution (env_new_id env) (env_now env) arguments m
  else if String.eqb name "get_realtime_status" then
    _get_realtime_status (env_should_run env) (env_task_exists env) arguments m
  else if String.eqb name "unsubscribe_realtime" then
    _unsubscribe_realtime arguments m
  else (m, Returned (UnknownTool name)).

(** [handle_tool_call] over the module's global manager: the body of the
    [try] is [dispatch], and whatever it raises becomes a reply. *)
Definition handle_tool_call (env : Environment) (name : string)
    (arguments : ToolArguments) (global : option WebSocketManager)
    : option WebSocketManager * outcome Reply :=
  match global with
  | None => (None, Returned NotInitialized)
  | Some m =>
      let (m', o) := dispatch env name arguments m in
      (Some m', match o with
                | Raised e => Returned (ToolError e)
                | _ => o
                end)
  end.

(** The arguments dict with every key absent. *)
Definition no_arguments : ToolArguments :=
  {| arg_market_ids := None; arg_token_ids := None; arg_depth := None;
     arg_callback_type := None; arg_subscription_id := None |}.

(** Whether the dict gives a truthy value for a key. *)
Definition provides (field : string) (arguments : ToolArguments) : bool :=
  if String.eqb field "market_ids" then truthy_list (arg_market_ids arguments)
  else if String.eqb field "token_ids" then truthy_list (arg_token_ids arguments)
  else if String.eqb field "subscription_id" then
    truthy_str (arg_subscription_id arguments)
  else if String.eqb field "callback_type" then
    truthy_str (arg_callback_type arguments)
  else match arg_depth arguments with Some d => negb (d =? 0)%Z | None => false end.

(** The replies that report a new subscription, with the id they give. *)
Definition created_id (r : Reply) : option string :=
  match r with
  | PriceSubscriptionCreated id _ _ | OrderbookSubscriptionCreated id _ _ _
  | UserOrderSubscriptionCreated id _ _ | UserTradeSubscriptionCreated id _ _
  | ResolutionSubscriptionCreated id _ _ => Some id
  | _ => None
  end.

(** The replies a handler makes itself, as opposed to those of the
    dispatcher. *)
Definition handler_reply (r : Reply) : Prop :=
  match r with
  | NotInitialized | UnknownTool _ | ToolError _ => False
  | _ => True
  end.

(** A call's environment, for the examples. *)
Definition demo_env : Environment :=
  {| env_new_id := "s9"; env_now := 7%Z; env_should_run := true;
     env_task_exists := true |}.

Definition price_arguments : ToolArguments :=
  {| arg_market_ids := Some ["M9"]; arg_token_ids := None; arg_depth := None;
     arg_callback_type := None; arg_subscription_id := None |}.

(** The arguments of [unsubscribe_realtime] for a subscription id. *)
Definition unsubscribe_arguments (id : string) : ToolArguments :=
  {| arg_market_ids := None; arg_token_ids := None; arg_depth := None;
     arg_callback_type := None; arg_subscription_id := Some id |}.

End RealtimeTools.

(* ------------------------------------------------------------------ *)

(** * Properties *)

Module RateLimitFacts.
Import RateLimit.
Local Open Scope Q_scope.

Lemma inject_Z_nonneg (n : Z) : (0 <= n)%Z -> 0 <= inject_Z n.
Proof. intros H. change 0 with (inject_Z 0). rewrite <- Zle_Qle. exact H. Qed.

Lemma Qle_bool_false (x y : Q) : Qle_bool x y = false -> y < x.
Proof.
  intros H. apply Qnot_le_lt. intros Hle.
  apply Qle_bool_iff in Hle. congruence.
Qed.

Lemma Qmin_cases (x y : Q) :
  (Qmin x y == x /\ x <= y) \/ (Qmin x y == y /\ y <= x).
Proof.
  destruct (Q.min_spec x y) as [[Hlt Heq] | [Hle Heq]].
  - left. split; [exact Heq | lra].
  - right. split; [exact Heq | exact Hle].
Qed.

Lemma Qmax_floor (x y : Q) : y <= Qmax x y.
Proof. apply Q.le_max_r. Qed.

Lemma in_window_true (a T t : Q) : in_window a T t = true -> a <= t /\ t <= a + T.
Proof.
  unfold in_window. intros H. apply andb_prop in H as [H1 H2].
  split; apply Qle_bool_iff; assumption.
Qed.

(** The refill never raises the count above the capacity, and keeps it
    non-negative when time does not run backwards. *)
Lemma refill_within (c : Z) (r k l now : Q) :
  (0 <= c)%Z -> 0 <= r -> l <= now -> within_capacity c k ->
  within_capacity c (Qmin (inject_Z c) (k + (now - l) * r)).
Proof.
  intros Hc Hr Hl [Hk0 Hkc]. apply inject_Z_nonneg in Hc.
  assert (0 <= (now - l) * r) by (apply Qmult_le_0_compat; lra).
  unfold within_capacity.
  destruct (Qmin_cases (inject_Z c) (k + (now - l) * r)) as [[He Hle] | [He Hle]];
    rewrite He; lra.
Qed.

Section Coherent.
Variable c : Z.
Variable r : Q.
Hypothesis c_nonneg : (0 <= c)%Z.
Hypothesis r_nonneg : 0 <= r.

Lemma coherent_head_bounds (k l : Q) (it : Iteration) (log : list Iteration) :
  within_capacity c k -> (0 <= it_request it)%Z ->
  coherent c r k l (it :: log) ->
  within_capacity c (it_refilled it) /\ within_capacity c (it_tokens it) /\
  it_tokens it <= it_refilled it /\
  it_refilled it <= k + (it_time it - l) * r.
Proof.
  intros Hk Hn (Hl & Href & Hg & _).
  pose proof (refill_within c r k l (it_time it) c_nonneg r_nonneg Hl Hk) as [Hr0 Hrc].
  apply inject_Z_nonneg in Hn.
  assert (Hup : it_refilled it <= k + (it_time it - l) * r).
  { rewrite Href. apply Q.le_min_r. }
  unfold within_capacity.
  destruct (it_granted it).
  - destruct Hg as [Hle Heq]. rewrite Heq, Href. rewrite Href in Hle.
    repeat split; lra.
  - rewrite Hg, Href. repeat split; lra.
Qed.


(** Passes after the window has closed grant nothing inside it. *)
Lemma granted_after_window (a T : Q) (log : list Iteration) : forall k l,
  a + T < l -> coherent c r k l log -> granted_in_window a T log == 0.
Proof.
  induction log as [| it log IH]; intros k l Hlate Hco; simpl; [reflexivity |].
  destruct Hco as (Hl & _ & _ & Hco).
  rewrite (IH (it_tokens it) (it_time it)); [| lra | exact Hco].
  destruct (it_granted it); simpl; [| lra].
  destruct (in_window a T (it_time it)) eqn:Hw; [| lra].
  apply in_window_true in Hw. lra.
Qed.

(** From a count [k] at time [l], no more than [k + r * (u - l)] can be
    granted up to time [u]. *)
Lemma granted_until (a T : Q) (log : list Iteration) : forall k l,
  within_capacity c k -> l <= a + T ->
  Forall (fun it => (0 <= it_request it)%Z) log ->
  coherent c r k l log ->
  granted_in_window a T log <= k + r * (a + T - l).
Proof.
  induction log as [| it log IH]; intros k l Hk Hl Hreq Hco; simpl.
  - destruct Hk as [Hk0 _].
    assert (0 <= r * (a + T - l)) by (apply Qmult_le_0_compat; lra). lra.
  - inversion Hreq as [| ? ? Hn Hreq']; subst.
    destruct (coherent_head_bounds k l it log Hk Hn Hco) as (Hr & Ht & Hle & Hup).
    pose proof Hco as (Htime & Href & Hg & Hco').
    destruct (Qlt_le_dec (a + T) (it_time it)) as [Hout | Hin].
    + rewrite (granted_after_window a T log _ _ Hout Hco').
      assert (Hz : (if it_granted it && in_window a T (it_time it)
                    then inject_Z (it_request it) else 0) == 0).
      { destruct (it_granted it); simpl; [| reflexivity].
        destruct (in_window a T (it_time it)) eqn:Hw; [| reflexivity].
        apply in_window_true in Hw. lra. }
      rewrite Hz. destruct Hk as [Hk0 _].
      assert (0 <= r * (a + T - l)) by (apply Qmult_le_0_compat; lra). lra.
    + specialize (IH (it_tokens it) (it_time it) Ht Hin Hreq' Hco').
      apply inject_Z_nonneg in Hn.
      destruct (it_granted it) eqn:Hgr; simpl.
      * destruct Hg as [_ Heq].
        destruct (in_window a T (it_time it)); lra.
      * lra.
Qed.

(** A pass can be replayed from the state right after its own refill. *)
Lemma coherent_after_refill (k l : Q) (it : Iteration) (log : list Iteration) :
  within_capacity c k ->
  coherent c r k l (it :: log) ->
  coherent c r (it_refilled it) (it_time it) (it :: log).
Proof.
  intros Hk (Hl & Href & Hg & Hco).
  pose proof (refill_within c r k l (it_time it) c_nonneg r_nonneg Hl Hk) as [_ Hrc].
  rewrite <- Href in Hrc.
  simpl. repeat split; try assumption; [lra |].
  destruct (Qmin_cases (inject_Z c)
              (it_refilled it + (it_time it - it_time it) * r)) as [[He Hle] | [He Hle]];
    rewrite He; lra.
Qed.

(** The conservation bound: over any window of length [T] at most
    [c + r * T] tokens are granted. *)
Lemma granted_window_bound (a T : Q) (log : list Iteration) : forall k l,
  0 <= T -> within_capacity c k ->
  Forall (fun it => (0 <= it_request it)%Z) log ->
  coherent c r k l log ->
  granted_in_window a T log <= inject_Z c + r * T.
Proof.
  induction log as [| it log IH]; intros k l HT Hk Hreq Hco.
  - simpl. apply inject_Z_nonneg in c_nonneg.
    assert (0 <= r * T) by (apply Qmult_le_0_compat; lra). lra.
  - inversion Hreq as [| ? ? Hn Hreq']; subst.
    destruct (coherent_head_bounds k l it log Hk Hn Hco) as (Hr & Ht & Hle & Hup).
    destruct (Qlt_le_dec (it_time it) a) as [Hbefore | Hfrom].
    + simpl. destruct Hco as (_ & _ & _ & Hco').
      specialize (IH _ _ HT Ht Hreq' Hco').
      assert (Hz : (if it_granted it && in_window a T (it_time it)
                    then inject_Z (it_request it) else 0) == 0).
      { destruct (it_granted it); simpl; [| reflexivity].
        destruct (in_window a T (it_time it)) eqn:Hw; [| reflexivity].
        apply in_window_true in Hw. lra. }
      rewrite Hz. lra.
    + pose proof (coherent_after_refill k l it log Hk Hco) as Hco2.
      destruct (Qlt_le_dec (a + T) (it_time it)) as [Hout | Hin].
      * rewrite (granted_after_window a T (it :: log) _ _ Hout Hco2).
        apply inject_Z_nonneg in c_nonneg.
        assert (0 <= r * T) by (apply Qmult_le_0_compat; lra). lra.
      * pose proof (granted_until a T (it :: log) _ _ Hr Hin Hreq Hco2) as Hb.
        destruct Hr as [_ Hrc].
        assert (r * (a + T - it_time it) <= r * T).
        { rewrite !(Qmult_comm r). apply Qmult_le_compat_r; lra. }
        lra.
Qed.
End Coherent.

Ltac close_pass :=
  repeat split; try reflexivity; try lra; try assumption;
  try (repeat constructor; fail).

Lemma sleep_time_positive (x : Q) : 0 < Qmax x (1 # 100).
Proof. pose proof (Qmax_floor x (1 # 100)). lra. Qed.

(** The loop of [acquire] only makes passes the bucket allows, keeps the
    configuration, and leaves [last_refill] no later than the clock. *)
Lemma acquire_loop_coherent (overshoot : list Q) (n : Z) :
  forall (now : Q) (b : TokenBucket) (w : Q) (rest : list Iteration),
  last_refill b <= now ->
  Forall (fun late => 0 <= late) overshoot ->
  let res := acquire_loop overshoot n now b w in
  max_tokens (ar_bucket res) = max_tokens b /\
  refill_rate (ar_bucket res) = refill_rate b /\
  last_refill (ar_bucket res) <= ar_now res /\
  Forall (fun it => it_request it = n) (ar_log res) /\
  (coherent (max_tokens b) (refill_rate b)
     (tokens (ar_bucket res)) (last_refill (ar_bucket res)) rest ->
   coherent (max_tokens b) (refill_rate b)
     (tokens b) (last_refill b) (ar_log res ++ rest)).
Proof.
  induction overshoot as [| late overshoot IH]; intros now b w rest Hl Hov;
    cbv zeta; simpl.
  - destruct (Qle_bool (inject_Z n) _) eqn:Hle; simpl;
      [apply Qle_bool_iff in Hle; simpl in Hle |
       destruct (Qeq_bool (refill_rate b) 0); simpl]; close_pass.
  - destruct (Qle_bool (inject_Z n) _) eqn:Hle; simpl.
    + apply Qle_bool_iff in Hle. simpl in Hle. close_pass.
    + destruct (Qeq_bool (refill_rate b) 0); simpl; [close_pass |].
      inversion Hov as [| ? ? Hlate Hov']; subst.
      match goal with
      | |- context [acquire_loop overshoot n ?t ?b1 ?w1] =>
          specialize (IH t b1 w1 rest)
      end.
      cbv zeta in IH. simpl in IH.
      match type of IH with
      | ?A -> _ =>
          assert (Hnext : A)
            by (pose proof (sleep_time_positive
                  ((inject_Z n - Qmin (inject_Z (max_tokens b))
                      (tokens b + (now - last_refill b) * refill_rate b))
                   / refill_rate b)); lra)
      end.
      destruct (IH Hnext Hov') as (Hm & Hr & Hlast & Hreq & Hco).
      split; [exact Hm |]. split; [exact Hr |]. split; [exact Hlast |].
      split; [constructor; [reflexivity | exact Hreq] |].
      intros Hrest. split; [exact Hl |]. split; [reflexivity |].
      split; [reflexivity |]. apply Hco. exact Hrest.
Qed.

Lemma acquire_loop_within (overshoot : list Q) (n : Z) :
  forall (now : Q) (b : TokenBucket) (w : Q),
  (0 <= max_tokens b)%Z -> 0 <= refill_rate b -> (0 <= n)%Z ->
  last_refill b <= now ->
  Forall (fun late => 0 <= late) overshoot ->
  within_capacity (max_tokens b) (tokens b) ->
  within_capacity (max_tokens b)
    (tokens (ar_bucket (acquire_loop overshoot n now b w))).
Proof.
  induction overshoot as [| late overshoot IH];
    intros now b w Hc Hr Hn Hl Hov Hk;
    pose proof (refill_within _ _ _ _ now Hc Hr Hl Hk) as Hk1;
    pose proof (inject_Z_nonneg n Hn) as Hn'; simpl.
  - destruct (Qle_bool (inject_Z n) _) eqn:Hle; simpl.
    + apply Qle_bool_iff in Hle. simpl in Hle. destruct Hk1. split; lra.
    + destruct (Qeq_bool (refill_rate b) 0); simpl; exact Hk1.
  - destruct (Qle_bool (inject_Z n) _) eqn:Hle; simpl.
    + apply Qle_bool_iff in Hle. simpl in Hle. destruct Hk1. split; lra.
    + destruct (Qeq_bool (refill_rate b) 0); simpl; [exact Hk1 |].
      inversion Hov as [| ? ? Hlate Hov']; subst.
      apply (IH _ (_refill now b)); simpl; try assumption.
      pose proof (sleep_time_positive
                    ((inject_Z n - Qmin (inject_Z (max_tokens b))
                        (tokens b + (now - last_refill b) * refill_rate b))
                     / refill_rate b)); lra.
Qed.

(** Every run of well-formed actions produces a coherent log and ends
    within capacity. *)
Lemma run_coherent (acts : list Action) : forall (now : Q) (b : TokenBucket),
  (0 <= max_tokens b)%Z -> 0 <= refill_rate b ->
  Forall well_formed_action acts ->
  last_refill b <= now ->
  within_capacity (max_tokens b) (tokens b) ->
  let res := run acts now b in
  max_tokens (rr_bucket res) = max_tokens b /\
  within_capacity (max_tokens b) (tokens (rr_bucket res)) /\
  Forall (fun it => (0 <= it_request it)%Z) (rr_log res) /\
  coherent (max_tokens b) (refill_rate b) (tokens b) (last_refill b) (rr_log res).
Proof.
  induction acts as [| act acts IH]; intros now b Hc Hr Hwf Hl Hk; simpl.
  - repeat split; try apply Hk. constructor.
  - inversion Hwf as [| ? ? Hact Hwf']; subst.
    destruct act as [n overshoot | d]; simpl in Hact.
    + destruct Hact as [Hn Hov]. unfold acquire. simpl.
      pose proof (acquire_loop_within overshoot n now b 0 Hc Hr Hn Hl Hov Hk) as Hk'.
      pose proof (acquire_loop_coherent overshoot n now b 0) as Hloop.
      set (r1 := acquire_loop overshoot n now b 0) in *.
      destruct (Hloop [] Hl Hov) as (Hm & Hrate & Hlast & Hreq & _).
      specialize (IH (ar_now r1) (ar_bucket r1)).
      rewrite Hm, Hrate in IH.
      destruct (IH Hc Hr Hwf' Hlast Hk') as (Hm2 & Hk2 & Hreq2 & Hco2).
      repeat split; try assumption; try apply Hk2.
      * apply Forall_app. split; [| exact Hreq2].
        eapply Forall_impl; [exact Hreq |]. intros it Hit. simpl in Hit. lia.
      * destruct (Hloop (rr_log (run acts (ar_now r1) (ar_bucket r1))) Hl Hov)
          as (_ & _ & _ & _ & Happ).
        apply Happ. exact Hco2.
    + apply IH; try assumption. lra.
Qed.




(** Five immediate requests on a bucket of five tokens refilled at one per
    second wait for nothing; the sixth waits one second. *)
Example sixth_request_waits :
  let b := rr_bucket (run (firstn 5 six_requests) 0 (TokenBucket_init cfg5 0)) in
  List.map it_granted (rr_log (run (firstn 5 six_requests) 0 (TokenBucket_init cfg5 0)))
  = [true; true; true; true; true] /\
  ar_outcome (acquire [0] 1 0 b) = Returned 1 /\
  ar_now (acquire [0] 1 0 b) = 1.
Proof. vm_compute. repeat split; reflexivity. Qed.

(** The first pass whose refill covers the request admits it. *)
Lemma acquire_loop_admits (overshoot : list Q) (n : Z) (now : Q)
    (b : TokenBucket) (w : Q) :
  Qle_bool (inject_Z n) (tokens (_refill now b)) = true ->
  ar_outcome (acquire_loop overshoot n now b w) = Returned w.
Proof.
  intros H. destruct overshoot; simpl in *; rewrite H; reflexivity.
Qed.

(** Progress: a request that fits the capacity is admitted after at most one
    sleep. *)
Lemma acquire_returns (b : TokenBucket) (n : Z) (now late : Q)
    (overshoot : list Q) :
  0 < refill_rate b -> (n <= max_tokens b)%Z -> 0 <= late ->
  exists w : Q, ar_outcome (acquire (late :: overshoot) n now b) = Returned w.
Proof.
  intros Hr Hn Hlate. unfold acquire. simpl.
  destruct (Qle_bool (inject_Z n) _) eqn:Hle; simpl; [eexists; reflexivity |].
  apply Qle_bool_false in Hle.
  assert (Hr0 : ~ refill_rate b == 0) by lra.
  destruct (Qeq_bool (refill_rate b) 0) eqn:Hz; simpl.
  { apply Qeq_bool_iff in Hz. contradiction. }
  eexists. apply acquire_loop_admits. apply Qle_bool_iff. simpl.
  set (k1 := Qmin (inject_Z (max_tokens b))
               (tokens b + (now - last_refill b) * refill_rate b)) in *.
  set (need := (inject_Z n - k1) / refill_rate b).
  pose proof (Q.le_max_l need (1 # 100)) as Hsleep.
  assert (Hgain : inject_Z n - k1 <=
                  (now + Qmax need (1 # 100) + late - now) * refill_rate b).
  { assert (He : inject_Z n - k1 == need * refill_rate b)
      by (unfold need; field; exact Hr0).
    rewrite He. apply Qmult_le_compat_r; lra. }
  assert (HnC : inject_Z n <= inject_Z (max_tokens b)) by (rewrite <- Zle_Qle; exact Hn).
  apply Q.min_glb; lra.
Qed.

(** What [handle_429_error] stores for the category. *)
Lemma handle_429_error_deadline (rl : RateLimiter) (c : CategoryArg)
    (retry_after : option Z) (now : Q) :
  backoff_deadline (lr_limiter (handle_429_error rl c retry_after now)) c =
  now + backoff_time (backoff_deadline rl c) now retry_after.
Proof.
  unfold backoff_deadline, handle_429_error.
  destruct c; simpl; rewrite lookup_insert_eq; reflexivity.
Qed.

Lemma Qlt_bool_true (x y : Q) : Qlt_bool x y = true -> x < y.
Proof.
  unfold Qlt_bool. intros H. apply negb_true_iff in H.
  apply Qle_bool_false. exact H.
Qed.

Lemma Qlt_bool_false (x y : Q) : Qlt_bool x y = false -> y <= x.
Proof.
  unfold Qlt_bool. intros H. apply negb_false_iff in H.
  apply Qle_bool_iff. exact H.
Qed.

Lemma backoff_time_default (current now : Q) :
  (now < current /\ backoff_time current now None == Qmin ((current - now) * 2) 60) \/
  (current <= now /\ backoff_time current now None == 1).
Proof.
  unfold backoff_time. destruct (Qlt_bool now current) eqn:H.
  - left. split; [apply Qlt_bool_true; exact H | reflexivity].
  - right. split; [apply Qlt_bool_false; exact H | reflexivity].
Qed.

Lemma backoff_time_capped (current now : Q) :
  0 < backoff_time current now None <= 60.
Proof.
  destruct (backoff_time_default current now) as [[Hlt He] | [Hle He]];
    rewrite He; [| lra].
  destruct (Qmin_cases ((current - now) * 2) 60) as [[Hm Hc] | [Hm Hc]];
    rewrite Hm; lra.
Qed.

(** C2, as amended: of two successive calls without retry-after at times
    [t1 <= t2], both choose a duration of at most 60; when the second is
    issued before the first backoff expires its duration is twice the time
    that remained, capped at 60, hence at least that remaining time, and at
    least the previous duration provided no more than half of it has elapsed;
    when it is issued after expiry the duration is the base of 1. *)
Theorem backoff_repeat (rl : RateLimiter) (c : CategoryArg) (t1 t2 : Q) :
  let rl1 := lr_limiter (handle_429_error rl c None t1) in
  let d1 := backoff_deadline rl1 c - t1 in
  let rl2 := lr_limiter (handle_429_error rl1 c None t2) in
  let d2 := backoff_deadline rl2 c - t2 in
  t1 <= t2 ->
  d1 <= 60 /\ d2 <= 60 /\
  (t2 < t1 + d1 ->
     d2 == Qmin ((t1 + d1 - t2) * 2) 60 /\
     t1 + d1 - t2 <= d2 /\
     ((t2 - t1) * 2 <= d1 -> d1 <= d2)) /\
  (t1 + d1 <= t2 -> d2 == 1).
Proof.
  intros rl1 d1 rl2 d2 Ht.
  assert (Hd1 : d1 == backoff_time (backoff_deadline rl c) t1 None).
  { unfold d1, rl1. rewrite handle_429_error_deadline. ring. }
  assert (Hdl : backoff_deadline rl1 c == t1 + d1) by (unfold d1; ring).
  assert (Hd2 : d2 == backoff_time (backoff_deadline rl1 c) t2 None).
  { unfold d2, rl2. rewrite handle_429_error_deadline. ring. }
  pose proof (backoff_time_capped (backoff_deadline rl c) t1) as [Hp1 Hc1].
  pose proof (backoff_time_capped (backoff_deadline rl1 c) t2) as [Hp2 Hc2].
  rewrite <- Hd1 in Hp1, Hc1. rewrite <- Hd2 in Hp2, Hc2.
  clearbody d2. clearbody rl2. clearbody d1. clearbody rl1.
  split; [exact Hc1 |]. split; [exact Hc2 |].
  destruct (backoff_time_default (backoff_deadline rl1 c) t2) as [[Hlt He] | [Hle He]];
    rewrite <- Hd2 in He.
  - split; [| intros Hexp; lra].
    intros _.
    assert (Hmin : d2 == Qmin ((t1 + d1 - t2) * 2) 60).
    { rewrite He. apply Q.min_compat; [rewrite Hdl; reflexivity | reflexivity]. }
    split; [exact Hmin |].
    destruct (Qmin_cases ((t1 + d1 - t2) * 2) 60) as [[Hm Hcase] | [Hm Hcase]];
      rewrite Hmin, Hm; (split; [lra | intros Hhalf; lra]).
  - split; [intros Hact; lra | intros _; exact He].
Qed.

Lemma backoff_repeat_witness :
  let rl := RateLimiter_init 0 in
  let c := Category MARKET_DATA in
  let rl1 := lr_limiter (handle_429_error rl c None 0) in
  let d1 := backoff_deadline rl1 c - 0 in
  let rl2 := lr_limiter (handle_429_error rl1 c None (1 # 4)) in
  let d2 := backoff_deadline rl2 c - (1 # 4) in
  d1 <= 60 /\ d2 <= 60 /\
  (1 # 4 < 0 + d1 ->
     d2 == Qmin ((0 + d1 - (1 # 4)) * 2) 60 /\
     0 + d1 - (1 # 4) <= d2 /\
     (((1 # 4) - 0) * 2 <= d1 -> d1 <= d2)) /\
  (0 + d1 <= 1 # 4 -> d2 == 1).
Proof.
  apply (backoff_repeat (RateLimiter_init 0) (Category MARKET_DATA) 0 (1 # 4)).
  discriminate.
Defined.

(** A second rate-limit error shortly before the first backoff expires gets
    a shorter backoff than the first: C2 fails as stated. *)
Lemma backoff_can_shrink :
  let rl := RateLimiter_init 0 in
  let c := Category MARKET_DATA in
  let rl1 := lr_limiter (handle_429_error rl c None 0) in
  let d1 := backoff_deadline rl1 c - 0 in
  let rl2 := lr_limiter (handle_429_error rl1 c None (9 # 10)) in
  let d2 := backoff_deadline rl2 c - (9 # 10) in
  9 # 10 < backoff_deadline rl1 c /\ d1 == 1 /\ d2 == 1 # 5 /\ ~ d1 <= d2.
Proof.
  vm_compute. repeat split; try reflexivity. intros H. apply H. reflexivity.
Qed.

(** A freshly constructed limiter has a bucket for every member of the
    enum; only foreign values are unknown to it. *)
Lemma RateLimiter_init_known (now : Q) (c : EndpointCategory) :
  buckets (RateLimiter_init now) !! Category c =
  Some (TokenBucket_init (RATE_LIMITS c) now).
Proof. destruct c; reflexivity. Qed.

(** C7: [acquire] on a category that has no bucket returns a wait of 0.0
    without raising, sleeping or touching the buckets and the backoff map;
    its only effect is the warning. *)
Theorem unknown_category_fail_open (rl : RateLimiter) (category : CategoryArg)
    (n : Z) (retry_on_429 : bool) (overshoot : list Q) (now : Q) :
  buckets rl !! category = None ->
  let res := limiter_acquire rl category n retry_on_429 overshoot now in
  lr_outcome res = Returned 0 /\
  raises (lr_outcome res) = false /\
  lr_limiter res = rl /\
  lr_now res = now /\
  lr_warnings res = [WarnUnknownCategory category].
Proof.
  intros Hnone res. unfold res, limiter_acquire. rewrite Hnone.
  repeat split; reflexivity.
Qed.

Lemma unknown_category_fail_open_witness :
  let res := limiter_acquire (RateLimiter_init 0) (Foreign "sports") 3 true [] 7 in
  lr_outcome res = Returned 0 /\
  raises (lr_outcome res) = false /\
  lr_limiter res = RateLimiter_init 0 /\
  lr_now res = 7 /\
  lr_warnings res = [WarnUnknownCategory (Foreign "sports")].
Proof.
  apply (unknown_category_fail_open (RateLimiter_init 0) (Foreign "sports")
           3 true [] 7).
  reflexivity.
Defined.

End RateLimitFacts.

Module WebSocketFacts.
Import WebSocket.
Local Open Scope string_scope.
Local Open Scope list_scope.

(** *** The dict *)

Lemma dict_get_del_eq {V : Type} (k : string) (d : list (string * V)) :
  dict_get k (dict_del k d) = None.
Proof.
  induction d as [| [k' v] d IH]; simpl; [reflexivity |].
  destruct (String.eqb k k') eqn:He; simpl; [exact IH |].
  rewrite He. exact IH.
Qed.

Lemma dict_get_set_eq {V : Type} (k : string) (v : V) (d : list (string * V)) :
  dict_get k (dict_set k v d) = Some v.
Proof.
  induction d as [| [k' v'] d IH]; simpl.
  - rewrite String.eqb_refl. reflexivity.
  - destruct (String.eqb k k') eqn:He; simpl.
    + rewrite String.eqb_refl. reflexivity.
    + rewrite He. exact IH.
Qed.

Lemma dict_get_set_ne {V : Type} (k k' : string) (v : V) (d : list (string * V)) :
  k <> k' -> dict_get k' (dict_set k v d) = dict_get k' d.
Proof.
  intros Hne. induction d as [| [k0 v0] d IH]; simpl.
  - apply String.eqb_neq in Hne. rewrite String.eqb_sym, Hne. reflexivity.
  - destruct (String.eqb k k0) eqn:He; simpl.
    + apply String.eqb_eq in He. subst k0.
      apply String.eqb_neq in Hne. rewrite String.eqb_sym, Hne. reflexivity.
    + rewrite IH. reflexivity.
Qed.

Lemma dict_get_del_ne {V : Type} (k k' : string) (d : list (string * V)) :
  k <> k' -> dict_get k' (dict_del k d) = dict_get k' d.
Proof.
  intros Hne. induction d as [| [k0 v0] d IH]; simpl; [reflexivity |].
  destruct (String.eqb k k0) eqn:He; simpl.
  - apply String.eqb_eq in He. subst k0.
    apply String.eqb_neq in Hne. rewrite String.eqb_sym, Hne. exact IH.
  - rewrite IH. reflexivity.
Qed.

Lemma dict_get_keys {V : Type} (k : string) (d : list (string * V)) :
  In k (dict_keys d) <-> dict_get k d <> None.
Proof.
  induction d as [| [k' v] d IH]; simpl; [split; [tauto | congruence] |].
  destruct (String.eqb k k') eqn:He.
  - apply String.eqb_eq in He. subst. split; [congruence | auto].
  - apply String.eqb_neq in He. rewrite <- IH. split; [intros [? | ?] | auto].
    + congruence.
    + assumption.
Qed.

(** *** The indexes *)

Lemma index_discard_lookup (key id k : string) (idx : gmap string (gset string)) :
  index_discard key id idx !!! k =
  if decide (key = k) then (idx !!! k) ∖ {[id]} else idx !!! k.
Proof.
  unfold index_discard. destruct (decide (key = k)) as [-> | Hne].
  - apply lookup_total_insert_eq.
  - apply lookup_total_insert_ne. exact Hne.
Qed.

Lemma index_add_lookup (key id k : string) (idx : gmap string (gset string)) :
  index_add key id idx !!! k =
  if decide (key = k) then (idx !!! k) ∪ {[id]} else idx !!! k.
Proof.
  unfold index_add. destruct (decide (key = k)) as [-> | Hne].
  - apply lookup_total_insert_eq.
  - apply lookup_total_insert_ne. exact Hne.
Qed.

(** Discarding never adds, and removes the id under every visited key. *)
Lemma discard_all_lookup (id : string) (keys : list string) :
  forall (idx : gmap string (gset string)) (k : string),
  let idx' := foldl (fun i key => index_discard key id i) idx keys in
  idx' !!! k ⊆ idx !!! k /\ (In k keys -> id ∉ idx' !!! k).
Proof.
  induction keys as [| key keys IH]; intros idx k; simpl.
  - split; [reflexivity | tauto].
  - destruct (IH (index_discard key id idx) k) as [Hsub Hrem].
    rewrite index_discard_lookup in Hsub. rewrite elem_of_subseteq in Hsub.
    destruct (decide (key = k)) as [-> | Hne].
    + split.
      * apply elem_of_subseteq. intros x Hx.
        apply Hsub in Hx. apply elem_of_difference in Hx. tauto.
      * intros _ Hid. apply Hsub in Hid. apply elem_of_difference in Hid.
        destruct Hid as [_ Hid]. apply Hid. apply elem_of_singleton. reflexivity.
    + split; [apply elem_of_subseteq; exact Hsub |].
      intros [? | Hin]; [congruence | auto].
Qed.

(** Adding never removes, and records the id under every visited key. *)
Lemma add_all_lookup (id : string) (keys : list string) :
  forall (idx : gmap string (gset string)) (k : string),
  let idx' := foldl (fun i key => index_add key id i) idx keys in
  idx !!! k ⊆ idx' !!! k /\ (In k keys -> id ∈ idx' !!! k).
Proof.
  induction keys as [| key keys IH]; intros idx k; simpl.
  - split; [reflexivity | tauto].
  - destruct (IH (index_add key id idx) k) as [Hsub Hadd].
    rewrite index_add_lookup in Hsub. rewrite elem_of_subseteq in Hsub.
    destruct (decide (key = k)) as [-> | Hne].
    + split.
      * apply elem_of_subseteq. intros x Hx. apply Hsub. apply elem_of_union. left. exact Hx.
      * intros _. apply Hsub. apply elem_of_union. right.
        apply elem_of_singleton. reflexivity.
    + split; [apply elem_of_subseteq; exact Hsub |].
      intros [? | Hin]; [congruence | auto].
Qed.

(** An id found in an index after the additions was there before, or is
    the added one under a visited key. *)
Lemma add_all_inv (id : string) (keys : list string) :
  forall (idx : gmap string (gset string)) (k id' : string),
  id' ∈ foldl (fun i key => index_add key id i) idx keys !!! k ->
  id' ∈ idx !!! k \/ (id' = id /\ In k keys).
Proof.
  induction keys as [| key keys IH]; intros idx k id' Hin; simpl in *; [auto |].
  destruct (IH _ _ _ Hin) as [Hold | [-> Hk]]; [| auto].
  rewrite index_add_lookup in Hold.
  destruct (decide (key = k)) as [-> | Hne]; [| auto].
  apply elem_of_union in Hold as [Hold | Hnew]; [auto |].
  apply elem_of_singleton in Hnew. auto.
Qed.

(** *** Sending *)

Lemma _send_subscription_keeps_registry (s : Subscription) (m : WebSocketManager) :
  let m' := fst (_send_subscription s m) in
  subscriptions m' = subscriptions m /\
  market_subscriptions m' = market_subscriptions m /\
  token_subscriptions m' = token_subscriptions m /\
  authenticated m' = authenticated m.
Proof.
  unfold _send_subscription.
  destruct (on_clob (sub_channel s)).
  - destruct (clob_connected m); simpl; [| auto].
    destruct (clob_ws m) as [ws |]; simpl; [| auto].
    destruct (ws_send _ ws); simpl. auto.
  - destruct (realtime_connected m); simpl; [| auto].
    destruct (realtime_ws m) as [ws |]; simpl; [| auto].
    destruct (ws_send _ ws); simpl. auto.
Qed.

Lemma _send_unsubscription_keeps_registry (s : Subscription) (m : WebSocketManager) :
  let m' := fst (_send_unsubscription s m) in
  subscriptions m' = subscriptions m /\
  market_subscriptions m' = market_subscriptions m /\
  token_subscriptions m' = token_subscriptions m.
Proof.
  unfold _send_unsubscription.
  destruct (on_clob (sub_channel s)).
  - destruct (clob_ws m) as [ws |]; simpl; [| auto].
    destruct (closed ws); simpl; [auto |].
    destruct (ws_send _ ws); simpl. auto.
  - destruct (realtime_ws m) as [ws |]; simpl; [| auto].
    destruct (closed ws); simpl; [auto |].
    destruct (ws_send _ ws); simpl. auto.
Qed.

(** What [unsubscribe] does to a registered id, whatever the socket does. *)
Lemma unsubscribe_registered (id : string) (sub : Subscription) (m : WebSocketManager) :
  dict_get id (subscriptions m) = Some sub ->
  let res := unsubscribe id m in
  snd res = Returned true /\
  dict_get id (subscriptions (fst res)) = None /\
  (forall k, market_subscriptions (fst res) !!! k ⊆ market_subscriptions m !!! k) /\
  (forall k, token_subscriptions (fst res) !!! k ⊆ token_subscriptions m !!! k) /\
  (forall k, In k (items (market_ids sub)) -> id ∉ market_subscriptions (fst res) !!! k) /\
  (forall k, In k (items (token_ids sub)) -> id ∉ token_subscriptions (fst res) !!! k).
Proof.
  intros Hget. unfold unsubscribe. rewrite Hget. simpl.
  destruct (_send_unsubscription_keeps_registry sub m) as (Hs & Hm & Ht).
  rewrite Hs, Hm, Ht.
  split; [reflexivity |]. split; [apply dict_get_del_eq |].
  split; [intros k; apply (discard_all_lookup id (items (market_ids sub))) |].
  split; [intros k; apply (discard_all_lookup id (items (token_ids sub))) |].
  split; intros k Hin.
  - apply (discard_all_lookup id (items (market_ids sub))). exact Hin.
  - apply (discard_all_lookup id (items (token_ids sub))). exact Hin.
Qed.

(** The indexes of [flaky_manager] list what its registry holds. *)
Lemma flaky_manager_consistent : index_consistent flaky_manager.
Proof.
  intros id k. simpl. split; intros Hin.
  - destruct (decide (k = "M1")) as [-> | Hne].
    + rewrite lookup_total_singleton_eq in Hin.
      apply elem_of_union in Hin as [Hin | Hin]; apply elem_of_singleton in Hin;
        subst id; eexists; (split; [reflexivity | simpl; auto]).
    + rewrite lookup_total_singleton_ne in Hin by congruence.
      apply elem_of_empty in Hin. contradiction.
  - destruct (decide (k = "T1")) as [-> | Hne].
    + rewrite lookup_total_singleton_eq in Hin. apply elem_of_singleton in Hin.
      subst id. eexists. split; [reflexivity | simpl; auto].
    + rewrite lookup_total_singleton_ne in Hin by congruence.
      apply elem_of_empty in Hin. contradiction.
Qed.

(** C10: for a registered id, [unsubscribe] returns [True] and removes the
    entry from the registry and the id from the index sets of all its market
    and token ids, whatever the socket does with the unsubscribe frame; when
    the indexes list only what the registry holds, the id is left in no index
    set at all. *)
Theorem unsubscribe_local_removal (id : string) (sub : Subscription)
    (m : WebSocketManager) :
  dict_get id (subscriptions m) = Some sub ->
  let res := unsubscribe id m in
  snd res = Returned true /\
  dict_get id (subscriptions (fst res)) = None /\
  ~ In id (dict_keys (subscriptions (fst res))) /\
  (forall k, In k (items (market_ids sub)) -> id ∉ market_subscriptions (fst res) !!! k) /\
  (forall k, In k (items (token_ids sub)) -> id ∉ token_subscriptions (fst res) !!! k) /\
  (index_consistent m ->
   forall k, (id ∉ market_subscriptions (fst res) !!! k) /\
             (id ∉ token_subscriptions (fst res) !!! k)).
Proof.
  intros Hget res.
  destruct (unsubscribe_registered id sub m Hget)
    as (Hret & Hgone & Hmsub & Htsub & Hmrem & Htrem).
  fold res in Hret, Hgone, Hmsub, Htsub, Hmrem, Htrem.
  split; [exact Hret |]. split; [exact Hgone |].
  split; [rewrite dict_get_keys; intros H; apply H; exact Hgone |].
  split; [exact Hmrem |]. split; [exact Htrem |].
  intros Hcons k. destruct (Hcons id k) as [Hm Ht]. split; intros Hin.
  - pose proof Hin as Hin0. apply (Hmsub k) in Hin0.
    destruct (Hm Hin0) as (sub' & Hget' & Hk).
    rewrite Hget in Hget'. injection Hget' as <-.
    exact (Hmrem k Hk Hin).
  - pose proof Hin as Hin0. apply (Htsub k) in Hin0.
    destruct (Ht Hin0) as (sub' & Hget' & Hk).
    rewrite Hget in Hget'. injection Hget' as <-.
    exact (Htrem k Hk Hin).
Qed.

Lemma unsubscribe_local_removal_witness :
  raises (snd (_send_unsubscription book_sub flaky_manager)) = true /\
  let res := unsubscribe "s1" flaky_manager in
  snd res = Returned true /\
  dict_get "s1" (subscriptions (fst res)) = None /\
  ~ In "s1" (dict_keys (subscriptions (fst res))) /\
  forall k, ("s1" ∉ market_subscriptions (fst res) !!! k) /\
            ("s1" ∉ token_subscriptions (fst res) !!! k).
Proof.
  split; [reflexivity |].
  destruct (unsubscribe_local_removal "s1" book_sub flaky_manager eq_refl)
    as (Hret & Hgone & Hkeys & _ & _ & Hall).
  split; [exact Hret |]. split; [exact Hgone |]. split; [exact Hkeys |].
  exact (Hall flaky_manager_consistent).
Defined.

(** C6: [unsubscribe] never raises; on a registered id it returns [True]
    and a second call returns [False] and changes nothing; on an id that is
    not registered it returns [False] and changes nothing. *)
Theorem unsubscribe_idempotent (id : string) (m : WebSocketManager) :
  let first := unsubscribe id m in
  let second := unsubscribe id (fst first) in
  raises (snd first) = false /\ raises (snd second) = false /\
  (dict_get id (subscriptions m) <> None ->
   snd first = Returned true /\ snd second = Returned false /\
   fst second = fst first) /\
  (dict_get id (subscriptions m) = None ->
   snd first = Returned false /\ fst first = m).
Proof.
  intros first second.
  assert (Hnone : forall m', dict_get id (subscriptions m') = None ->
                             unsubscribe id m' = (m', Returned false)).
  { intros m' H. unfold unsubscribe. rewrite H. reflexivity. }
  destruct (dict_get id (subscriptions m)) as [sub |] eqn:Hget.
  - destruct (unsubscribe_registered id sub m Hget) as (Hret & Hgone & _).
    fold first in Hret, Hgone.
    assert (Hsecond : second = (fst first, Returned false)) by (apply Hnone; exact Hgone).
    rewrite Hsecond, Hret. simpl.
    split; [reflexivity |]. split; [reflexivity |].
    split; [intros _; auto | intros H; discriminate H].
  - assert (Hfirst : first = (m, Returned false)) by (apply Hnone; exact Hget).
    assert (Hsecond : second = (m, Returned false)).
    { unfold second. rewrite Hfirst. simpl. apply Hnone. exact Hget. }
    rewrite Hsecond, Hfirst. simpl.
    split; [reflexivity |]. split; [reflexivity |].
    split; [intros H; contradiction | intros _; auto].
Qed.

Lemma unsubscribe_idempotent_witness :
  let first := unsubscribe "s2" demo_manager in
  let second := unsubscribe "s2" (fst first) in
  snd first = Returned true /\ snd second = Returned false /\
  fst second = fst first /\
  unsubscribe "never-issued" demo_manager = (demo_manager, Returned false).
Proof.
  destruct (unsubscribe_idempotent "s2" demo_manager) as (_ & _ & Hreg & _).
  destruct (Hreg ltac:(discriminate)) as (H1 & H2 & H3).
  destruct (unsubscribe_idempotent "never-issued" demo_manager) as (_ & _ & _ & Hnot).
  destruct (Hnot eq_refl) as (H4 & H5).
  split; [exact H1 |]. split; [exact H2 |]. split; [exact H3 |].
  rewrite (surjective_pairing (unsubscribe "never-issued" demo_manager)).
  rewrite H4, H5. reflexivity.
Defined.

Lemma _send_subscription_outcome (s : Subscription) (m m' : WebSocketManager) :
  clob_ws m' = clob_ws m -> realtime_ws m' = realtime_ws m ->
  clob_connected m' = clob_connected m ->
  realtime_connected m' = realtime_connected m ->
  snd (_send_subscription s m') = snd (_send_subscription s m).
Proof.
  intros H1 H2 H3 H4. unfold _send_subscription. rewrite H1, H2, H3, H4.
  destruct (on_clob (sub_channel s)).
  - destruct (clob_connected m); simpl; [| reflexivity].
    destruct (clob_ws m) as [ws |]; simpl; [| reflexivity].
    destruct (ws_send _ ws); reflexivity.
  - destruct (realtime_connected m); simpl; [| reflexivity].
    destruct (realtime_ws m) as [ws |]; simpl; [| reflexivity].
    destruct (ws_send _ ws); reflexivity.
Qed.

(** The state [subscribe] leaves once the authentication guard is passed:
    the registry and the indexes are written before the frame is sent, and
    the outcome is that of the send. *)
Lemma subscribe_state (event_type : EventType) (channel : ChannelType)
    (markets tokens : option (list string)) (mode new_id : string)
    (now : datetime) (m : WebSocketManager) :
  bool_decide (channel = CLOB_USER) && negb (authenticated m) = false ->
  let s := new_subscription event_type channel markets tokens mode new_id now in
  let res := subscribe event_type channel markets tokens mode new_id now m in
  subscriptions (fst res) = dict_set new_id s (subscriptions m) /\
  market_subscriptions (fst res) =
    foldl (fun idx key => index_add key new_id idx) (market_subscriptions m)
          (items markets) /\
  token_subscriptions (fst res) =
    foldl (fun idx key => index_add key new_id idx) (token_subscriptions m)
          (items tokens) /\
  authenticated (fst res) = authenticated m /\
  snd res = match snd (_send_subscription s m) with
            | Returned _ => Returned new_id
            | Raised e => Raised e
            | Pending => Pending
            end.
Proof.
  intros Hguard s res. unfold res, subscribe. rewrite Hguard. fold s.
  set (m3 := set_token_subscriptions _ _).
  pose proof (_send_subscription_keeps_registry s m3) as (Hs & Hm & Ht & Ha).
  pose proof (_send_subscription_outcome s m m3 eq_refl eq_refl eq_refl eq_refl) as Ho.
  destruct (_send_subscription s m3) as [m4 o]. simpl in Hs, Hm, Ht, Ha, Ho.
  rewrite <- Ho.
  destruct o; simpl; rewrite Hs, Hm, Ht, Ha; auto.
Qed.

(** What [subscribe] has stored by the time it sends the frame. *)
Lemma subscribe_stores (event_type : EventType) (channel : ChannelType)
    (markets tokens : option (list string)) (mode new_id : string)
    (now : datetime) (m : WebSocketManager) :
  bool_decide (channel = CLOB_USER) && negb (authenticated m) = false ->
  let s := new_subscription event_type channel markets tokens mode new_id now in
  let res := subscribe event_type channel markets tokens mode new_id now m in
  dict_get new_id (subscriptions (fst res)) = Some s /\
  (forall k, In k (items markets) -> new_id ∈ market_subscriptions (fst res) !!! k) /\
  (forall k, In k (items tokens) -> new_id ∈ token_subscriptions (fst res) !!! k) /\
  snd res = match snd (_send_subscription s m) with
            | Returned _ => Returned new_id
            | Raised e => Raised e
            | Pending => Pending
            end.
Proof.
  intros Hguard s res.
  destruct (subscribe_state event_type channel markets tokens mode new_id now m Hguard)
    as (Hs & Hm & Ht & _ & Ho).
  fold s in Hs, Ho. fold res in Hs, Hm, Ht, Ho.
  rewrite Hs, Hm, Ht.
  split; [apply dict_get_set_eq |].
  split; [intros k Hk; apply (add_all_lookup new_id (items markets)); exact Hk |].
  split; [intros k Hk; apply (add_all_lookup new_id (items tokens)); exact Hk |].
  exact Ho.
Qed.

(** C9: once the authentication guard is passed, [subscribe] has registered
    and indexed the new subscription whatever happens to the frame; when
    sending the frame raises, the same exception reaches the caller. *)
Theorem subscribe_not_atomic (event_type : EventType) (channel : ChannelType)
    (markets tokens : option (list string)) (mode new_id : string)
    (now : datetime) (m : WebSocketManager) :
  (channel = CLOB_USER -> authenticated m = true) ->
  let s := new_subscription event_type channel markets tokens mode new_id now in
  let res := subscribe event_type channel markets tokens mode new_id now m in
  dict_get new_id (subscriptions (fst res)) = Some s /\
  (forall k, In k (items markets) -> new_id ∈ market_subscriptions (fst res) !!! k) /\
  (forall k, In k (items tokens) -> new_id ∈ token_subscriptions (fst res) !!! k) /\
  (forall e, snd (_send_subscription s m) = Raised e -> snd res = Raised e) /\
  ((if on_clob channel then clob_connected m else realtime_connected m) = false ->
   exists msg, snd res = Raised (RuntimeError msg)).
Proof.
  intros Hauth s res.
  assert (Hguard : bool_decide (channel = CLOB_USER) && negb (authenticated m) = false).
  { destruct (bool_decide (channel = CLOB_USER)) eqn:Hc; [| reflexivity].
    apply bool_decide_eq_true in Hc. rewrite (Hauth Hc). reflexivity. }
  destruct (subscribe_stores event_type channel markets tokens mode new_id now m Hguard)
    as (Hreg & Hmk & Htk & Hout).
  fold s in Hreg, Hmk, Htk, Hout. fold res in Hreg, Hmk, Htk, Hout.
  split; [exact Hreg |]. split; [exact Hmk |]. split; [exact Htk |]. split.
  - intros e He. rewrite Hout, He. reflexivity.
  - intros Hdown. rewrite Hout. unfold _send_subscription. simpl.
    destruct (on_clob channel); rewrite Hdown; simpl; eexists; reflexivity.
Qed.

Lemma subscribe_not_atomic_witness :
  let m := disconnect demo_manager in
  let s := new_subscription PRICE_CHANGE CLOB_MARKET (Some ["M9"]) None
             "notification" "s9" 7%Z in
  let res := subscribe PRICE_CHANGE CLOB_MARKET (Some ["M9"]) None
               "notification" "s9" 7%Z m in
  dict_get "s9" (subscriptions (fst res)) = Some s /\
  (forall k, In k (items (Some ["M9"])) -> "s9" ∈ market_subscriptions (fst res) !!! k) /\
  (forall k, In k (items None) -> "s9" ∈ token_subscriptions (fst res) !!! k) /\
  (forall e, snd (_send_subscription s m) = Raised e -> snd res = Raised e) /\
  ((if on_clob CLOB_MARKET then clob_connected m else realtime_connected m) = false ->
   exists msg, snd res = Raised (RuntimeError msg)).
Proof.
  apply (subscribe_not_atomic PRICE_CHANGE CLOB_MARKET (Some ["M9"]) None
           "notification" "s9" 7%Z (disconnect demo_manager)).
  intros H. discriminate H.
Defined.

(** *** Authentication *)

Lemma _authenticate_clob_refused (reply : AuthReply) (m : WebSocketManager) :
  auth_refused reply ->
  snd (_authenticate_clob reply m) = Returned tt /\
  authenticated (fst (_authenticate_clob reply m)) = false.
Proof.
  intros Href. unfold _authenticate_clob.
  destruct (clob_ws m) as [ws |]; [| split; reflexivity].
  destruct (ws_send AuthFrame ws) as [ws' o].
  destruct o as [[] | e |]; try (split; reflexivity).
  destruct Href as [-> | (t & -> & Ht)]; [split; reflexivity |].
  destruct (bool_decide (t = Some "authenticated")) eqn:Hb; [| split; reflexivity].
  apply bool_decide_eq_true in Hb. contradiction.
Qed.

Lemma ws_send_ready (f : Frame) (s : Socket) :
  closed s = false -> drops_after s <> Some O ->
  snd (ws_send f s) = Returned tt.
Proof.
  intros Hc Hd. unfold ws_send. rewrite Hc.
  destruct (drops_after s) as [[| k] |]; [contradiction | reflexivity | reflexivity].
Qed.

Lemma _send_subscription_ready (s : Subscription) (m : WebSocketManager) :
  channel_ready (sub_channel s) m ->
  snd (_send_subscription s m) = Returned tt.
Proof.
  unfold channel_ready, _send_subscription.
  destruct (on_clob (sub_channel s));
    intros (Hconn & ws & Hws & Hc & Hd); rewrite Hconn, Hws; simpl;
    pose proof (ws_send_ready (subscription_frame s) ws Hc Hd) as Hsend;
    destruct (ws_send (subscription_frame s) ws); exact Hsend.
Qed.

(** C8: a handshake that times out or is answered by a failure response
    returns normally with [authenticated] false; in every state where the
    flag is false a subscribe on the user channel raises the authentication
    error at once and changes nothing, while a subscribe on any other channel
    whose socket is up returns the new id and registers the subscription. *)
Theorem failed_auth_blocks_user_channel (reply : AuthReply) (m : WebSocketManager) :
  auth_refused reply ->
  let res := _authenticate_clob reply m in
  snd res = Returned tt /\
  authenticated (fst res) = false /\
  forall m' : WebSocketManager, authenticated m' = false ->
    (forall event_type markets tokens mode new_id now,
       subscribe event_type CLOB_USER markets tokens mode new_id now m'
       = (m', Raised auth_required)) /\
    (forall event_type channel markets tokens mode new_id now,
       channel <> CLOB_USER -> channel_ready channel m' ->
       let res' := subscribe event_type channel markets tokens mode new_id now m' in
       snd res' = Returned new_id /\
       dict_get new_id (subscriptions (fst res')) =
       Some (new_subscription event_type channel markets tokens mode new_id now)).
Proof.
  intros Href res.
  destruct (_authenticate_clob_refused reply m Href) as [Hret Hflag].
  split; [exact Hret |]. split; [exact Hflag |].
  intros m' Hoff. split.
  - intros. unfold subscribe. rewrite Hoff. reflexivity.
  - intros event_type channel markets tokens mode new_id now Hpub Hready res'.
    assert (Hguard : bool_decide (channel = CLOB_USER) && negb (authenticated m') = false).
    { rewrite bool_decide_eq_false_2 by exact Hpub. reflexivity. }
    destruct (subscribe_stores event_type channel markets tokens mode new_id now m' Hguard)
      as (Hreg & _ & _ & Hout).
    fold res' in Hreg, Hout.
    split; [| exact Hreg].
    rewrite Hout.
    rewrite (_send_subscription_ready
               (new_subscription event_type channel markets tokens mode new_id now) m'
               Hready).
    reflexivity.
Qed.

Lemma failed_auth_blocks_user_channel_witness :
  let res := _authenticate_clob ReplyTimeout demo_manager in
  snd res = Returned tt /\
  authenticated (fst res) = false /\
  forall m' : WebSocketManager, authenticated m' = false ->
    (forall event_type markets tokens mode new_id now,
       subscribe event_type CLOB_USER markets tokens mode new_id now m'
       = (m', Raised auth_required)) /\
    (forall event_type channel markets tokens mode new_id now,
       channel <> CLOB_USER -> channel_ready channel m' ->
       let res' := subscribe event_type channel markets tokens mode new_id now m' in
       snd res' = Returned new_id /\
       dict_get new_id (subscriptions (fst res')) =
       Some (new_subscription event_type channel markets tokens mode new_id now)).
Proof.
  apply (failed_auth_blocks_user_channel ReplyTimeout demo_manager).
  left. reflexivity.
Defined.

(** After the failed handshake on [demo_manager] the user channel is closed
    to new subscriptions and the market channel is not. *)
Example failed_auth_demo :
  let m := fst (_authenticate_clob (ReplyJson (Some "error")) demo_manager) in
  snd (subscribe ORDER CLOB_USER None None "notification" "u1" 3%Z m)
  = Raised auth_required /\
  snd (subscribe PRICE_CHANGE CLOB_MARKET (Some ["M2"]) None "log" "p1" 3%Z m)
  = Returned "p1" /\
  snd (subscribe TRADES ACTIVITY None None "log" "a1" 3%Z m) = Returned "a1".
Proof. vm_compute. repeat split; reflexivity. Qed.

(** *** Reconnection *)








(** When the peer drops the new CLOB connection right after the handshake,
    [reconnect] still takes its success path: the counter is reset, the
    failed sends are only logged, and no subscribe frame has gone out on
    that socket. *)
Example reconnect_with_dropped_peer :
  let net := {| clob_link := Opened (Some 1%nat); auth_reply := ReplyTimeout;
                realtime_link := Opened None |} in
  let m' := fst (reconnect net 9 (disconnect demo_manager)) in
  reconnect_attempts m' = O /\
  dict_keys (subscriptions m') = ["s1"; "s2"; "s3"; "s4"] /\
  wire_log (clob_ws m') = [AuthFrame] /\
  wire_log (realtime_ws m') = [subscription_frame activity_sub].
Proof. vm_compute. repeat split; reflexivity. Qed.

(** *** Routing *)

#[local] Arguments contains : simpl never.

Lemma contains_In (x : string) (l : list string) : contains x l = true <-> In x l.
Proof.
  unfold contains. rewrite existsb_exists. split.
  - intros (y & Hin & He). apply String.eqb_eq in He. subst. exact Hin.
  - intros Hin. exists x. split; [exact Hin | apply String.eqb_refl].
Qed.

Lemma truthy_str_false (id : option string) :
  truthy_str id = false <-> id = None \/ id = Some "".
Proof.
  destruct id as [s |]; simpl.
  - rewrite negb_false_iff, String.eqb_eq. split.
    + intros ->. right. reflexivity.
    + intros [H | H]; [discriminate H | injection H; auto].
  - split; auto.
Qed.

(** The guard of one filter in the loop lets the subscription through
    exactly when [filter_passes] holds. *)
Lemma filter_guard (filter : option (list string)) (id : option string) :
  truthy_list filter && truthy_str id
    && negb (contains (default "" id) (items filter)) = false
  <-> filter_passes filter id.
Proof.
  unfold filter_passes.
  destruct filter as [[| x l] |]; simpl; try (split; auto; fail).
  destruct (truthy_str id) eqn:Ht; simpl.
  - rewrite negb_false_iff, contains_In.
    destruct id as [s |]; [| discriminate Ht]. simpl in *.
    apply negb_true_iff in Ht. apply String.eqb_neq in Ht.
    split.
    + intros Hin. right. right. right. right. exists (x :: l), s. auto.
    + intros [H | [H | [H | [H | (l' & y & Hl & Hy & Hin)]]]]; try discriminate.
      * injection H as ->. contradiction.
      * injection Hl as <-. injection Hy as <-. exact Hin.
  - apply truthy_str_false in Ht. split; [intros _ | reflexivity].
    destruct Ht; auto.
Qed.

Lemma subscription_matches_iff (event_type : EventType)
    (market_id token_id : option string) (sub : Subscription) :
  subscription_matches event_type market_id token_id sub = true
  <-> code_matches event_type market_id token_id sub.
Proof.
  unfold subscription_matches, code_matches.
  rewrite <- !filter_guard.
  destruct (bool_decide (sub_type sub = event_type)) eqn:Hty; simpl.
  - apply bool_decide_eq_true in Hty.
    destruct (truthy_list (market_ids sub) && truthy_str market_id
              && negb (contains (default "" market_id) (items (market_ids sub))));
      destruct (truthy_list (token_ids sub) && truthy_str token_id
                && negb (contains (default "" token_id) (items (token_ids sub))));
      simpl; split; try tauto; try discriminate; intros (_ & H1 & H2); discriminate.
  - apply bool_decide_eq_false in Hty. split; [discriminate | tauto].
Qed.

(** C3, as amended: [_find_matching_subscriptions] returns exactly the
    stored subscriptions of the queried type that pass both filters, where a
    filter is passed when the subscription has none (or an empty one), when
    the event carries no (or an empty) id of that kind, or when the event's
    id is in the list; an event for market "M2" is never matched to a
    subscription filtered to "M1" only. *)
Theorem find_matching_exact (m : WebSocketManager) (event_type : EventType)
    (market_id token_id : option string) :
  (forall sub : Subscription,
     In sub (_find_matching_subscriptions m event_type market_id token_id)
     <-> In sub (dict_values (subscriptions m))
         /\ code_matches event_type market_id token_id sub) /\
  (forall sub : Subscription,
     market_ids sub = Some ["M1"] ->
     ~ In sub (_find_matching_subscriptions m event_type (Some "M2") token_id)).
Proof.
  split.
  - intros sub. unfold _find_matching_subscriptions.
    rewrite List.filter_In, subscription_matches_iff. reflexivity.
  - intros sub Hm1 Hin. unfold _find_matching_subscriptions in Hin.
    apply List.filter_In in Hin as [_ Hmatch].
    apply subscription_matches_iff in Hmatch as (_ & Hpass & _).
    rewrite Hm1 in Hpass.
    destruct Hpass as [H | [H | [H | [H | (l & x & Hl & Hx & Hin)]]]];
      try discriminate.
    injection Hl as <-. injection Hx as <-.
    destruct Hin as [H | []]. discriminate H.
Qed.

Lemma find_matching_exact_witness :
  (In price_sub (_find_matching_subscriptions demo_manager PRICE_CHANGE
                   (Some "M1") (Some "T1"))
   <-> In price_sub (dict_values (subscriptions demo_manager))
       /\ code_matches PRICE_CHANGE (Some "M1") (Some "T1") price_sub) /\
  ~ In price_sub (_find_matching_subscriptions demo_manager PRICE_CHANGE
                    (Some "M2") (Some "T1")).
Proof.
  split.
  - apply (proj1 (find_matching_exact demo_manager PRICE_CHANGE
                    (Some "M1") (Some "T1"))).
  - apply (proj2 (find_matching_exact demo_manager PRICE_CHANGE
                    (Some "M1") (Some "T1")) price_sub).
    reflexivity.
Defined.

(** Where the event carries both ids and no filter is an empty list, the
    rule of the code is the rule of the specification. *)
Lemma code_matches_spec (event_type : EventType) (market token : string)
    (sub : Subscription) :
  market <> "" -> token <> "" ->
  market_ids sub <> Some [] -> token_ids sub <> Some [] ->
  code_matches event_type (Some market) (Some token) sub
  <-> spec_matches event_type (Some market) (Some token) sub.
Proof.
  intros Hm Ht Hme Hte. unfold code_matches, spec_matches, filter_passes, spec_filter_passes.
  split; intros (Hty & H1 & H2); (split; [exact Hty |]); split.
  - destruct H1 as [H | [H | [H | [H | H]]]]; auto; try contradiction; try discriminate.
    injection H as H. contradiction.
  - destruct H2 as [H | [H | [H | [H | H]]]]; auto; try contradiction; try discriminate.
    injection H as H. contradiction.
  - destruct H1 as [H | H]; auto 6.
  - destruct H2 as [H | H]; auto 6.
Qed.

(** An order-book event carries no market id, and is matched to a
    subscription filtered to market "M1": C3 fails as stated. *)
Lemma market_filter_skipped_without_market_id :
  In book_sub (_find_matching_subscriptions demo_manager AGG_ORDERBOOK
                 None (Some (ob_asset_id book_event))) /\
  ~ spec_matches AGG_ORDERBOOK None (Some (ob_asset_id book_event)) book_sub.
Proof.
  split.
  - vm_compute. left. reflexivity.
  - intros (_ & [H | (l & x & _ & H & _)] & _); discriminate H.
Qed.

(** *** Delivery *)

Lemma notify_each_deliveries (calls : Subscription -> list Call) (now : datetime)
    (matching : list Subscription) :
  forall (m : WebSocketManager) (acc : list Delivery),
  snd (foldl (fun a sub =>
                (touch_subscription (sub_id sub) now (fst a),
                 snd a ++ List.map (fun c => {| d_subscription := sub_id sub; d_call := c |})
                                   (calls sub)))
             (m, acc) matching)
  = acc ++ flat_map (fun sub =>
                       List.map (fun c => {| d_subscription := sub_id sub; d_call := c |})
                                (calls sub)) matching.
Proof.
  induction matching as [| sub matching IH]; intros m acc; simpl.
  - rewrite app_nil_r. reflexivity.
  - rewrite IH. simpl. rewrite <- app_assoc. reflexivity.
Qed.

(** In [_handle_price_change], with both callbacks configured, a
    subscription in either documented delivery mode gets exactly one call, of
    the kind its mode selects. *)
Lemma price_change_calls_one (m : WebSocketManager) (event : PriceChangeEvent)
    (sub : Subscription) :
  notification_callback m = true -> log_callback m = true ->
  (callback_type sub = "notification" ->
   exists c, price_change_calls m event sub = [c] /\ is_notification c = true) /\
  (callback_type sub = "log" ->
   exists c, price_change_calls m event sub = [c] /\ is_log c = true).
Proof.
  intros Hn Hl. unfold price_change_calls. rewrite Hn, Hl.
  split; intros ->; simpl; eexists; split; reflexivity.
Qed.

(** The other four typed handlers have no branch for the log mode. *)
Lemma log_mode_skipped (m : WebSocketManager) (sub : Subscription) :
  callback_type sub = "log" ->
  (forall event, orderbook_calls m event sub = []) /\
  (forall event, order_calls m event sub = []) /\
  (forall event, trade_calls m event sub = []) /\
  (forall event, resolution_calls m event sub = []).
Proof.
  intros Hlog.
  unfold orderbook_calls, order_calls, trade_calls, resolution_calls.
  rewrite Hlog. simpl. auto.
Qed.

(** C4 at the failing input: both callbacks are configured and the
    order-book frame is routed to the log-mode subscription "s1" (its event
    counter goes up), yet no callback is invoked for it; the price-change
    frame does reach the log callback of the log-mode subscription "s4". *)
Theorem orderbook_log_subscription_unserved :
  let res := handle_message book_message 5%Z demo_manager in
  notification_callback demo_manager = true /\
  log_callback demo_manager = true /\
  callback_type book_sub = "log" /\
  In book_sub (_find_matching_subscriptions demo_manager AGG_ORDERBOOK
                 None (Some (ob_asset_id book_event))) /\
  dict_get "s1" (subscriptions (fst res)) = Some (touch 5%Z book_sub) /\
  deliveries_for "s1" (snd res) = [] /\
  deliveries_for "s4" (snd (handle_message price_message 5%Z demo_manager))
  = [LogPriceChange "M1" (55 # 100)%Q].
Proof.
  vm_compute. repeat split; try reflexivity. left. reflexivity.
Qed.

(** *** The indexes follow the registry *)

Lemma index_consistent_init (credentials notification log : bool) :
  index_consistent (WebSocketManager_init credentials notification log).
Proof.
  intros id k. simpl. rewrite !lookup_total_empty.
  split; intros H; apply elem_of_empty in H; contradiction.
Qed.

Lemma subscribe_keeps_index_consistent (event_type : EventType)
    (channel : ChannelType) (markets tokens : option (list string))
    (mode new_id : string) (now : datetime) (m : WebSocketManager) :
  index_consistent m ->
  dict_get new_id (subscriptions m) = None ->
  index_consistent
    (fst (subscribe event_type channel markets tokens mode new_id now m)).
Proof.
  intros Hcons Hfresh.
  destruct (bool_decide (channel = CLOB_USER) && negb (authenticated m)) eqn:Hguard.
  { unfold subscribe. rewrite Hguard. exact Hcons. }
  destruct (subscribe_state event_type channel markets tokens mode new_id now m Hguard)
    as (Hs & Hm & Ht & _).
  set (s := new_subscription event_type channel markets tokens mode new_id now) in *.
  intros id k. rewrite Hs, Hm, Ht. destruct (Hcons id k) as [Hmk Htk].
  split; intros Hin; apply add_all_inv in Hin as [Hold | [-> Hk]].
  - destruct (Hmk Hold) as (sub & Hget & Hk). exists sub. split; [| exact Hk].
    rewrite dict_get_set_ne; [exact Hget |]. intros ->. congruence.
  - exists s. split; [apply dict_get_set_eq | exact Hk].
  - destruct (Htk Hold) as (sub & Hget & Hk). exists sub. split; [| exact Hk].
    rewrite dict_get_set_ne; [exact Hget |]. intros ->. congruence.
  - exists s. split; [apply dict_get_set_eq | exact Hk].
Qed.

Lemma unsubscribe_keeps_index_consistent (id : string) (m : WebSocketManager) :
  index_consistent m -> index_consistent (fst (unsubscribe id m)).
Proof.
  intros Hcons.
  destruct (dict_get id (subscriptions m)) as [sub |] eqn:Hget.
  - destruct (unsubscribe_registered id sub m Hget)
      as (_ & _ & Hmsub & Htsub & Hmrem & Htrem).
    assert (Hsubs : subscriptions (fst (unsubscribe id m)) =
                    dict_del id (subscriptions m)).
    { unfold unsubscribe. rewrite Hget. simpl.
      destruct (_send_unsubscription_keeps_registry sub m) as (Hs & _).
      rewrite Hs. reflexivity. }
    intros id' k. destruct (Hcons id' k) as [Hmk Htk]. rewrite Hsubs.
    split; intros Hin.
    + pose proof Hin as Hold. apply (Hmsub k) in Hold.
      destruct (Hmk Hold) as (sub' & Hget' & Hk).
      destruct (decide (id = id')) as [<- | Hne].
      * rewrite Hget in Hget'. injection Hget' as <-.
        exfalso. exact (Hmrem k Hk Hin).
      * exists sub'. split; [| exact Hk]. rewrite dict_get_del_ne; assumption.
    + pose proof Hin as Hold. apply (Htsub k) in Hold.
      destruct (Htk Hold) as (sub' & Hget' & Hk).
      destruct (decide (id = id')) as [<- | Hne].
      * rewrite Hget in Hget'. injection Hget' as <-.
        exfalso. exact (Htrem k Hk Hin).
      * exists sub'. split; [| exact Hk]. rewrite dict_get_del_ne; assumption.
  - unfold unsubscribe. rewrite Hget. exact Hcons.
Qed.

(** The authentication flag is only written by the handshake and by
    [disconnect]. *)
Lemma authenticated_persists (m : WebSocketManager) :
  (forall event_type channel markets tokens mode new_id now,
     authenticated (fst (subscribe event_type channel markets tokens mode new_id now m))
     = authenticated m) /\
  (forall id, authenticated (fst (unsubscribe id m)) = authenticated m).
Proof.
  split.
  - intros.
    destruct (bool_decide (channel = CLOB_USER) && negb (authenticated m)) eqn:Hguard.
    + unfold subscribe. rewrite Hguard. reflexivity.
    + apply (subscribe_state event_type channel markets tokens mode new_id now m Hguard).
  - intros id. unfold unsubscribe.
    destruct (dict_get id (subscriptions m)) as [sub |]; [| reflexivity].
    simpl. unfold _send_unsubscription.
    destruct (on_clob (sub_channel sub)).
    + destruct (clob_ws m) as [ws |]; [| reflexivity].
      destruct (closed ws); [reflexivity |]. destruct (ws_send _ ws); reflexivity.
    + destruct (realtime_ws m) as [ws |]; [| reflexivity].
      destruct (closed ws); [reflexivity |]. destruct (ws_send _ ws); reflexivity.
Qed.

End WebSocketFacts.

(** * Further properties of the rate limiter *)

Module RateLimitMore.
Import RateLimit RateLimitStatus RateLimitFacts.
Local Open Scope Q_scope.

Lemma Qle_bool_true (x y : Q) : x <= y -> Qle_bool x y = true.
Proof. intros H. apply Qle_bool_iff. exact H. Qed.

Lemma Qle_bool_not (x y : Q) : y < x -> Qle_bool x y = false.
Proof.
  intros H. destruct (Qle_bool x y) eqn:E; [| reflexivity].
  apply Qle_bool_iff in E. lra.
Qed.




(** X2: a request for more tokens than the capacity is never admitted,
    however long the caller waits: no pass of the loop grants it, nothing is
    deducted, and the call is still pending when the environment stops (or
    has raised [ZeroDivisionError] when the rate is zero). *)
Theorem oversized_request_starves (n : Z) (overshoot : list Q) :
  forall (now : Q) (b : TokenBucket) (w : Q),
  (max_tokens b < n)%Z ->
  let res := acquire_loop overshoot n now b w in
  (forall v, ar_outcome res <> Returned v) /\
  (~ refill_rate b == 0 -> ar_outcome res = Pending) /\
  Forall (fun it => it_granted it = false /\ it_tokens it = it_refilled it) (ar_log res).
Proof.
  induction overshoot as [| late overshoot IH]; intros now b w Hbig;
    assert (Hno : Qle_bool (inject_Z n) (tokens (_refill now b)) = false)
      by (apply Qle_bool_not; simpl;
          pose proof (Q.le_min_l (inject_Z (max_tokens b))
                        (tokens b + (now - last_refill b) * refill_rate b));
          assert (inject_Z (max_tokens b) < inject_Z n)
            by (rewrite <- Zlt_Qlt; exact Hbig); lra);
    cbv zeta; simpl in *; rewrite Hno.
  - destruct (Qeq_bool (refill_rate b) 0) eqn:Hz; simpl.
    + split; [discriminate |]. split; [| repeat constructor].
      intros Hnz. apply Qeq_bool_iff in Hz. contradiction.
    + split; [discriminate |]. split; [reflexivity | repeat constructor].
  - destruct (Qeq_bool (refill_rate b) 0) eqn:Hz; simpl.
    + split; [discriminate |]. split; [| repeat constructor].
      intros Hnz. apply Qeq_bool_iff in Hz. contradiction.
    + match goal with
      | |- context [acquire_loop overshoot n ?t ?b1 ?w1] =>
          destruct (IH t b1 w1 Hbig) as (H1 & H2 & H3)
      end.
      split; [exact H1 |]. split; [exact H2 |].
      constructor; [split; reflexivity | exact H3].
Qed.

Lemma oversized_request_starves_witness :
  let res := acquire_loop [0; 5; 100] 6 0 (TokenBucket_init cfg5 0) 0 in
  (forall v, ar_outcome res <> Returned v) /\
  (~ refill_rate (TokenBucket_init cfg5 0) == 0 -> ar_outcome res = Pending) /\
  Forall (fun it => it_granted it = false /\ it_tokens it = it_refilled it) (ar_log res).
Proof.
  apply (oversized_request_starves 6 [0; 5; 100] 0 (TokenBucket_init cfg5 0) 0).
  simpl. lia.
Defined.



(** X4: on a bucket within its capacity a refill never lowers the count,
    and it fills the bucket as soon as the elapsed time covers the deficit at
    the refill rate. *)
Theorem refill_monotone_and_saturating (b : TokenBucket) (now : Q) :
  0 <= refill_rate b -> last_refill b <= now ->
  tokens b <= inject_Z (max_tokens b) ->
  tokens b <= tokens (_refill now b) /\
  (inject_Z (max_tokens b) - tokens b <= (now - last_refill b) * refill_rate b ->
   tokens (_refill now b) == inject_Z (max_tokens b)).
Proof.
  intros Hr Hl Hk. simpl.
  assert (Ha : 0 <= (now - last_refill b) * refill_rate b)
    by (apply Qmult_le_0_compat; lra).
  destruct (Qmin_cases (inject_Z (max_tokens b))
              (tokens b + (now - last_refill b) * refill_rate b))
    as [[E L] | [E L]]; rewrite E; (split; [lra | intros Hfull; lra]).
Qed.

Lemma refill_monotone_and_saturating_witness :
  let b := set_tokens 1 (TokenBucket_init cfg5 0) in
  tokens b <= tokens (_refill 4 b) /\
  (inject_Z (max_tokens b) - tokens b <= (4 - last_refill b) * refill_rate b ->
   tokens (_refill 4 b) == inject_Z (max_tokens b)).
Proof.
  apply (refill_monotone_and_saturating (set_tokens 1 (TokenBucket_init cfg5 0)) 4);
    discriminate.
Defined.

Lemma py_int_floor (x : Q) : 0 <= x -> py_int x = Qfloor x.
Proof.
  destruct x as [num den]. unfold py_int, Qfloor, Qle. simpl. intros H.
  apply Z.quot_div_nonneg; lia.
Qed.

(** X5: on a bucket that is within its capacity, [available_tokens]
    reports the refilled count rounded down: a whole number between 0 and
    the capacity, at most the count and less than one below it. *)
Theorem available_tokens_bounds (b : TokenBucket) (now : Q) :
  bucket_ok now b ->
  let res := available_tokens now b in
  (0 <= snd res <= max_tokens b)%Z /\
  inject_Z (snd res) <= tokens (fst res) /\
  tokens (fst res) < inject_Z (snd res) + 1 /\
  fst res = _refill now b.
Proof.
  intros (Hc & Hr & Hl & Hk). simpl.
  pose proof (refill_within _ _ _ _ now Hc Hr Hl Hk) as [H0 HC].
  set (k1 := Qmin (inject_Z (max_tokens b))
               (tokens b + (now - last_refill b) * refill_rate b)) in *.
  rewrite (py_int_floor k1 H0).
  split; [split |].
  - rewrite <- (Qfloor_Z 0). apply Qfloor_resp_le. exact H0.
  - rewrite <- (Qfloor_Z (max_tokens b)). apply Qfloor_resp_le. exact HC.
  - split; [apply Qfloor_le |]. split; [| reflexivity].
    pose proof (Qlt_floor k1) as Hlt. rewrite inject_Z_plus in Hlt. exact Hlt.
Qed.

Lemma available_tokens_bounds_witness :
  let b := set_tokens (7 # 2) (TokenBucket_init cfg5 0) in
  let res := available_tokens (1 # 4) b in
  (0 <= snd res <= max_tokens b)%Z /\
  inject_Z (snd res) <= tokens (fst res) /\
  tokens (fst res) < inject_Z (snd res) + 1 /\
  fst res = _refill (1 # 4) b.
Proof.
  apply (available_tokens_bounds (set_tokens (7 # 2) (TokenBucket_init cfg5 0)) (1 # 4)).
  repeat split; simpl; try lia; discriminate.
Defined.

(** The clock never runs backwards during [acquire], and the waiting time
    it reports only grows. *)
Lemma acquire_loop_clock (overshoot : list Q) (n : Z) :
  forall (now : Q) (b : TokenBucket) (w : Q),
  Forall (fun late => 0 <= late) overshoot ->
  let res := acquire_loop overshoot n now b w in
  now <= ar_now res /\
  (forall v, ar_outcome res = Returned v -> w <= v).
Proof.
  induction overshoot as [| late overshoot IH]; intros now b w Hov; cbv zeta; simpl.
  - destruct (Qle_bool (inject_Z n) _); simpl.
    + split; [lra |]. intros v Hv. injection Hv as <-. lra.
    + destruct (Qeq_bool (refill_rate b) 0); simpl;
        (split; [lra | intros v Hv; discriminate Hv]).
  - destruct (Qle_bool (inject_Z n) _); simpl.
    + split; [lra |]. intros v Hv. injection Hv as <-. lra.
    + destruct (Qeq_bool (refill_rate b) 0); simpl;
        [split; [lra | intros v Hv; discriminate Hv] |].
      inversion Hov as [| ? ? Hlate Hov']; subst.
      match goal with
      | |- context [acquire_loop overshoot n ?t ?b1 ?w1] =>
          destruct (IH t b1 w1 Hov') as [Hnow Hwait];
          pose proof (sleep_time_positive
                        ((inject_Z n - tokens b1) / refill_rate b1)) as Hpos
      end.
      simpl in Hpos.
      split; [lra |]. intros v Hv. specialize (Hwait v Hv). lra.
Qed.

(** X6: while a backoff is active for a category, an [acquire] that honours
    it does not return before the backoff deadline, and the wait it reports
    covers at least the time that was left; no warning but the backoff one is
    logged. *)
Theorem acquire_honours_backoff (rl : RateLimiter) (c : EndpointCategory)
    (bucket : TokenBucket) (n : Z) (overshoot : list Q) (now : Q) :
  buckets rl !! Category c = Some bucket ->
  now < backoff_deadline rl (Category c) ->
  Forall (fun late => 0 <= late) overshoot ->
  let res := limiter_acquire rl (Category c) n true overshoot now in
  lr_warnings res = [WarnBackoffActive c (backoff_deadline rl (Category c) - now)] /\
  forall v, lr_outcome res = Returned v ->
    backoff_deadline rl (Category c) <= lr_now res /\
    backoff_deadline rl (Category c) - now <= v.
Proof.
  intros Hb Hact Hov res. unfold res, limiter_acquire. rewrite Hb.
  unfold backoff_deadline in *.
  set (deadline := default 0 (_429_backoff rl !! Category c)) in *.
  assert (Hlt : Qlt_bool now deadline = true).
  { unfold Qlt_bool. rewrite (Qle_bool_not deadline now Hact). reflexivity. }
  rewrite Hlt. simpl.
  destruct overshoot as [| late overshoot']; simpl.
  - split; [reflexivity |]. intros v Hv. discriminate Hv.
  - inversion Hov as [| ? ? Hlate Hov']; subst.
    split; [reflexivity |]. intros v Hv. unfold acquire in Hv.
    destruct (acquire_loop_clock overshoot' n (now + (deadline - now) + late)
                bucket 0 Hov') as [Hnow Hwait].
    unfold acquire.
    destruct (ar_outcome (acquire_loop overshoot' n (now + (deadline - now) + late)
                            bucket 0)) as [w | e |] eqn:Ho; try discriminate Hv.
    injection Hv as <-. specialize (Hwait w eq_refl). split; lra.
Qed.

Lemma acquire_honours_backoff_witness :
  let rl := lr_limiter (handle_429_error (RateLimiter_init 0) (Category MARKET_DATA)
                          (Some 3%Z) 0) in
  let res := limiter_acquire rl (Category MARKET_DATA) 1 true [0] 1 in
  lr_warnings res =
    [WarnBackoffActive MARKET_DATA (backoff_deadline rl (Category MARKET_DATA) - 1)] /\
  forall v, lr_outcome res = Returned v ->
    backoff_deadline rl (Category MARKET_DATA) <= lr_now res /\
    backoff_deadline rl (Category MARKET_DATA) - 1 <= v.
Proof.
  apply (acquire_honours_backoff _ MARKET_DATA
           (TokenBucket_init (RATE_LIMITS MARKET_DATA) 0) 1 [0] 1).
  - reflexivity.
  - reflexivity.
  - repeat constructor. discriminate.
Defined.

(** X7: the categories do not interfere.  [acquire] on one category leaves
    the bucket of every other category and the whole backoff map as they
    were; [handle_429_error] and [reset_backoff] leave every bucket and the
    deadline of every other category as they were. *)
Theorem categories_are_isolated (rl : RateLimiter) (k k' : CategoryArg) :
  k <> k' ->
  (forall n retry overshoot now,
     let rl' := lr_limiter (limiter_acquire rl k n retry overshoot now) in
     buckets rl' !! k' = buckets rl !! k' /\
     _429_backoff rl' = _429_backoff rl) /\
  (forall retry_after now,
     let rl' := lr_limiter (handle_429_error rl k retry_after now) in
     buckets rl' = buckets rl /\
     backoff_deadline rl' k' = backoff_deadline rl k') /\
  (forall c, k = Category c ->
     let rl' := reset_backoff (Some c) rl in
     buckets rl' = buckets rl /\
     backoff_deadline rl' k' = backoff_deadline rl k').
Proof.
  intros Hne. split; [| split].
  - intros n retry overshoot now. unfold limiter_acquire.
    destruct (buckets rl !! k) as [bucket |]; [| simpl; auto].
    assert (Hin : forall ov t tw ws,
              buckets (lr_limiter (acquire_bucket rl k bucket n ov t tw ws)) !! k'
              = buckets rl !! k' /\
              _429_backoff (lr_limiter (acquire_bucket rl k bucket n ov t tw ws))
              = _429_backoff rl).
    { intros. simpl. split; [apply lookup_insert_ne; exact Hne | reflexivity]. }
    destruct (retry && Qlt_bool now (default 0 (_429_backoff rl !! k))); [| apply Hin].
    destruct k as [c | s]; [| simpl; auto].
    destruct overshoot as [| late ov]; [simpl; auto | apply Hin].
  - intros retry_after now. unfold handle_429_error, backoff_deadline.
    destruct k; simpl; (split; [reflexivity |]);
      rewrite lookup_insert_ne by exact Hne; reflexivity.
  - intros c -> . unfold backoff_deadline. simpl.
    split; [reflexivity |]. rewrite lookup_insert_ne by exact Hne. reflexivity.
Qed.

Lemma categories_are_isolated_witness :
  let rl := RateLimiter_init 0 in
  (forall n retry overshoot now,
     let rl' := lr_limiter (limiter_acquire rl (Category MARKET_DATA) n retry overshoot now) in
     buckets rl' !! Category DATA_API = buckets rl !! Category DATA_API /\
     _429_backoff rl' = _429_backoff rl) /\
  (forall retry_after now,
     let rl' := lr_limiter (handle_429_error rl (Category MARKET_DATA) retry_after now) in
     buckets rl' = buckets rl /\
     backoff_deadline rl' (Category DATA_API) = backoff_deadline rl (Category DATA_API)) /\
  (forall c, Category MARKET_DATA = Category c ->
     let rl' := reset_backoff (Some c) rl in
     buckets rl' = buckets rl /\
     backoff_deadline rl' (Category DATA_API) = backoff_deadline rl (Category DATA_API)).
Proof.
  apply (categories_are_isolated (RateLimiter_init 0)
           (Category MARKET_DATA) (Category DATA_API)).
  discriminate.
Defined.

(** X8: when rate-limit errors arrive back to back, at one instant, the
    backoff does double each time: after [k + 1] calls without retry-after,
    starting with no active backoff, the duration is [min(2^k, 60)]. *)
Theorem backoff_doubles_back_to_back (rl : RateLimiter) (c : CategoryArg)
    (now : Q) (k : nat) :
  backoff_deadline rl c <= now ->
  backoff_deadline (repeat_429 (S k) c now rl) c - now
  == Qmin (inject_Z (2 ^ Z.of_nat k)) 60.
Proof.
  intros Hidle. induction k as [| k IH].
  - simpl. rewrite handle_429_error_deadline.
    destruct (backoff_time_default (backoff_deadline rl c) now) as [[Hlt _] | [_ He]];
      [lra |].
    assert (Hm : Qmin (inject_Z (2 ^ Z.of_nat 0)) 60 == 1) by reflexivity.
    rewrite He, Hm. ring.
  - change (repeat_429 (S (S k)) c now rl)
      with (lr_limiter (handle_429_error (repeat_429 (S k) c now rl) c None now)).
    rewrite handle_429_error_deadline.
    set (prev := backoff_deadline (repeat_429 (S k) c now rl) c) in *.
    assert (Hpow : inject_Z (2 ^ Z.of_nat (S k)) == 2 * inject_Z (2 ^ Z.of_nat k)).
    { rewrite Nat2Z.inj_succ, Z.pow_succ_r by lia. rewrite inject_Z_mult. reflexivity. }
    assert (Hpos : 1 <= inject_Z (2 ^ Z.of_nat k)).
    { change 1 with (inject_Z 1). rewrite <- Zle_Qle.
      pose proof (Z.pow_pos_nonneg 2 (Z.of_nat k)). lia. }
    rewrite Hpow.
    destruct (Qmin_cases (inject_Z (2 ^ Z.of_nat k)) 60) as [[Em Lm] | [Em Lm]];
      rewrite Em in IH;
      (destruct (backoff_time_default prev now) as [[Hlt He] | [Hle He]]; [| lra]);
      destruct (Qmin_cases ((prev - now) * 2) 60) as [[E1 L1] | [E1 L1]];
      destruct (Qmin_cases (2 * inject_Z (2 ^ Z.of_nat k)) 60) as [[E2 L2] | [E2 L2]];
      lra.
Qed.

Lemma backoff_doubles_back_to_back_witness :
  backoff_deadline (repeat_429 (S 3) (Category GAMMA_API) 5 (RateLimiter_init 0))
                   (Category GAMMA_API) - 5
  == Qmin (inject_Z (2 ^ Z.of_nat 3)) 60.
Proof.
  apply (backoff_doubles_back_to_back (RateLimiter_init 0) (Category GAMMA_API) 5 3).
  discriminate.
Defined.

(** X9: [reset_backoff] lifts the backoff.  After a reset of one category
    (or of all), at any clock reading that is not negative, [acquire] on that
    category behaves as with [retry_on_429] off and the next rate-limit error
    starts again from the base duration of 1; a reset of all categories
    leaves no deadline at all. *)
Theorem reset_backoff_lifts (rl : RateLimiter) (c : EndpointCategory) (now : Q) :
  0 <= now ->
  (forall target, target = Some c \/ target = None ->
     let rl' := reset_backoff target rl in
     backoff_deadline rl' (Category c) == 0 /\
     (forall n overshoot,
        limiter_acquire rl' (Category c) n true overshoot now
        = limiter_acquire rl' (Category c) n false overshoot now) /\
     backoff_time (backoff_deadline rl' (Category c)) now None == 1) /\
  (forall k, backoff_deadline (reset_backoff None rl) k = 0).
Proof.
  intros Hnow. split.
  - intros target Htarget rl'.
    assert (Hzero : backoff_deadline rl' (Category c) = 0).
    { unfold rl', backoff_deadline. destruct Htarget as [-> | ->]; simpl.
      - rewrite lookup_insert_eq. reflexivity.
      - rewrite lookup_empty. reflexivity. }
    split; [rewrite Hzero; reflexivity |]. split.
    + intros n overshoot. unfold limiter_acquire.
      destruct (buckets rl' !! Category c); [| reflexivity].
      unfold backoff_deadline in Hzero. rewrite Hzero.
      assert (Hoff : Qlt_bool now 0 = false).
      { unfold Qlt_bool. rewrite (Qle_bool_true 0 now Hnow). reflexivity. }
      rewrite Hoff. reflexivity.
    + rewrite Hzero.
      destruct (backoff_time_default 0 now) as [[Hlt _] | [_ He]]; [lra | exact He].
  - intros k. unfold backoff_deadline. simpl. rewrite lookup_empty. reflexivity.
Qed.

Lemma reset_backoff_lifts_witness :
  let rl := lr_limiter (handle_429_error (RateLimiter_init 0) (Category BATCH_OPS)
                          (Some 30%Z) 1) in
  (forall target, target = Some BATCH_OPS \/ target = None ->
     let rl' := reset_backoff target rl in
     backoff_deadline rl' (Category BATCH_OPS) == 0 /\
     (forall n overshoot,
        limiter_acquire rl' (Category BATCH_OPS) n true overshoot 2
        = limiter_acquire rl' (Category BATCH_OPS) n false overshoot 2) /\
     backoff_time (backoff_deadline rl' (Category BATCH_OPS)) 2 None == 1) /\
  (forall k, backoff_deadline (reset_backoff None rl) k = 0).
Proof.
  apply (reset_backoff_lifts _ BATCH_OPS 2). discriminate.
Defined.

(** Every configured category refills its whole capacity in exactly its
    nominal window. *)
Lemma RATE_LIMITS_consistent (c : EndpointCategory) :
  cfg_refill_rate (RATE_LIMITS c) * cfg_window_seconds (RATE_LIMITS c)
  == inject_Z (cfg_max_tokens (RATE_LIMITS c)) /\
  (0 <= cfg_max_tokens (RATE_LIMITS c))%Z /\
  0 < cfg_refill_rate (RATE_LIMITS c) /\ 0 <= cfg_window_seconds (RATE_LIMITS c).
Proof. destruct c; repeat split; simpl; try reflexivity; try lia; discriminate. Qed.

(** X10: for every configured category, whatever well-formed sequence of
    requests and pauses is made on its bucket, the tokens granted inside any
    window of the category's nominal length never exceed twice its nominal
    limit. *)
Theorem configured_window_bound (c : EndpointCategory) (t0 a : Q)
    (acts : list Action) :
  Forall well_formed_action acts ->
  granted_in_window a (cfg_window_seconds (RATE_LIMITS c))
    (rr_log (run acts t0 (TokenBucket_init (RATE_LIMITS c) t0)))
  <= 2 * inject_Z (cfg_max_tokens (RATE_LIMITS c)).
Proof.
  intros Hwf.
  destruct (RATE_LIMITS_consistent c) as (Hcons & Hc & Hr & Hw).
  assert (Hr' : 0 <= cfg_refill_rate (RATE_LIMITS c)) by lra.
  assert (Hfull : within_capacity (cfg_max_tokens (RATE_LIMITS c))
                    (inject_Z (cfg_max_tokens (RATE_LIMITS c)))).
  { split; [apply inject_Z_nonneg; exact Hc | lra]. }
  destruct (run_coherent acts t0 (TokenBucket_init (RATE_LIMITS c) t0) Hc Hr' Hwf
              (Qle_refl t0) Hfull) as (_ & _ & Hreq & Hco).
  pose proof (granted_window_bound _ _ Hc Hr' a _ _ _ _ Hw Hfull Hreq Hco) as Hb.
  simpl in Hb. lra.
Qed.

Lemma configured_window_bound_witness :
  granted_in_window 0 (cfg_window_seconds (RATE_LIMITS BATCH_OPS))
    (rr_log (run (burst_twice (RATE_LIMITS BATCH_OPS) 10) 0
               (TokenBucket_init (RATE_LIMITS BATCH_OPS) 0)))
  <= 2 * inject_Z (cfg_max_tokens (RATE_LIMITS BATCH_OPS)).
Proof.
  apply (configured_window_bound BATCH_OPS 0 0 (burst_twice (RATE_LIMITS BATCH_OPS) 10)).
  repeat constructor; simpl; try lia; discriminate.
Defined.

(** X11: the bound of twice the limit is reached.  Taking the whole
    capacity, idling for a window in which the bucket refills, and taking the
    whole capacity again is admitted without any wait, and grants twice the
    capacity inside one window. *)
Theorem burst_twice_doubles (config : RateLimitConfig) (t0 w : Q) :
  (0 <= cfg_max_tokens config)%Z -> 0 <= w ->
  inject_Z (cfg_max_tokens config) <= w * cfg_refill_rate config ->
  let res := run (burst_twice config w) t0 (TokenBucket_init config t0) in
  List.map it_granted (rr_log res) = [true; true] /\
  rr_now res = t0 + w /\
  granted_in_window t0 w (rr_log res) == 2 * inject_Z (cfg_max_tokens config).
Proof.
  intros Hc Hw Hfill.
  set (C := inject_Z (cfg_max_tokens config)) in *.
  assert (HC : 0 <= C) by (apply inject_Z_nonneg; exact Hc).
  assert (H1 : Qle_bool C (Qmin C (C + (t0 - t0) * cfg_refill_rate config)) = true).
  { apply Qle_bool_iff. apply Q.min_glb; lra. }
  assert (H2 : Qle_bool C
            (Qmin C (Qmin C (C + (t0 - t0) * cfg_refill_rate config) - C
                     + (t0 + w - t0) * cfg_refill_rate config)) = true).
  { apply Qle_bool_iff. apply Q.min_glb; [lra |].
    destruct (Qmin_cases C (C + (t0 - t0) * cfg_refill_rate config))
      as [[E L] | [E L]]; rewrite E; lra. }
  cbv zeta. unfold burst_twice, run, acquire, acquire_loop. simpl. fold C.
  rewrite H1. simpl. fold C. rewrite H2. simpl. fold C.
  split; [reflexivity |]. split; [reflexivity |].
  assert (W1 : in_window t0 w t0 = true).
  { unfold in_window. rewrite !Qle_bool_true; [reflexivity | lra | lra]. }
  assert (W2 : in_window t0 w (t0 + w) = true).
  { unfold in_window. rewrite !Qle_bool_true; [reflexivity | lra | lra]. }
  rewrite W1, W2. ring.
Qed.

Lemma burst_twice_doubles_witness :
  let config := RATE_LIMITS MARKET_DATA in
  let res := run (burst_twice config 10) 0 (TokenBucket_init config 0) in
  List.map it_granted (rr_log res) = [true; true] /\
  rr_now res = 0 + 10 /\
  granted_in_window 0 10 (rr_log res) == 2 * inject_Z (cfg_max_tokens config).
Proof.
  apply (burst_twice_doubles (RATE_LIMITS MARKET_DATA) 0 10).
  - simpl. lia.
  - discriminate.
  - discriminate.
Defined.

Lemma status_get_set_eq (k : string) (v : StatusRow) (d : list (string * StatusRow)) :
  status_get k (status_set k v d) = Some v.
Proof.
  induction d as [| [k' v'] d IH]; simpl.
  - rewrite String.eqb_refl. reflexivity.
  - destruct (String.eqb k k') eqn:He; simpl.
    + rewrite String.eqb_refl. reflexivity.
    + rewrite He. exact IH.
Qed.

Lemma status_get_set_ne (k k' : string) (v : StatusRow) (d : list (string * StatusRow)) :
  k <> k' -> status_get k' (status_set k v d) = status_get k' d.
Proof.
  intros Hne. apply String.eqb_neq in Hne.
  induction d as [| [k0 v0] d IH]; simpl.
  - rewrite String.eqb_sym, Hne. reflexivity.
  - destruct (String.eqb k k0) eqn:He; simpl.
    + apply String.eqb_eq in He. subst k0. rewrite String.eqb_sym, Hne. reflexivity.
    + rewrite IH. reflexivity.
Qed.

Lemma EndpointCategory_value_inj (c c' : EndpointCategory) :
  EndpointCategory_value c = EndpointCategory_value c' -> c = c'.
Proof. destruct c, c'; simpl; intros H; try reflexivity; discriminate H. Qed.

Lemma status_loop_category (now : Q) (c : EndpointCategory) (b : TokenBucket)
    (order : list CategoryArg) (rl : RateLimiter) (status : list (string * StatusRow)) :
  buckets rl !! Category c = Some b ->
  status_loop (Category c :: order) now rl status
  = status_loop order now (set_bucket (Category c) (_refill now b) rl)
      (status_set (EndpointCategory_value c)
         {| st_available_tokens := py_int (tokens (_refill now b));
            st_max_tokens := max_tokens b;
            st_refill_rate_per_sec := refill_rate b;
            st_backoff_remaining_sec :=
              Qmax 0 (backoff_deadline rl (Category c) - now);
            st_is_throttled :=
              Qlt_bool 0 (Qmax 0 (backoff_deadline rl (Category c) - now)) |}
         status).
Proof. intros Hb. simpl. rewrite Hb. reflexivity. Qed.

Lemma status_loop_absent (now : Q) (k : CategoryArg) (order : list CategoryArg)
    (rl : RateLimiter) (status : list (string * StatusRow)) :
  buckets rl !! k = None ->
  status_loop (k :: order) now rl status = status_loop order now rl status.
Proof. intros Hb. simpl. rewrite Hb. reflexivity. Qed.

(** What the loop of [get_status] computes when every key it visits is a
    member of the enum. *)
Lemma status_loop_rows (now : Q) (order : list CategoryArg) :
  forall (rl : RateLimiter) (status0 : list (string * StatusRow)),
  List.NoDup order ->
  Forall (fun k => exists c, k = Category c) order ->
  exists status,
    snd (status_loop order now rl status0) = Returned status /\
    _429_backoff (fst (status_loop order now rl status0)) = _429_backoff rl /\
    (forall k, In k order ->
       buckets (fst (status_loop order now rl status0)) !! k
       = _refill now <$> buckets rl !! k) /\
    (forall k, ~ In k order ->
       buckets (fst (status_loop order now rl status0)) !! k = buckets rl !! k) /\
    (forall c b, In (Category c) order -> buckets rl !! Category c = Some b ->
       status_get (EndpointCategory_value c) status
       = Some {| st_available_tokens := py_int (tokens (_refill now b));
                 st_max_tokens := max_tokens b;
                 st_refill_rate_per_sec := refill_rate b;
                 st_backoff_remaining_sec :=
                   Qmax 0 (backoff_deadline rl (Category c) - now);
                 st_is_throttled :=
                   Qlt_bool 0 (Qmax 0 (backoff_deadline rl (Category c) - now)) |}) /\
    (forall name,
       (forall c, In (Category c) order -> buckets rl !! Category c <> None ->
                  name <> EndpointCategory_value c) ->
       status_get name status = status_get name status0).
Proof.
  induction order as [| k order IH]; intros rl status0 Hnd Hcat.
  - exists status0. simpl. repeat split; auto; try tauto.
  - inversion Hnd as [| ? ? Hnotin Hnd']; subst.
    inversion Hcat as [| ? ? [c0 ->] Hcat']; subst.
    destruct (buckets rl !! Category c0) as [b0 |] eqn:Hb0.
    + rewrite (status_loop_category now c0 b0 order rl status0 Hb0).
      set (rl1 := set_bucket (Category c0) (_refill now b0) rl).
      set (row0 := {| st_available_tokens := py_int (tokens (_refill now b0));
                      st_max_tokens := max_tokens b0;
                      st_refill_rate_per_sec := refill_rate b0;
                      st_backoff_remaining_sec :=
                        Qmax 0 (backoff_deadline rl (Category c0) - now);
                      st_is_throttled :=
                        Qlt_bool 0 (Qmax 0 (backoff_deadline rl (Category c0) - now)) |}).
      destruct (IH rl1 (status_set (EndpointCategory_value c0) row0 status0) Hnd' Hcat')
        as (status & Hret & Hbk & Hin & Hout & Hrows & Hkeep).
      exists status. split; [exact Hret |]. split; [exact Hbk |].
      assert (Hother : forall k, k <> Category c0 -> buckets rl1 !! k = buckets rl !! k).
      { intros k Hk. unfold rl1. simpl. apply lookup_insert_ne. congruence. }
      split; [| split; [| split]].
      * intros k [<- | Hk].
        -- rewrite (Hout _ Hnotin). unfold rl1. simpl.
           rewrite lookup_insert_eq, Hb0. reflexivity.
        -- rewrite (Hin _ Hk), Hother; [reflexivity |]. intros ->. contradiction.
      * intros k Hk. simpl in Hk. rewrite Hout by tauto. apply Hother.
        intros ->. apply Hk. left. reflexivity.
      * intros c b [Heq | Hc] Hb.
        -- injection Heq as <-. rewrite Hb0 in Hb. injection Hb as <-.
           rewrite Hkeep; [apply status_get_set_eq |].
           intros c Hc _ Hname. apply EndpointCategory_value_inj in Hname. subst c.
           contradiction.
        -- assert (Hne : Category c <> Category c0) by (intros Heq; rewrite Heq in Hc; contradiction).
           rewrite (Hrows c b Hc); [reflexivity | rewrite Hother; assumption].
      * intros name Hname. rewrite Hkeep.
        -- apply status_get_set_ne. intros <-.
           apply (Hname c0); [left; reflexivity | congruence | reflexivity].
        -- intros c Hc Hsome. apply Hname; [right; exact Hc |].
           rewrite <- (Hother (Category c)); [exact Hsome |].
           intros Heq. rewrite Heq in Hc. contradiction.
    + rewrite (status_loop_absent now (Category c0) order rl status0 Hb0).
      destruct (IH rl status0 Hnd' Hcat')
        as (status & Hret & Hbk & Hin & Hout & Hrows & Hkeep).
      exists status. split; [exact Hret |]. split; [exact Hbk |].
      split; [| split; [| split]].
      * intros k [<- | Hk]; [| apply Hin; exact Hk].
        rewrite (Hout _ Hnotin), Hb0. reflexivity.
      * intros k Hk. simpl in Hk. apply Hout. tauto.
      * intros c b [Heq | Hc] Hb; [injection Heq as <-; congruence |].
        apply Hrows; assumption.
      * intros name Hname. apply Hkeep. intros c Hc Hsome.
        apply Hname; [right; exact Hc | exact Hsome].
Qed.

(** X12: on a limiter whose buckets are all keyed by categories,
    [get_status] returns a row for every category that has a bucket and for
    nothing else.  The row reports the bucket's capacity and rate and its
    refilled count rounded toward zero; it is throttled exactly when the
    clock is before the backoff deadline, the remaining backoff being the
    time to the deadline then and 0 otherwise.  The call leaves the backoff
    map as it was and every visited bucket refilled. *)
Theorem get_status_rows (order : list CategoryArg) (now : Q) (rl : RateLimiter) :
  List.NoDup order ->
  Forall (fun k => exists c, k = Category c) order ->
  exists status,
    snd (get_status order now rl) = Returned status /\
    _429_backoff (fst (get_status order now rl)) = _429_backoff rl /\
    (forall k, In k order ->
       buckets (fst (get_status order now rl)) !! k = _refill now <$> buckets rl !! k) /\
    (forall c b, In (Category c) order -> buckets rl !! Category c = Some b ->
       exists row,
         status_get (EndpointCategory_value c) status = Some row /\
         st_available_tokens row = py_int (tokens (_refill now b)) /\
         st_max_tokens row = max_tokens b /\
         st_refill_rate_per_sec row = refill_rate b /\
         0 <= st_backoff_remaining_sec row /\
         (now < backoff_deadline rl (Category c) ->
            st_is_throttled row = true /\
            st_backoff_remaining_sec row == backoff_deadline rl (Category c) - now) /\
         (backoff_deadline rl (Category c) <= now ->
            st_is_throttled row = false /\ st_backoff_remaining_sec row == 0)) /\
    (forall name,
       (forall c, In (Category c) order -> buckets rl !! Category c <> None ->
                  name <> EndpointCategory_value c) ->
       status_get name status = None).
Proof.
  intros Hnd Hcat. unfold get_status.
  destruct (status_loop_rows now order rl [] Hnd Hcat)
    as (status & Hret & Hbk & Hin & _ & Hrows & Hkeep).
  exists status. split; [exact Hret |]. split; [exact Hbk |]. split; [exact Hin |].
  split; [| intros name Hname; rewrite (Hkeep name Hname); reflexivity].
  intros c b Hc Hb. eexists. split; [apply (Hrows c b Hc Hb) |]. simpl.
  set (d := backoff_deadline rl (Category c)).
  split; [reflexivity |]. split; [reflexivity |]. split; [reflexivity |].
  split; [apply Q.le_max_l |]. split.
  - intros Hact. assert (Hm : Qmax 0 (d - now) == d - now) by (apply Q.max_r; lra).
    split; [| exact Hm]. unfold Qlt_bool. rewrite Qle_bool_not; [reflexivity |].
    rewrite Hm. lra.
  - intros Hidle. assert (Hm : Qmax 0 (d - now) == 0) by (apply Q.max_l; lra).
    split; [| exact Hm]. unfold Qlt_bool. rewrite Qle_bool_true; [reflexivity |].
    rewrite Hm. lra.
Qed.

Lemma init_order_no_dup : List.NoDup init_order.
Proof.
  unfold init_order, all_categories. simpl.
  repeat (constructor; [simpl; intuition discriminate |]). constructor.
Qed.

Lemma init_order_categories : Forall (fun k => exists c, k = Category c) init_order.
Proof. unfold init_order. simpl. repeat (constructor; [eexists; reflexivity |]). constructor. Qed.

Lemma get_status_rows_witness :
  let rl := lr_limiter (handle_429_error (RateLimiter_init 0) (Category DATA_API)
                          None 1) in
  exists status,
    snd (get_status init_order (3 # 2) rl) = Returned status /\
    (exists row, status_get "data_api" status = Some row /\
                 st_is_throttled row = true /\ st_available_tokens row = 200%Z) /\
    (exists row, status_get "gamma_api" status = Some row /\
                 st_is_throttled row = false /\ st_backoff_remaining_sec row == 0) /\
    status_get "sports" status = None.
Proof.
  intros rl.
  destruct (get_status_rows init_order (3 # 2) rl init_order_no_dup init_order_categories)
    as (status & Hret & _ & _ & Hrows & Hnone).
  exists status. split; [exact Hret |]. split; [| split].
  - destruct (Hrows DATA_API (TokenBucket_init (RATE_LIMITS DATA_API) 0))
      as (row & Hget & Hav & _ & _ & _ & Hon & _);
      [simpl; tauto | reflexivity |].
    exists row. split; [exact Hget |]. split; [apply Hon; reflexivity | exact Hav].
  - destruct (Hrows GAMMA_API (TokenBucket_init (RATE_LIMITS GAMMA_API) 0))
      as (row & Hget & _ & _ & _ & _ & _ & Hoff);
      [simpl; tauto | reflexivity |].
    exists row. split; [exact Hget |]. apply Hoff. discriminate.
  - apply Hnone. intros c _ _. destruct c; discriminate.
Defined.




End RateLimitMore.

(** * Further properties of the WebSocket manager *)

Module WebSocketMore.
Import WebSocket WebSocketStatus WebSocketFacts.
Local Open Scope string_scope.
Local Open Scope list_scope.

(** X14: [connect] is not all-or-nothing.  When the CLOB endpoint refuses,
    it raises without trying the real-time endpoint, and leaves the
    [authenticated] flag and both socket attributes as they were; when the
    CLOB endpoint accepts and the real-time endpoint refuses, it raises with
    the CLOB channel left connected.  Either way one connection error is
    counted and the registry is untouched. *)
Theorem connect_failure_is_partial (net : Network) (m : WebSocketManager) :
  let res := connect net m in
  (clob_link net = Refused ->
     snd res = Raised (OSError "connect") /\
     clob_connected (fst res) = false /\
     clob_ws (fst res) = clob_ws m /\ realtime_ws (fst res) = realtime_ws m /\
     realtime_connected (fst res) = realtime_connected m /\
     authenticated (fst res) = authenticated m) /\
  (forall drops, clob_link net = Opened drops -> realtime_link net = Refused ->
     snd res = Raised (OSError "connect") /\
     clob_connected (fst res) = true /\
     (exists ws, clob_ws (fst res) = Some ws /\
                 sent ws = if has_api_credentials m then
                             (if bool_decide (drops = Some O) then [] else [AuthFrame])
                           else []) /\
     realtime_connected (fst res) = false /\
     realtime_ws (fst res) = realtime_ws m) /\
  (raises (snd res) = true ->
     connection_errors (fst res) = S (connection_errors m) /\
     subscriptions (fst res) = subscriptions m /\
     market_subscriptions (fst res) = market_subscriptions m /\
     token_subscriptions (fst res) = token_subscriptions m).
Proof.
  unfold connect, _connect_clob, _connect_realtime, _authenticate_clob.
  destruct (clob_link net) as [| drops] eqn:Hc; simpl.
  - split; [auto 10 |]. split; [intros d Hd; discriminate Hd | auto].
  - split; [intros H; discriminate H |].
    destruct (has_api_credentials m) eqn:Hcred; simpl.
    + unfold ws_send, fresh_socket; simpl.
      destruct drops as [[| k] |]; simpl;
        destruct (auth_reply net) as [t | |]; simpl;
        try destruct (bool_decide (t = Some "authenticated")); simpl;
        destruct (realtime_link net) eqn:Hr; simpl;
        (split; [intros d Hd Hrr; injection Hd as <-; try discriminate Hrr;
                 rewrite ?Hcred; simpl; eauto 10
                | intros Hx; try discriminate Hx; auto]).
    + destruct (realtime_link net) eqn:Hr; simpl;
        (split; [intros d Hd Hrr; injection Hd as <-; try discriminate Hrr;
                 rewrite ?Hcred; simpl; eauto 10
                | intros Hx; try discriminate Hx; auto]).
Qed.

Lemma connect_failure_is_partial_witness :
  let net := {| clob_link := Opened None; auth_reply := ReplyJson (Some "authenticated");
                realtime_link := Refused |} in
  let res := connect net (disconnect demo_manager) in
  snd res = Raised (OSError "connect") /\
  clob_connected (fst res) = true /\ authenticated (fst res) = true /\
  realtime_connected (fst res) = false /\
  connection_errors (fst res) = 1%nat.
Proof.
  intros net res.
  destruct (connect_failure_is_partial net (disconnect demo_manager))
    as (_ & Hpart & Hcount).
  destruct (Hpart None eq_refl eq_refl) as (Hout & Hconn & _ & Hrt & _).
  fold res in Hout, Hconn, Hrt, Hcount.
  split; [exact Hout |]. split; [exact Hconn |]. split; [reflexivity |].
  split; [exact Hrt |].
  apply Hcount. rewrite Hout. reflexivity.
Defined.

Lemma ws_send_cases (f : Frame) (ws : Socket) :
  (snd (ws_send f ws) = Returned tt /\ sent (fst (ws_send f ws)) = sent ws ++ [f]) \/
  (snd (ws_send f ws) = Raised ConnectionClosed /\ sent (fst (ws_send f ws)) = sent ws).
Proof.
  unfold ws_send. destruct (closed ws); [right; auto |].
  destruct (drops_after ws) as [[| k] |]; simpl; auto.
Qed.

(** X15: the handshake marks the connection authenticated only on an
    explicit success: exactly when the auth frame could be sent and the reply
    is a JSON object whose [type] is "authenticated".  It always returns
    normally and puts at most the one auth frame on the wire. *)
Theorem authenticated_only_on_success (reply : AuthReply) (m : WebSocketManager) :
  let res := _authenticate_clob reply m in
  snd res = Returned tt /\
  (authenticated (fst res) = true <->
   (exists ws, clob_ws m = Some ws /\ snd (ws_send AuthFrame ws) = Returned tt) /\
   reply = ReplyJson (Some "authenticated")) /\
  (wire_log (clob_ws (fst res)) = wire_log (clob_ws m) \/
   wire_log (clob_ws (fst res)) = wire_log (clob_ws m) ++ [AuthFrame]) /\
  realtime_ws (fst res) = realtime_ws m /\
  subscriptions (fst res) = subscriptions m.
Proof.
  unfold _authenticate_clob.
  destruct (clob_ws m) as [ws |] eqn:Hws; simpl.
  - destruct (ws_send_cases AuthFrame ws) as [[Ho Hs] | [Ho Hs]];
      destruct (ws_send AuthFrame ws) as [ws' o] eqn:Hsend; simpl in Ho, Hs; subst o.
    + assert (Hsent : exists ws0, Some ws = Some ws0 /\
                                  snd (ws_send AuthFrame ws0) = Returned tt)
        by (exists ws; rewrite Hsend; auto).
      destruct reply as [t | |]; simpl.
      * destruct (bool_decide (t = Some "authenticated")) eqn:Hb; simpl.
        -- apply bool_decide_eq_true in Hb. subst t.
           split; [reflexivity |]. split; [split; auto |].
           split; [right; exact Hs | auto].
        -- apply bool_decide_eq_false in Hb.
           split; [reflexivity |].
           split; [split; [discriminate | intros [_ Hr]; congruence] |].
           split; [right; exact Hs | auto].
      * split; [reflexivity |].
        split; [split; [discriminate | intros [_ Hr]; discriminate Hr] |].
        split; [right; exact Hs | auto].
      * split; [reflexivity |].
        split; [split; [discriminate | intros [_ Hr]; discriminate Hr] |].
        split; [right; exact Hs | auto].
    + split; [reflexivity |].
      split; [split; [discriminate |];
              intros [(ws0 & Heq & Hok) _]; injection Heq as <-;
              rewrite Hsend in Hok; discriminate Hok |].
      split; [left; exact Hs | auto].
  - split; [reflexivity |].
    split; [split; [discriminate |]; intros [(ws0 & Heq & _) _]; discriminate Heq |].
    rewrite Hws. split; [left; reflexivity | auto].
Qed.

Lemma close_if_open_idempotent (ws : option Socket) :
  close_if_open (close_if_open ws) = close_if_open ws.
Proof.
  destruct ws as [s |]; [| reflexivity]. simpl.
  destruct (closed s) eqn:Hc; simpl; [rewrite Hc |]; reflexivity.
Qed.

Lemma close_if_open_closed (ws : option Socket) (s : Socket) :
  close_if_open ws = Some s -> closed s = true.
Proof.
  destruct ws as [s0 |]; [| discriminate]. simpl.
  destruct (closed s0) eqn:Hc; simpl; intros H; injection H as <-; [exact Hc | reflexivity].
Qed.

Lemma close_if_open_wire (ws : option Socket) :
  wire_log (close_if_open ws) = wire_log ws.
Proof.
  destruct ws as [s |]; [| reflexivity]. simpl. destruct (closed s); reflexivity.
Qed.

(** X16: [disconnect] is idempotent.  It leaves both channels disconnected
    and unauthenticated with every socket closed, sends nothing, and keeps
    the registry, the indexes and the counters. *)
Theorem disconnect_idempotent (m : WebSocketManager) :
  disconnect (disconnect m) = disconnect m /\
  clob_connected (disconnect m) = false /\
  realtime_connected (disconnect m) = false /\
  authenticated (disconnect m) = false /\
  (forall s, clob_ws (disconnect m) = Some s \/ realtime_ws (disconnect m) = Some s ->
             closed s = true) /\
  wire_log (clob_ws (disconnect m)) = wire_log (clob_ws m) /\
  wire_log (realtime_ws (disconnect m)) = wire_log (realtime_ws m) /\
  subscriptions (disconnect m) = subscriptions m /\
  market_subscriptions (disconnect m) = market_subscriptions m /\
  token_subscriptions (disconnect m) = token_subscriptions m /\
  reconnect_attempts (disconnect m) = reconnect_attempts m.
Proof.
  split.
  - unfold disconnect. simpl. rewrite !close_if_open_idempotent. reflexivity.
  - unfold disconnect. simpl.
    split; [reflexivity |]. split; [reflexivity |]. split; [reflexivity |].
    split; [intros s [H | H]; exact (close_if_open_closed _ _ H) |].
    rewrite !close_if_open_wire. auto 10.
Qed.

Lemma reconnect_delay_range (attempts : nat) :
  (1 <= Z.min (INITIAL_RECONNECT_DELAY * RECONNECT_MULTIPLIER ^ Z.of_nat attempts)
             MAX_RECONNECT_DELAY <= 60)%Z.
Proof.
  unfold INITIAL_RECONNECT_DELAY, RECONNECT_MULTIPLIER, MAX_RECONNECT_DELAY.
  pose proof (Z.pow_pos_nonneg 2 (Z.of_nat attempts)). lia.
Qed.

(** One [reconnect] against a CLOB endpoint that refuses. *)
Lemma reconnect_refused (net : Network) (now : Q) (m : WebSocketManager) :
  clob_link net = Refused ->
  let res := reconnect net now m in
  snd res = Z.min (2 ^ Z.of_nat (reconnect_attempts m)) 60 /\
  reconnect_attempts (fst res) = S (reconnect_attempts m) /\
  reconnect_count (fst res) = S (reconnect_count m) /\
  connection_errors (fst res) = S (connection_errors m) /\
  clob_connected (fst res) = false /\ realtime_connected (fst res) = false /\
  authenticated (fst res) = false /\
  subscriptions (fst res) = subscriptions m.
Proof.
  intros Hc. unfold reconnect, connect, _connect_clob. simpl. rewrite Hc. simpl.
  unfold INITIAL_RECONNECT_DELAY, RECONNECT_MULTIPLIER, MAX_RECONNECT_DELAY.
  rewrite Z.mul_1_l. auto 10.
Qed.

Lemma reconnect_times_refused (net : Network) (now : Q) (m : WebSocketManager)
    (k : nat) :
  clob_link net = Refused ->
  reconnect_attempts (reconnect_times k net now m) = (reconnect_attempts m + k)%nat /\
  reconnect_count (reconnect_times k net now m) = (reconnect_count m + k)%nat /\
  subscriptions (reconnect_times k net now m) = subscriptions m.
Proof.
  intros Hc. induction k as [| k (Ha & Hn & Hs)]; simpl.
  - rewrite !Nat.add_0_r. auto.
  - destruct (reconnect_refused net now (reconnect_times k net now m) Hc)
      as (_ & Ha1 & Hn1 & _ & _ & _ & _ & Hs1).
    rewrite Ha1, Hn1, Hs1, Ha, Hn, Hs. repeat split; lia.
Qed.

(** X17: against an endpoint that keeps refusing, every [reconnect] counts
    one more attempt and sleeps [min(2^attempts, 60)] seconds first: the
    delay doubles from attempt to attempt, stays between 1 and 60, and the
    registry survives every failed attempt. *)
Theorem reconnect_backs_off (net : Network) (now : Q) (m : WebSocketManager)
    (k : nat) :
  clob_link net = Refused ->
  let m' := reconnect_times k net now m in
  reconnect_attempts m' = (reconnect_attempts m + k)%nat /\
  reconnect_count m' = (reconnect_count m + k)%nat /\
  subscriptions m' = subscriptions m /\
  snd (reconnect net now m') = Z.min (2 ^ Z.of_nat (reconnect_attempts m + k)) 60 /\
  (1 <= snd (reconnect net now m') <= 60)%Z /\
  (snd (reconnect net now m') <= snd (reconnect net now (fst (reconnect net now m'))))%Z.
Proof.
  intros Hc m'.
  destruct (reconnect_times_refused net now m k Hc) as (Ha & Hn & Hs).
  fold m' in Ha, Hn, Hs.
  destruct (reconnect_refused net now m' Hc) as (Hd & Ha1 & _).
  destruct (reconnect_refused net now (fst (reconnect net now m')) Hc) as (Hd2 & _).
  rewrite Hd2, Hd, Ha1, Ha.
  set (a := (reconnect_attempts m + k)%nat).
  assert (Hpow : (0 < 2 ^ Z.of_nat a)%Z) by (apply Z.pow_pos_nonneg; lia).
  assert (Hnext : (2 ^ Z.of_nat (S a) = 2 * 2 ^ Z.of_nat a)%Z)
    by (rewrite Nat2Z.inj_succ, Z.pow_succ_r by lia; reflexivity).
  split; [reflexivity |]. split; [exact Hn |]. split; [exact Hs |].
  split; [reflexivity |]. split; [lia |]. rewrite Hnext. lia.
Qed.

Lemma reconnect_backs_off_witness :
  let net := {| clob_link := Refused; auth_reply := ReplyTimeout;
                realtime_link := Opened None |} in
  let m' := reconnect_times 2 net 0 demo_manager in
  reconnect_attempts m' = (reconnect_attempts demo_manager + 2)%nat /\
  reconnect_count m' = (reconnect_count demo_manager + 2)%nat /\
  subscriptions m' = subscriptions demo_manager /\
  snd (reconnect net 0 m') = Z.min (2 ^ Z.of_nat (reconnect_attempts demo_manager + 2)) 60 /\
  (1 <= snd (reconnect net 0 m') <= 60)%Z /\
  (snd (reconnect net 0 m') <= snd (reconnect net 0 (fst (reconnect net 0 m'))))%Z.
Proof.
  apply (reconnect_backs_off _ 0 demo_manager 2). reflexivity.
Defined.

(** *** Routing: what a handled frame changes *)

Lemma notify_loop_state (calls : Subscription -> list Call) (now : datetime)
    (matching : list Subscription) :
  forall (m : WebSocketManager) (acc : list Delivery),
  let res := foldl (fun a sub =>
                      (touch_subscription (sub_id sub) now (fst a),
                       snd a ++ List.map (fun c => {| d_subscription := sub_id sub;
                                                      d_call := c |}) (calls sub)))
                   (m, acc) matching in
  fst res = set_subscriptions (subscriptions (fst res)) m /\
  subscriptions (fst res)
  = foldl (fun d sub => touch_where (fun s => String.eqb (sub_id sub) (sub_id s)) now d)
          (subscriptions m) matching.
Proof.
  induction matching as [| sub matching IH]; intros m acc; cbv zeta; simpl.
  - split; [destruct m | ]; reflexivity.
  - destruct (IH (touch_subscription (sub_id sub) now m)
                 (acc ++ List.map (fun c => {| d_subscription := sub_id sub;
                                               d_call := c |}) (calls sub)))
      as [Hst Hsubs].
    split; [| exact Hsubs].
    etransitivity; [exact Hst | reflexivity].
Qed.

Lemma touch_where_evolved (p : Subscription -> bool) (now : datetime)
    (d : list (string * Subscription)) :
  Forall2 entry_evolved d (touch_where p now d).
Proof.
  induction d as [| kv d IH]; simpl; constructor; [| exact IH].
  unfold entry_evolved, same_identity.
  destruct (p (snd kv)); simpl; repeat split; lia.
Qed.

Lemma entry_evolved_trans (d1 d2 d3 : list (string * Subscription)) :
  Forall2 entry_evolved d1 d2 -> Forall2 entry_evolved d2 d3 ->
  Forall2 entry_evolved d1 d3.
Proof.
  intros H12. revert d3. induction H12 as [| a b d1 d2 Hab _ IH]; intros d3 H23.
  - inversion H23. constructor.
  - inversion H23 as [| ? c ? d3' Hbc H23']; subst. constructor; [| apply IH; exact H23'].
    destruct Hab as (Hk & (H1 & H2 & H3 & H4 & H5 & H6 & H7) & Hn).
    destruct Hbc as (Hk' & (G1 & G2 & G3 & G4 & G5 & G6 & G7) & Hn').
    unfold entry_evolved, same_identity. repeat split; try congruence. lia.
Qed.

Lemma entry_evolved_refl (d : list (string * Subscription)) :
  Forall2 entry_evolved d d.
Proof.
  induction d; constructor; [| assumption].
  unfold entry_evolved, same_identity. repeat split; lia.
Qed.

Lemma touch_fold_evolved (now : datetime) (matching : list Subscription) :
  forall d : list (string * Subscription),
  Forall2 entry_evolved d
    (foldl (fun d sub => touch_where (fun s => String.eqb (sub_id sub) (sub_id s)) now d)
           d matching).
Proof.
  induction matching as [| sub matching IH]; intros d; simpl.
  - apply entry_evolved_refl.
  - eapply entry_evolved_trans; [apply touch_where_evolved | apply IH].
Qed.

(** A typed handler is the shared loop over the subscriptions it is routed
    to. *)
Lemma handle_typed_loop (ev : TypedEvent) (now : datetime) (m : WebSocketManager) :
  handle_typed ev now m
  = notify_each (typed_calls m ev) now
      (List.filter (routed_to ev) (dict_values (subscriptions m))) m.
Proof. destruct ev; reflexivity. Qed.

(** Whatever a typed handler is given, it only rewrites the registry. *)
Lemma handler_state (m : WebSocketManager) (now : datetime) :
  (forall data, fst (_handle_price_change data now m)
     = set_subscriptions (subscriptions (fst (_handle_price_change data now m))) m /\
     Forall2 entry_evolved (subscriptions m)
       (subscriptions (fst (_handle_price_change data now m)))) /\
  (forall data, fst (_handle_orderbook_update data now m)
     = set_subscriptions (subscriptions (fst (_handle_orderbook_update data now m))) m /\
     Forall2 entry_evolved (subscriptions m)
       (subscriptions (fst (_handle_orderbook_update data now m)))) /\
  (forall data, fst (_handle_order_update data now m)
     = set_subscriptions (subscriptions (fst (_handle_order_update data now m))) m /\
     Forall2 entry_evolved (subscriptions m)
       (subscriptions (fst (_handle_order_update data now m)))) /\
  (forall data, fst (_handle_trade_update data now m)
     = set_subscriptions (subscriptions (fst (_handle_trade_update data now m))) m /\
     Forall2 entry_evolved (subscriptions m)
       (subscriptions (fst (_handle_trade_update data now m)))) /\
  (forall data, fst (_handle_market_resolution data now m)
     = set_subscriptions (subscriptions (fst (_handle_market_resolution data now m))) m /\
     Forall2 entry_evolved (subscriptions m)
       (subscriptions (fst (_handle_market_resolution data now m)))).
Proof.
  assert (Hnone : m = set_subscriptions (subscriptions m) m) by (destruct m; reflexivity).
  assert (Hloop : forall calls matching,
            fst (notify_each calls now matching m)
            = set_subscriptions (subscriptions (fst (notify_each calls now matching m))) m /\
            Forall2 entry_evolved (subscriptions m)
              (subscriptions (fst (notify_each calls now matching m)))).
  { intros calls matching. unfold notify_each.
    destruct (notify_loop_state calls now matching m []) as [Hst Hsubs].
    split; [exact Hst |]. rewrite Hsubs. apply touch_fold_evolved. }
  split; [| split; [| split; [| split]]]; intros [event |]; simpl;
    first [ apply Hloop | split; [exact Hnone | apply entry_evolved_refl] ].
Qed.

Lemma discriminator_routes (message : Message) :
  truthy_str (if truthy_str (msg_type message) then msg_type message
              else msg_event message)
  = match discriminator message with Some _ => true | None => false end /\
  (forall name, discriminator message = Some name ->
     default "" (if truthy_str (msg_type message) then msg_type message
                 else msg_event message) = name).
Proof.
  unfold discriminator.
  destruct (truthy_str (msg_type message)) eqn:Ht.
  - rewrite Ht. destruct (msg_type message) as [s |]; [| discriminate Ht].
    split; [reflexivity |]. intros name H. injection H as <-. reflexivity.
  - destruct (truthy_str (msg_event message)) eqn:He.
    + destruct (msg_event message) as [s |]; [| discriminate He].
      split; [reflexivity |]. intros name H. injection H as <-. reflexivity.
    + split; [reflexivity |]. intros name H. discriminate H.
Qed.

(** What [handle_message] does to the manager, frame by frame. *)
Lemma handle_message_step (message : Message) (now : datetime) (m : WebSocketManager) :
  let m' := fst (handle_message message now m) in
  same_connection m m' /\
  Forall2 entry_evolved (subscriptions m) (subscriptions m') /\
  match discriminator message with
  | None => handle_message message now m = (m, [])
  | Some name =>
      total_events_received m' = S (total_events_received m) /\
      events_by_type m'
      = <[name := S (default O (events_by_type m !! name))]> (events_by_type m)
  end.
Proof.
  destruct (discriminator_routes message) as (Htruthy & Hname).
  unfold handle_message. cbv zeta. rewrite Htruthy.
  destruct (discriminator message) as [name |] eqn:Hd; simpl.
  - rewrite (Hname name eq_refl).
    set (m1 := set_events_by_type _ _).
    destruct (handler_state m1 now) as (H1 & H2 & H3 & H4 & H5).
    assert (Hconn : forall subs, same_connection m (set_subscriptions subs m1))
      by (intros; unfold same_connection; simpl; auto 12).
    assert (Hgoal : forall r : WebSocketManager * list Delivery,
              fst r = set_subscriptions (subscriptions (fst r)) m1 /\
              Forall2 entry_evolved (subscriptions m1) (subscriptions (fst r)) ->
              same_connection m (fst r) /\
              Forall2 entry_evolved (subscriptions m) (subscriptions (fst r)) /\
              total_events_received (fst r) = S (total_events_received m) /\
              events_by_type (fst r)
              = <[name := S (default O (events_by_type m !! name))]> (events_by_type m)).
    { intros r [Hst Hev]. rewrite Hst. simpl. split; [apply Hconn |].
      split; [exact Hev | auto]. }
    repeat match goal with
           | |- context [if ?b then _ else _] => destruct b
           end;
      first [ apply Hgoal; first [apply H1 | apply H2 | apply H3 | apply H4 | apply H5]
            | apply (Hgoal (m1, [])); simpl; split;
              [destruct m; reflexivity | apply entry_evolved_refl] ].
  - split; [unfold same_connection; auto 12 |].
    split; [apply entry_evolved_refl | reflexivity].
Qed.

Lemma same_connection_trans (m1 m2 m3 : WebSocketManager) :
  same_connection m1 m2 -> same_connection m2 m3 -> same_connection m1 m3.
Proof.
  unfold same_connection.
  intros (A1 & A2 & A3 & A4 & A5 & A6 & A7 & A8 & A9 & A10)
         (B1 & B2 & B3 & B4 & B5 & B6 & B7 & B8 & B9 & B10).
  repeat split; congruence.
Qed.

Lemma feed_step (frames : list (Message * datetime)) :
  forall (m : WebSocketManager) (acc : list Delivery),
  fst (foldl (fun a frame =>
                let r := handle_message (fst frame) (snd frame) (fst a) in
                (fst r, snd a ++ snd r)) (m, acc) frames)
  = fst (feed frames m).
Proof.
  unfold feed. induction frames as [| frame frames IH]; intros m acc; simpl;
    [reflexivity |].
  rewrite IH. symmetry. apply IH.
Qed.

Lemma feed_cons (frame : Message * datetime) (frames : list (Message * datetime))
    (m : WebSocketManager) :
  fst (feed (frame :: frames) m)
  = fst (feed frames (fst (handle_message (fst frame) (snd frame) m))).
Proof. unfold feed at 1. simpl. apply feed_step. Qed.

(** X18: the event statistics count frames.  After any sequence of inbound
    frames, [total_events_received] has grown by the number of frames that
    carry a discriminator ([type], or else [event]), and the counter of every
    discriminator by the number of frames that carry it, whether or not a
    handler exists for it and whether or not the frame could be parsed;
    frames without a discriminator are not counted. *)
Theorem statistics_count_frames (frames : list (Message * datetime))
    (m : WebSocketManager) :
  let m' := fst (feed frames m) in
  total_events_received m' = (total_events_received m + frames_counted frames)%nat /\
  forall name : string,
    default O (events_by_type m' !! name)
    = (default O (events_by_type m !! name) + frames_named name frames)%nat.
Proof.
  revert m. induction frames as [| frame frames IH]; intros m; cbv zeta.
  - unfold feed, frames_counted, frames_named. simpl. split; [lia |]. intros; lia.
  - rewrite feed_cons.
    destruct (IH (fst (handle_message (fst frame) (snd frame) m))) as [Htot Hby].
    destruct (handle_message_step (fst frame) (snd frame) m) as (_ & _ & Hstep).
    unfold frames_counted, frames_named in *. simpl.
    destruct (discriminator (fst frame)) as [name0 |] eqn:Hd.
    + destruct Hstep as [Ht Hb].
      rewrite (bool_decide_eq_true_2 (Some name0 <> None)) by discriminate. simpl.
      split; [rewrite Htot, Ht; lia |].
      intros name. rewrite Hby, Hb.
      destruct (decide (name0 = name)) as [-> | Hne].
      * rewrite lookup_insert_eq.
        rewrite (bool_decide_eq_true_2 (Some name = Some name)) by reflexivity.
        simpl. lia.
      * rewrite lookup_insert_ne by exact Hne.
        rewrite (bool_decide_eq_false_2 (Some name0 = Some name)) by congruence.
        reflexivity.
    + rewrite Hstep in Htot, Hby. rewrite Hstep. simpl in *.
      split; [exact Htot |]. intros name. rewrite Hby. reflexivity.
Qed.

Lemma evolved_keys (d d' : list (string * Subscription)) :
  Forall2 entry_evolved d d' -> dict_keys d' = dict_keys d.
Proof.
  induction 1 as [| kv kv' d d' (Hk & _) _ IH]; simpl; [reflexivity |].
  rewrite Hk, IH. reflexivity.
Qed.

Lemma same_identity_matches (event_type : EventType) (market_id token_id : option string)
    (s s' : Subscription) :
  same_identity s s' ->
  subscription_matches event_type market_id token_id s'
  = subscription_matches event_type market_id token_id s.
Proof.
  intros (_ & Hty & _ & Hm & Ht & _). unfold subscription_matches.
  rewrite Hty, Hm, Ht. reflexivity.
Qed.

Lemma evolved_matching (event_type : EventType) (market_id token_id : option string)
    (d d' : list (string * Subscription)) :
  Forall2 entry_evolved d d' ->
  List.map sub_id (List.filter (subscription_matches event_type market_id token_id)
                               (dict_values d'))
  = List.map sub_id (List.filter (subscription_matches event_type market_id token_id)
                                 (dict_values d)).
Proof.
  induction 1 as [| kv kv' d d' (_ & Hid & _) _ IH]; simpl; [reflexivity |].
  rewrite (same_identity_matches _ _ _ _ _ Hid).
  destruct (subscription_matches event_type market_id token_id (snd kv)); simpl;
    [destruct Hid as (-> & _) |]; rewrite IH; reflexivity.
Qed.

Lemma feed_evolves (frames : list (Message * datetime)) :
  forall m : WebSocketManager,
  same_connection m (fst (feed frames m)) /\
  Forall2 entry_evolved (subscriptions m) (subscriptions (fst (feed frames m))).
Proof.
  induction frames as [| frame frames IH]; intros m.
  - unfold feed. simpl. split; [unfold same_connection; auto 12 | apply entry_evolved_refl].
  - rewrite feed_cons.
    destruct (handle_message_step (fst frame) (snd frame) m) as (Hc & He & _).
    destruct (IH (fst (handle_message (fst frame) (snd frame) m))) as [Hc' He'].
    split; [eapply same_connection_trans | eapply entry_evolved_trans]; eassumption.
Qed.

(** X19: inbound frames never change who is subscribed to what.  After any
    sequence of frames the registry has the same keys in the same order,
    every subscription has kept its id, type, channel, filters and delivery
    mode while its event counter has not gone down, any later event is routed
    to the same subscriptions as before, and the sockets, the connection
    flags and the indexes are untouched. *)
Theorem routing_is_stable (frames : list (Message * datetime)) (m : WebSocketManager) :
  let m' := fst (feed frames m) in
  dict_keys (subscriptions m') = dict_keys (subscriptions m) /\
  Forall2 entry_evolved (subscriptions m) (subscriptions m') /\
  (forall event_type market_id token_id,
     List.map sub_id (_find_matching_subscriptions m' event_type market_id token_id)
     = List.map sub_id (_find_matching_subscriptions m event_type market_id token_id)) /\
  same_connection m m'.
Proof.
  destruct (feed_evolves frames m) as [Hc He]. cbv zeta.
  split; [apply evolved_keys; exact He |]. split; [exact He |].
  split; [| exact Hc].
  intros. unfold _find_matching_subscriptions. apply evolved_matching. exact He.
Qed.

(** *** Routing: who is touched and who is called *)













(** X22: a delivery that cannot be made is skipped in silence.  A
    subscription whose delivery mode is neither "notification" nor "log", or
    whose mode's callback is not configured, is never called by any typed
    handler; with no callback configured at all a typed event makes no
    delivery whatever the registry holds. *)
Theorem undeliverable_is_skipped (ev : TypedEvent) (now : datetime)
    (m : WebSocketManager) :
  (forall s, callback_type s <> "notification" -> callback_type s <> "log" ->
     typed_calls m ev s = []) /\
  (forall s, notification_callback m = false -> callback_type s = "notification" ->
     typed_calls m ev s = []) /\
  (forall s, log_callback m = false -> callback_type s = "log" ->
     typed_calls m ev s = []) /\
  (notification_callback m = false -> log_callback m = false ->
     snd (handle_typed ev now m) = []).
Proof.
  assert (Hcalls : forall s,
            (callback_type s <> "notification" /\ callback_type s <> "log") \/
            (notification_callback m = false /\ callback_type s = "notification") \/
            (log_callback m = false /\ callback_type s = "log") \/
            (notification_callback m = false /\ log_callback m = false) ->
            typed_calls m ev s = []).
  { intros s Hcase.
    assert (Hn : String.eqb (callback_type s) "notification" && notification_callback m
                 = false).
    { destruct Hcase as [[Hn _] | [[Hcb _] | [[_ Hmode] | [Hcb _]]]].
      - apply String.eqb_neq in Hn. rewrite Hn. reflexivity.
      - rewrite Hcb. apply andb_false_r.
      - rewrite Hmode. reflexivity.
      - rewrite Hcb. apply andb_false_r. }
    assert (Hl : String.eqb (callback_type s) "log" && log_callback m = false).
    { destruct Hcase as [[_ Hl] | [[_ Hmode] | [[Hcb _] | [_ Hcb]]]].
      - apply String.eqb_neq in Hl. rewrite Hl. reflexivity.
      - rewrite Hmode. reflexivity.
      - rewrite Hcb. apply andb_false_r.
      - rewrite Hcb. apply andb_false_r. }
    destruct ev; simpl;
      unfold price_change_calls, orderbook_calls, order_calls, trade_calls,
             resolution_calls; rewrite Hn, ?Hl; reflexivity. }
  split; [intros; apply Hcalls; auto |].
  split; [intros; apply Hcalls; auto |].
  split; [intros; apply Hcalls; auto |].
  intros Hn Hl. rewrite handle_typed_loop. unfold notify_each.
  rewrite notify_each_deliveries. simpl.
  induction (List.filter (routed_to ev) (dict_values (subscriptions m)))
    as [| sub subs IH]; simpl; [reflexivity |].
  rewrite (Hcalls sub) by auto. simpl. exact IH.
Qed.

(** *** The registry and its two indexes *)

Lemma dict_set_fresh {V : Type} (k : string) (v : V) (d : list (string * V)) :
  dict_get k d = None -> dict_set k v d = d ++ [(k, v)].
Proof.
  induction d as [| [k' v'] d IH]; simpl; intros Hget; [reflexivity |].
  destruct (String.eqb k k'); [discriminate |]. rewrite IH by exact Hget. reflexivity.
Qed.

Lemma dict_del_fresh {V : Type} (k : string) (d : list (string * V)) :
  dict_get k d = None -> dict_del k d = d.
Proof.
  unfold dict_del. induction d as [| [k' v'] d IH]; simpl; intros Hget; [reflexivity |].
  destruct (String.eqb k k'); [discriminate |]. simpl. rewrite IH by exact Hget.
  reflexivity.
Qed.

Lemma dict_del_set_fresh {V : Type} (k : string) (v : V) (d : list (string * V)) :
  dict_get k d = None -> dict_del k (dict_set k v d) = d.
Proof.
  intros Hget. rewrite dict_set_fresh by exact Hget. unfold dict_del.
  rewrite List.filter_app. simpl. rewrite String.eqb_refl. simpl.
  rewrite app_nil_r. apply (dict_del_fresh k d Hget).
Qed.

Lemma unsubscribe_state (id : string) (sub : Subscription) (m : WebSocketManager) :
  dict_get id (subscriptions m) = Some sub ->
  let res := unsubscribe id m in
  subscriptions (fst res) = dict_del id (subscriptions m) /\
  market_subscriptions (fst res) =
    foldl (fun idx key => index_discard key id idx) (market_subscriptions m)
          (items (market_ids sub)) /\
  token_subscriptions (fst res) =
    foldl (fun idx key => index_discard key id idx) (token_subscriptions m)
          (items (token_ids sub)) /\
  authenticated (fst res) = authenticated m /\
  snd res = Returned true.
Proof.
  intros Hget res. unfold res, unsubscribe. rewrite Hget.
  destruct (_send_unsubscription_keeps_registry sub m) as (Hs & Hm & Ht).
  assert (Ha : authenticated (fst (_send_unsubscription sub m)) = authenticated m).
  { unfold _send_unsubscription.
    destruct (on_clob (sub_channel sub)).
    - destruct (clob_ws m) as [ws |]; [| reflexivity].
      destruct (closed ws); [reflexivity |].
      destruct (ws_send (unsubscription_frame sub) ws). reflexivity.
    - destruct (realtime_ws m) as [ws |]; [| reflexivity].
      destruct (closed ws); [reflexivity |].
      destruct (ws_send (unsubscription_frame sub) ws). reflexivity. }
  simpl. rewrite Hs, Hm, Ht, Ha. auto.
Qed.

Lemma discard_keeps_others (id id' : string) (keys : list string) :
  forall (idx : gmap string (gset string)) (k : string),
  id' <> id -> id' ∈ idx !!! k ->
  id' ∈ foldl (fun i key => index_discard key id i) idx keys !!! k.
Proof.
  induction keys as [| key keys IH]; intros idx k Hne Hin; simpl; [exact Hin |].
  apply IH; [exact Hne |]. rewrite index_discard_lookup.
  destruct (decide (key = k)); [| exact Hin].
  apply elem_of_difference. split; [exact Hin |].
  intros Hs. apply elem_of_singleton in Hs. contradiction.
Qed.

Lemma add_discard_lookup (id : string) (keys : list string)
    (idx : gmap string (gset string)) (k : string) :
  id ∉ idx !!! k ->
  foldl (fun i key => index_discard key id i)
        (foldl (fun i key => index_add key id i) idx keys) keys !!! k
  = idx !!! k.
Proof.
  intros Hfresh. apply set_eq. intros x. split.
  - intros Hx.
    destruct (discard_all_lookup id keys
                (foldl (fun i key => index_add key id i) idx keys) k) as [Hsub Hout].
    pose proof (Hsub x Hx) as Hadd.
    apply add_all_inv in Hadd as [Hold | [-> Hk]]; [exact Hold |].
    exfalso. exact (Hout Hk Hx).
  - intros Hx. apply discard_keeps_others.
    + intros ->. contradiction.
    + destruct (add_all_lookup id keys idx k) as [Hsub _]. exact (Hsub x Hx).
Qed.

Lemma index_keys_stay (id : string) (keys : list string) :
  forall (idx : gmap string (gset string)) (k : string),
  (idx !! k <> None ->
   foldl (fun i key => index_add key id i) idx keys !! k <> None /\
   foldl (fun i key => index_discard key id i) idx keys !! k <> None) /\
  (In k keys -> foldl (fun i key => index_add key id i) idx keys !! k <> None).
Proof.
  induction keys as [| key keys IH]; intros idx k; simpl.
  - split; [auto | tauto].
  - assert (Hadd : idx !! k <> None \/ key = k -> index_add key id idx !! k <> None).
    { unfold index_add. intros [Hk | ->].
      - destruct (decide (key = k)) as [-> |].
        + rewrite lookup_insert_eq. discriminate.
        + rewrite lookup_insert_ne by assumption. exact Hk.
      - rewrite lookup_insert_eq. discriminate. }
    assert (Hdis : idx !! k <> None -> index_discard key id idx !! k <> None).
    { unfold index_discard. intros Hk. destruct (decide (key = k)) as [-> |].
      - rewrite lookup_insert_eq. discriminate.
      - rewrite lookup_insert_ne by assumption. exact Hk. }
    split.
    + intros Hk. split.
      * destruct (IH (index_add key id idx) k) as [Hold _].
        apply Hold. apply Hadd. left. exact Hk.
      * destruct (IH (index_discard key id idx) k) as [Hold _].
        apply Hold. apply Hdis. exact Hk.
    + intros [-> | Hin].
      * destruct (IH (index_add k id idx) k) as [Hold _].
        apply Hold. apply Hadd. right. reflexivity.
      * destruct (IH (index_add key id idx) k) as [_ Hnew]. apply Hnew. exact Hin.
Qed.

Lemma fresh_id_unlisted (id : string) (m : WebSocketManager) :
  index_consistent m -> dict_get id (subscriptions m) = None ->
  forall k, (id ∉ market_subscriptions m !!! k) /\ (id ∉ token_subscriptions m !!! k).
Proof.
  intros Hcons Hget k. destruct (Hcons id k) as [Hm Ht]. split; intros Hin.
  - destruct (Hm Hin) as (sub & Hsome & _). congruence.
  - destruct (Ht Hin) as (sub & Hsome & _). congruence.
Qed.

Lemma auth_guard (channel : ChannelType) (m : WebSocketManager) :
  (channel = CLOB_USER -> authenticated m = true) ->
  bool_decide (channel = CLOB_USER) && negb (authenticated m) = false.
Proof.
  intros Hauth. destruct (decide (channel = CLOB_USER)) as [He | Hne].
  - rewrite (Hauth He). apply andb_false_r.
  - rewrite (bool_decide_eq_false_2 _ Hne). reflexivity.
Qed.

(** X23: subscribing and then unsubscribing the id just issued restores the
    registry.  With a fresh id and the indexes consistent, the subscription
    dict is again exactly what it was (order included), both indexes list the
    same ids under every key, and the connection's authentication state is
    untouched; what does not go back is the index's key set, where every
    market and token id named by the subscription stays as a key. *)
Theorem subscribe_unsubscribe_round_trip (event_type : EventType)
    (channel : ChannelType) (markets tokens : option (list string))
    (mode new_id : string) (now : datetime) (m : WebSocketManager) :
  (channel = CLOB_USER -> authenticated m = true) ->
  dict_get new_id (subscriptions m) = None ->
  index_consistent m ->
  let m1 := fst (subscribe event_type channel markets tokens mode new_id now m) in
  let res := unsubscribe new_id m1 in
  snd res = Returned true /\
  subscriptions (fst res) = subscriptions m /\
  (forall k, market_subscriptions (fst res) !!! k = market_subscriptions m !!! k) /\
  (forall k, token_subscriptions (fst res) !!! k = token_subscriptions m !!! k) /\
  (forall k, In k (items markets) -> market_subscriptions (fst res) !! k <> None) /\
  (forall k, In k (items tokens) -> token_subscriptions (fst res) !! k <> None) /\
  authenticated (fst res) = authenticated m.
Proof.
  intros Hauth Hfresh Hcons m1 res.
  destruct (subscribe_state event_type channel markets tokens mode new_id now m
              (auth_guard channel m Hauth)) as (Hs1 & Hm1 & Ht1 & Ha1 & _).
  fold m1 in Hs1, Hm1, Ht1, Ha1.
  assert (Hget1 : dict_get new_id (subscriptions m1)
                  = Some (new_subscription event_type channel markets tokens mode
                            new_id now)).
  { rewrite Hs1. apply dict_get_set_eq. }
  destruct (unsubscribe_state new_id _ m1 Hget1) as (Hs2 & Hm2 & Ht2 & Ha2 & Hret).
  fold res in Hs2, Hm2, Ht2, Ha2, Hret. simpl in Hm2, Ht2.
  split; [exact Hret |].
  split; [rewrite Hs2, Hs1; apply dict_del_set_fresh; exact Hfresh |].
  split; [intros k; rewrite Hm2, Hm1; apply add_discard_lookup;
          apply (fresh_id_unlisted new_id m Hcons Hfresh k) |].
  split; [intros k; rewrite Ht2, Ht1; apply add_discard_lookup;
          apply (fresh_id_unlisted new_id m Hcons Hfresh k) |].
  split.
  { intros k Hk. rewrite Hm2, Hm1.
    destruct (index_keys_stay new_id (items markets)
                (foldl (fun i key => index_add key new_id i) (market_subscriptions m)
                       (items markets)) k) as [Hold _].
    destruct (index_keys_stay new_id (items markets) (market_subscriptions m) k)
      as [_ Hnew].
    apply Hold. apply Hnew. exact Hk. }
  split.
  { intros k Hk. rewrite Ht2, Ht1.
    destruct (index_keys_stay new_id (items tokens)
                (foldl (fun i key => index_add key new_id i) (token_subscriptions m)
                       (items tokens)) k) as [Hold _].
    destruct (index_keys_stay new_id (items tokens) (token_subscriptions m) k)
      as [_ Hnew].
    apply Hold. apply Hnew. exact Hk. }
  rewrite Ha2. exact Ha1.
Qed.

Lemma subscribe_unsubscribe_round_trip_witness :
  let m := WebSocketManager_init false true true in
  let m1 := fst (subscribe PRICE_CHANGE CLOB_MARKET (Some ["M9"]) (Some ["T9"])
                   "notification" "s9" 7%Z m) in
  let res := unsubscribe "s9" m1 in
  market_subscriptions m !! "M9" = None /\
  snd res = Returned true /\
  subscriptions (fst res) = subscriptions m /\
  (forall k, market_subscriptions (fst res) !!! k = market_subscriptions m !!! k) /\
  (forall k, token_subscriptions (fst res) !!! k = token_subscriptions m !!! k) /\
  (forall k, In k (items (Some ["M9"])) -> market_subscriptions (fst res) !! k <> None) /\
  (forall k, In k (items (Some ["T9"])) -> token_subscriptions (fst res) !! k <> None) /\
  authenticated (fst res) = authenticated m.
Proof.
  split; [reflexivity |].
  apply (subscribe_unsubscribe_round_trip PRICE_CHANGE CLOB_MARKET (Some ["M9"])
           (Some ["T9"]) "notification" "s9" 7%Z (WebSocketManager_init false true true)).
  - intros H. discriminate H.
  - reflexivity.
  - apply index_consistent_init.
Defined.

(** *** The registry invariant over any sequence of calls *)

Lemma evolved_get (d d' : list (string * Subscription)) (id : string) :
  Forall2 entry_evolved d d' ->
  match dict_get id d, dict_get id d' with
  | Some sub, Some sub' => same_identity sub sub'
  | None, None => True
  | _, _ => False
  end.
Proof.
  induction 1 as [| kv kv' d d' Hkv _ IH]; simpl; [exact I |].
  destruct kv as [k v], kv' as [k' v']. destruct Hkv as (Hk & Hid & _).
  simpl in Hk, Hid. subst k'. destruct (String.eqb id k); [exact Hid | exact IH].
Qed.

Lemma evolved_keyed (d d' : list (string * Subscription)) :
  Forall2 entry_evolved d d' ->
  Forall (fun kv => fst kv = sub_id (snd kv)) d ->
  Forall (fun kv => fst kv = sub_id (snd kv)) d'.
Proof.
  induction 1 as [| kv kv' d d' Hkv _ IH]; intros Hall; [constructor |].
  inversion Hall as [| ? ? Hhead Htail]; subst.
  constructor; [| apply IH; exact Htail].
  destruct Hkv as (Hk & (Hid & _) & _). congruence.
Qed.

Lemma handle_message_keeps_invariant (message : Message) (now : datetime)
    (m : WebSocketManager) :
  registry_invariant m -> registry_invariant (fst (handle_message message now m)).
Proof.
  intros ((Hnd & Hkeyed) & Hcons & Hcomp).
  destruct (handle_message_step message now m) as (Hconn & Hev & _).
  set (m' := fst (handle_message message now m)) in *.
  destruct Hconn as (_ & _ & _ & _ & _ & Hm & Ht & _).
  split; [| split].
  - split; [rewrite (evolved_keys _ _ Hev); exact Hnd |
            exact (evolved_keyed _ _ Hev Hkeyed)].
  - intros id k. rewrite Hm, Ht. destruct (Hcons id k) as [Hmk Htk].
    pose proof (evolved_get _ _ id Hev) as Hget.
    split; intros Hin.
    + destruct (Hmk Hin) as (sub & Hsome & Hk). rewrite Hsome in Hget.
      destruct (dict_get id (subscriptions m')) as [sub' |]; [| destruct Hget].
      exists sub'. split; [reflexivity |].
      destruct Hget as (_ & _ & _ & Hmarkets & _). rewrite Hmarkets. exact Hk.
    + destruct (Htk Hin) as (sub & Hsome & Hk). rewrite Hsome in Hget.
      destruct (dict_get id (subscriptions m')) as [sub' |]; [| destruct Hget].
      exists sub'. split; [reflexivity |].
      destruct Hget as (_ & _ & _ & _ & Htokens & _). rewrite Htokens. exact Hk.
  - intros id k sub' Hsome. rewrite Hm, Ht.
    pose proof (evolved_get _ _ id Hev) as Hget. rewrite Hsome in Hget.
    destruct (dict_get id (subscriptions m)) as [sub |] eqn:Hold; [| destruct Hget].
    destruct Hget as (_ & _ & _ & Hmarkets & Htokens & _).
    rewrite Hmarkets, Htokens. exact (Hcomp id k sub Hold).
Qed.

Lemma subscribe_keeps_invariant (event_type : EventType) (channel : ChannelType)
    (markets tokens : option (list string)) (mode new_id : string)
    (now : datetime) (m : WebSocketManager) :
  registry_invariant m -> dict_get new_id (subscriptions m) = None ->
  registry_invariant
    (fst (subscribe event_type channel markets tokens mode new_id now m)).
Proof.
  intros ((Hnd & Hkeyed) & Hcons & Hcomp) Hfresh.
  split; [| split].
  - destruct (bool_decide (channel = CLOB_USER) && negb (authenticated m)) eqn:Hguard.
    { unfold subscribe. rewrite Hguard. split; assumption. }
    destruct (subscribe_state event_type channel markets tokens mode new_id now m Hguard)
      as (Hs & _).
    unfold registry_keyed. rewrite Hs, dict_set_fresh by exact Hfresh. split.
    + unfold dict_keys. rewrite List.map_app. simpl.
      apply NoDup_ListNoDup. apply NoDup_app. split; [| split].
      * apply NoDup_ListNoDup. exact Hnd.
      * intros x Hx Hx'. apply list_elem_of_In in Hx, Hx'.
        destruct Hx' as [<- | []].
        apply (dict_get_keys new_id (subscriptions m)) in Hx. contradiction.
      * apply NoDup_singleton.
    + apply Forall_app. split; [exact Hkeyed |]. constructor; [reflexivity | constructor].
  - apply subscribe_keeps_index_consistent; assumption.
  - destruct (bool_decide (channel = CLOB_USER) && negb (authenticated m)) eqn:Hguard.
    { unfold subscribe. rewrite Hguard. exact Hcomp. }
    destruct (subscribe_state event_type channel markets tokens mode new_id now m Hguard)
      as (Hs & Hm & Ht & _).
    intros id k sub. rewrite Hs, Hm, Ht. intros Hsome.
    destruct (add_all_lookup new_id (items markets) (market_subscriptions m) k)
      as [Hmsub Hmnew].
    destruct (add_all_lookup new_id (items tokens) (token_subscriptions m) k)
      as [Htsub Htnew].
    destruct (decide (new_id = id)) as [<- | Hne].
    + rewrite dict_get_set_eq in Hsome. injection Hsome as <-. simpl.
      split; assumption.
    + rewrite dict_get_set_ne in Hsome by exact Hne.
      destruct (Hcomp id k sub Hsome) as [Hmk Htk].
      split; intros Hk; [apply Hmsub, Hmk, Hk | apply Htsub, Htk, Hk].
Qed.

Lemma unsubscribe_keeps_invariant (id : string) (m : WebSocketManager) :
  registry_invariant m -> registry_invariant (fst (unsubscribe id m)).
Proof.
  intros ((Hnd & Hkeyed) & Hcons & Hcomp).
  split; [| split].
  - destruct (dict_get id (subscriptions m)) as [sub |] eqn:Hget.
    + destruct (unsubscribe_state id sub m Hget) as (Hs & _).
      unfold registry_keyed. rewrite Hs. unfold dict_del, dict_keys. split.
      * clear -Hnd. unfold dict_keys in Hnd.
        induction (subscriptions m) as [| kv d IH]; simpl; [constructor |].
        inversion Hnd as [| ? ? Hnot Hnd']; subst.
        destruct (negb (String.eqb id (fst kv))); simpl; [| apply IH; exact Hnd'].
        constructor; [| apply IH; exact Hnd'].
        intros Hin. apply Hnot. apply List.in_map_iff in Hin as (x & Hx & Hin).
        apply List.filter_In in Hin as [Hin _]. rewrite <- Hx.
        apply List.in_map. exact Hin.
      * clear -Hkeyed.
        induction Hkeyed as [| kv d Hhead _ IH]; simpl; [constructor |].
        destruct (negb (String.eqb id (fst kv))); [constructor |]; assumption.
    + unfold unsubscribe. rewrite Hget. split; assumption.
  - apply unsubscribe_keeps_index_consistent. exact Hcons.
  - destruct (dict_get id (subscriptions m)) as [sub |] eqn:Hget.
    + destruct (unsubscribe_state id sub m Hget) as (Hs & Hm & Ht & _).
      intros id' k sub'. rewrite Hs, Hm, Ht. intros Hsome.
      destruct (decide (id = id')) as [<- | Hne].
      { rewrite dict_get_del_eq in Hsome. discriminate. }
      rewrite dict_get_del_ne in Hsome by exact Hne.
      destruct (Hcomp id' k sub' Hsome) as [Hmk Htk].
      split; intros Hk; apply discard_keeps_others; auto.
    + unfold unsubscribe. rewrite Hget. exact Hcomp.
Qed.

(** X24: the indexes are the exact inverse of the registry, whatever is
    called.  Starting from a manager where the registry is keyed by distinct
    subscription ids and the market and token indexes list an id under a key
    exactly when the registered subscription names that key, any sequence of
    subscribe, unsubscribe and handle_message calls (failed sends included)
    ends in such a manager, provided no subscribe draws an id that is
    registered at that moment; a new manager is in that state. *)
Theorem registry_invariant_preserved (cs : list RegistryCall) :
  (forall m : WebSocketManager,
     registry_invariant m -> ids_fresh cs m ->
     registry_invariant (calls cs m) /\
     forall id k,
       (id ∈ market_subscriptions (calls cs m) !!! k <->
        exists sub, dict_get id (subscriptions (calls cs m)) = Some sub /\
                    In k (items (market_ids sub))) /\
       (id ∈ token_subscriptions (calls cs m) !!! k <->
        exists sub, dict_get id (subscriptions (calls cs m)) = Some sub /\
                    In k (items (token_ids sub)))) /\
  (forall credentials notification log,
     registry_invariant (WebSocketManager_init credentials notification log)).
Proof.
  split.
  - intros m Hinv Hfresh.
    assert (Hend : registry_invariant (calls cs m)).
    { revert m Hinv Hfresh. induction cs as [| c cs IH]; intros m Hinv Hfresh; simpl.
      - exact Hinv.
      - destruct Hfresh as [Hc Hrest]. apply IH; [| exact Hrest].
        destruct c as [event_type channel markets tokens mode new_id now | id
                      | message now]; simpl.
        + apply subscribe_keeps_invariant; assumption.
        + apply unsubscribe_keeps_invariant; assumption.
        + apply handle_message_keeps_invariant; assumption. }
    split; [exact Hend |].
    destruct Hend as (_ & Hcons & Hcomp). intros id k.
    destruct (Hcons id k) as [Hm Ht]. split; split.
    + exact Hm.
    + intros (sub & Hsome & Hk). exact (proj1 (Hcomp id k sub Hsome) Hk).
    + exact Ht.
    + intros (sub & Hsome & Hk). exact (proj2 (Hcomp id k sub Hsome) Hk).
  - intros credentials notification log. split; [| split].
    + split; simpl; constructor.
    + apply index_consistent_init.
    + intros id k sub Hsome. simpl in Hsome. discriminate.
Qed.

Lemma registry_invariant_preserved_witness :
  let cs := [CallSubscribe PRICE_CHANGE CLOB_MARKET (Some ["M1"]) (Some ["T1"])
               "notification" "a" 1%Z;
             CallSubscribe AGG_ORDERBOOK CLOB_MARKET None (Some ["T1"]) "log" "b" 2%Z;
             CallHandle price_message 3%Z;
             CallUnsubscribe "a"] in
  let m := calls cs (WebSocketManager_init false true true) in
  registry_invariant m /\
  dict_keys (subscriptions m) = ["b"] /\
  token_subscriptions m !!! "T1" = {["b"]}.
Proof.
  pose proof (registry_invariant_preserved
                [CallSubscribe PRICE_CHANGE CLOB_MARKET (Some ["M1"]) (Some ["T1"])
                   "notification" "a" 1%Z;
                 CallSubscribe AGG_ORDERBOOK CLOB_MARKET None (Some ["T1"]) "log" "b" 2%Z;
                 CallHandle price_message 3%Z;
                 CallUnsubscribe "a"]) as [Hkeep Hinit].
  destruct (Hkeep (WebSocketManager_init false true true) (Hinit false true true))
    as [Hinv _].
  - simpl. repeat split; reflexivity.
  - split; [exact Hinv |]. split; [reflexivity |]. vm_compute. reflexivity.
Defined.

(** *** The status report of the manager *)

Lemma by_type_partition (subs : list Subscription) :
  list_sum (List.map (fun event_type =>
                        length (List.filter
                                  (fun s => bool_decide (sub_type s = event_type)) subs))
                     all_event_types)
  = length subs.
Proof.
  induction subs as [| s subs IH]; [reflexivity |].
  simpl in *. destruct (sub_type s); simpl; lia.
Qed.

(** X25: the status report is consistent with itself.  The per-type counts
    cover every event type once, in declaration order, and add up to the
    reported total; the total is the number of rows under "active"; the rows
    come in registry order and carry the ids of the registry; a type is
    reported with count zero exactly when no registered subscription has it. *)
Theorem get_status_consistent (should_run task_exists : bool) (m : WebSocketManager) :
  let st := get_status should_run task_exists m in
  List.map fst (st_by_type st) = all_event_types /\
  list_sum (List.map snd (st_by_type st)) = st_total st /\
  length (st_active st) = st_total st /\
  List.map row_id (st_active st) = List.map sub_id (dict_values (subscriptions m)) /\
  (forall event_type n, In (event_type, n) (st_by_type st) ->
     (n <= st_total st)%nat /\
     (n = O <-> forall s, In s (dict_values (subscriptions m)) ->
                          sub_type s <> event_type)).
Proof.
  intros st. unfold st, get_status. cbn [st_by_type st_total st_active].
  split; [reflexivity |].
  split.
  { rewrite List.map_map. cbn [snd].
    rewrite <- (List.length_map snd (subscriptions m)).
    exact (by_type_partition (dict_values (subscriptions m))). }
  split; [unfold dict_values; rewrite !List.length_map; reflexivity |].
  split; [rewrite List.map_map; reflexivity |].
  intros event_type n Hin. apply List.in_map_iff in Hin as (et & Heq & _).
  injection Heq as -> <-. split.
  - rewrite <- (List.length_map snd (subscriptions m)). apply List.filter_length_le.
  - split.
    + intros Hzero s Hs Htype.
      assert (Hmem : In s (List.filter (fun s => bool_decide (sub_type s = event_type))
                                       (dict_values (subscriptions m)))).
      { apply List.filter_In. split; [exact Hs |]. apply bool_decide_eq_true_2.
        exact Htype. }
      apply List.length_zero_iff_nil in Hzero. rewrite Hzero in Hmem. destruct Hmem.
    + intros Hnone.
      destruct (List.filter (fun s => bool_decide (sub_type s = event_type))
                            (dict_values (subscriptions m))) as [| s rest] eqn:Hf;
        [reflexivity |].
      assert (Hmem : In s (List.filter (fun s => bool_decide (sub_type s = event_type))
                                       (dict_values (subscriptions m)))).
      { rewrite Hf. left. reflexivity. }
      apply List.filter_In in Hmem as [Hs Htype].
      apply bool_decide_eq_true_1 in Htype. exfalso. exact (Hnone s Hs Htype).
Qed.

End WebSocketMore.

Module RealtimeToolsFacts.

Import Py WebSocket WebSocketStatus RealtimeTools WebSocketFacts WebSocketMore.
Local Open Scope string_scope.
Local Open Scope list_scope.

Lemma _send_subscription_cases (s : Subscription) (m : WebSocketManager) :
  snd (_send_subscription s m) = Returned tt \/
  exists e, snd (_send_subscription s m) = Raised e.
Proof.
  unfold _send_subscription. destruct (on_clob (sub_channel s)).
  - destruct (negb (clob_connected m)); [right; eexists; reflexivity |].
    destruct (clob_ws m) as [ws |]; [| right; eexists; reflexivity].
    destruct (ws_send_cases (subscription_frame s) ws) as [[Ho _] | [Ho _]];
      destruct (ws_send (subscription_frame s) ws) as [ws' o]; simpl in *; subst o;
      [left | right; eexists]; reflexivity.
  - destruct (negb (realtime_connected m)); [right; eexists; reflexivity |].
    destruct (realtime_ws m) as [ws |]; [| right; eexists; reflexivity].
    destruct (ws_send_cases (subscription_frame s) ws) as [[Ho _] | [Ho _]];
      destruct (ws_send (subscription_frame s) ws) as [ws' o]; simpl in *; subst o;
      [left | right; eexists]; reflexivity.
Qed.

Lemma subscribe_cases (event_type : EventType) (channel : ChannelType)
    (markets tokens : option (list string)) (mode new_id : string)
    (now : datetime) (m : WebSocketManager) :
  snd (subscribe event_type channel markets tokens mode new_id now m) = Returned new_id \/
  exists e, snd (subscribe event_type channel markets tokens mode new_id now m) = Raised e.
Proof.
  destruct (bool_decide (channel = CLOB_USER) && negb (authenticated m)) eqn:Hguard.
  - right. unfold subscribe. rewrite Hguard. eexists. reflexivity.
  - destruct (subscribe_state event_type channel markets tokens mode new_id now m Hguard)
      as (_ & _ & _ & _ & Hout).
    rewrite Hout.
    destruct (_send_subscription_cases
                (new_subscription event_type channel markets tokens mode new_id now) m)
      as [Ho | [e Ho]]; rewrite Ho; [left | right; eexists]; reflexivity.
Qed.

Lemma unsubscribe_cases (id : string) (m : WebSocketManager) :
  (dict_get id (subscriptions m) = None /\ unsubscribe id m = (m, Returned false)) \/
  (dict_get id (subscriptions m) <> None /\ snd (unsubscribe id m) = Returned true).
Proof.
  destruct (dict_get id (subscriptions m)) as [sub |] eqn:Hget.
  - right. split; [discriminate |].
    destruct (unsubscribe_state id sub m Hget) as (_ & _ & _ & _ & Hret). exact Hret.
  - left. split; [reflexivity |]. unfold unsubscribe. rewrite Hget. reflexivity.
Qed.

Lemma handlers_reply (env : Environment) (arguments : ToolArguments)
    (m : WebSocketManager) :
  (exists r, snd (_subscribe_market_prices (env_new_id env) (env_now env) arguments m)
             = Returned r /\ handler_reply r) /\
  (exists r, snd (_subscribe_orderbook_updates (env_new_id env) (env_now env) arguments m)
             = Returned r /\ handler_reply r) /\
  (exists r, snd (_subscribe_user_orders (env_new_id env) (env_now env) arguments m)
             = Returned r /\ handler_reply r) /\
  (exists r, snd (_subscribe_user_trades (env_new_id env) (env_now env) arguments m)
             = Returned r /\ handler_reply r) /\
  (exists r, snd (_subscribe_market_resolution (env_new_id env) (env_now env) arguments m)
             = Returned r /\ handler_reply r) /\
  (exists r, snd (_get_realtime_status (env_should_run env) (env_task_exists env)
                    arguments m) = Returned r /\ handler_reply r) /\
  (exists r, snd (_unsubscribe_realtime arguments m) = Returned r /\ handler_reply r).
Proof.
  assert (Hsub : forall event_type channel markets tokens mode,
            snd (subscribe event_type channel markets tokens mode (env_new_id env)
                   (env_now env) m) = Returned (env_new_id env) \/
            exists e, snd (subscribe event_type channel markets tokens mode
                             (env_new_id env) (env_now env) m) = Raised e)
    by (intros; apply subscribe_cases).
  split; [| split; [| split; [| split; [| split; [| split]]]]].
  - unfold _subscribe_market_prices.
    destruct (negb (truthy_list (Some (default [] (arg_market_ids arguments)))));
      [eexists; split; [reflexivity | exact I] |].
    destruct (Hsub PRICE_CHANGE CLOB_MARKET (Some (default [] (arg_market_ids arguments)))
                None (default "notification" (arg_callback_type arguments)))
      as [Ho | [e Ho]];
      destruct (subscribe _ _ _ _ _ _ _ _) as [m' o]; simpl in Ho; subst o;
      eexists; split; first [reflexivity | exact I].
  - unfold _subscribe_orderbook_updates.
    destruct (negb (truthy_list (Some (default [] (arg_token_ids arguments)))));
      [eexists; split; [reflexivity | exact I] |].
    destruct (Hsub AGG_ORDERBOOK CLOB_MARKET None
                (Some (default [] (arg_token_ids arguments)))
                (default "notification" (arg_callback_type arguments)))
      as [Ho | [e Ho]];
      destruct (subscribe _ _ _ _ _ _ _ _) as [m' o]; simpl in Ho; subst o;
      eexists; split; first [reflexivity | exact I].
  - unfold _subscribe_user_orders.
    destruct (Hsub ORDER CLOB_USER (arg_market_ids arguments) None
                (default "notification" (arg_callback_type arguments)))
      as [Ho | [e Ho]];
      destruct (subscribe _ _ _ _ _ _ _ _) as [m' o]; simpl in Ho; subst o;
      [| destruct e]; eexists; split; first [reflexivity | exact I].
  - unfold _subscribe_user_trades.
    destruct (Hsub TRADE CLOB_USER (arg_market_ids arguments) None
                (default "notification" (arg_callback_type arguments)))
      as [Ho | [e Ho]];
      destruct (subscribe _ _ _ _ _ _ _ _) as [m' o]; simpl in Ho; subst o;
      [| destruct e]; eexists; split; first [reflexivity | exact I].
  - unfold _subscribe_market_resolution.
    destruct (negb (truthy_list (Some (default [] (arg_market_ids arguments)))));
      [eexists; split; [reflexivity | exact I] |].
    destruct (Hsub MARKET_RESOLVED CLOB_MARKET
                (Some (default [] (arg_market_ids arguments))) None
                (default "notification" (arg_callback_type arguments)))
      as [Ho | [e Ho]];
      destruct (subscribe _ _ _ _ _ _ _ _) as [m' o]; simpl in Ho; subst o;
      eexists; split; first [reflexivity | exact I].
  - eexists. split; [reflexivity | exact I].
  - unfold _unsubscribe_realtime.
    destruct (negb (truthy_str (arg_subscription_id arguments)));
      [eexists; split; [reflexivity | exact I] |].
    destruct (unsubscribe_cases (default "" (arg_subscription_id arguments)) m)
      as [[_ Ho] | [_ Ho]].
    + rewrite Ho. eexists. split; [reflexivity | exact I].
    + destruct (unsubscribe _ m) as [m' o]. simpl in Ho. subst o.
      eexists. split; [reflexivity | exact I].
Qed.

Lemma dispatch_replies (env : Environment) (name : string) (arguments : ToolArguments)
    (m : WebSocketManager) :
  exists r, snd (dispatch env name arguments m) = Returned r /\
            (In name (List.map tool_name get_tools) -> handler_reply r) /\
            (~ In name (List.map tool_name get_tools) ->
             dispatch env name arguments m = (m, Returned (UnknownTool name))).
Proof.
  destruct (handlers_reply env arguments m)
    as ((r1 & H1 & P1) & (r2 & H2 & P2) & (r3 & H3 & P3) & (r4 & H4 & P4) &
        (r5 & H5 & P5) & (r6 & H6 & P6) & (r7 & H7 & P7)).
  unfold dispatch.
  destruct (String.eqb name "subscribe_market_prices") eqn:E1.
  { apply String.eqb_eq in E1. exists r1. split; [exact H1 |]. split; [auto |].
    intros Hn. exfalso. apply Hn. subst name. simpl. tauto. }
  destruct (String.eqb name "subscribe_orderbook_updates") eqn:E2.
  { apply String.eqb_eq in E2. exists r2. split; [exact H2 |]. split; [auto |].
    intros Hn. exfalso. apply Hn. subst name. simpl. tauto. }
  destruct (String.eqb name "subscribe_user_orders") eqn:E3.
  { apply String.eqb_eq in E3. exists r3. split; [exact H3 |]. split; [auto |].
    intros Hn. exfalso. apply Hn. subst name. simpl. tauto. }
  destruct (String.eqb name "subscribe_user_trades") eqn:E4.
  { apply String.eqb_eq in E4. exists r4. split; [exact H4 |]. split; [auto |].
    intros Hn. exfalso. apply Hn. subst name. simpl. tauto. }
  destruct (String.eqb name "subscribe_market_resolution") eqn:E5.
  { apply String.eqb_eq in E5. exists r5. split; [exact H5 |]. split; [auto |].
    intros Hn. exfalso. apply Hn. subst name. simpl. tauto. }
  destruct (String.eqb name "get_realtime_status") eqn:E6.
  { apply String.eqb_eq in E6. exists r6. split; [exact H6 |]. split; [auto |].
    intros Hn. exfalso. apply Hn. subst name. simpl. tauto. }
  destruct (String.eqb name "unsubscribe_realtime") eqn:E7.
  { apply String.eqb_eq in E7. exists r7. split; [exact H7 |]. split; [auto |].
    intros Hn. exfalso. apply Hn. subst name. simpl. tauto. }
  exists (UnknownTool name). split; [reflexivity |]. split; [| reflexivity].
  apply String.eqb_neq in E1, E2, E3, E4, E5, E6, E7.
  simpl. intros [H | [H | [H | [H | [H | [H | [H | []]]]]]]]; congruence.
Qed.

(** X26: a tool call always ends in a reply.  Whatever the name, the
    arguments and the state of the manager, [handle_tool_call] returns one
    reply and never lets an exception out; without a registered manager the
    reply says so and nothing is created; a name that [get_tools] does not
    advertise gets the unknown-tool reply and leaves the manager as it was;
    and each of the seven advertised names reaches a handler. *)
Theorem tool_call_always_replies (env : Environment) (name : string)
    (arguments : ToolArguments) (global : option WebSocketManager) :
  let res := handle_tool_call env name arguments global in
  (exists r, snd res = Returned r) /\
  (global = None -> res = (None, Returned NotInitialized)) /\
  (forall m, global = Some m -> ~ In name (List.map tool_name get_tools) ->
     res = (Some m, Returned (UnknownTool name))) /\
  (forall m, global = Some m -> In name (List.map tool_name get_tools) ->
     exists m' r, res = (Some m', Returned r) /\ handler_reply r) /\
  length get_tools = 7%nat /\ List.NoDup (List.map tool_name get_tools).
Proof.
  intros res. unfold res, handle_tool_call.
  split; [| split; [| split; [| split; [| split]]]].
  - destruct global as [m |]; [| eexists; reflexivity].
    destruct (dispatch_replies env name arguments m) as (r & Hr & _).
    destruct (dispatch env name arguments m) as [m' o]. simpl in Hr. subst o.
    eexists. reflexivity.
  - intros ->. reflexivity.
  - intros m -> Hn.
    destruct (dispatch_replies env name arguments m) as (r & _ & _ & Hu).
    rewrite (Hu Hn). reflexivity.
  - intros m -> Hin.
    destruct (dispatch_replies env name arguments m) as (r & Hr & Hp & _).
    destruct (dispatch env name arguments m) as [m' o]. simpl in Hr. subst o.
    exists m', r. split; [reflexivity | exact (Hp Hin)].
  - reflexivity.
  - simpl. repeat (constructor; [simpl; intuition discriminate |]). constructor.
Qed.

(** X27: the handlers enforce the schema's required arguments.  For every
    advertised tool and every argument its input schema lists as required, a
    call that leaves the argument out, or gives it empty, is answered with
    the required-argument reply and leaves the manager exactly as it was: no
    subscription is registered and nothing is sent. *)
Theorem required_arguments_enforced (env : Environment) (tool : Tool) (field : string)
    (arguments : ToolArguments) (m : WebSocketManager) :
  In tool get_tools -> In field (tool_required tool) ->
  provides field arguments = false ->
  handle_tool_call env (tool_name tool) arguments (Some m)
  = (Some m, Returned (Required field)).
Proof.
  intros Htool Hfield Hmiss. simpl in Htool.
  destruct Htool as [<- | [<- | [<- | [<- | [<- | [<- | [<- | []]]]]]]];
    simpl in Hfield; try (destruct Hfield; fail);
    destruct Hfield as [<- | []]; unfold provides in Hmiss; simpl in Hmiss;
    unfold handle_tool_call, dispatch; simpl.
  - unfold _subscribe_market_prices.
    destruct (arg_market_ids arguments) as [[| x l] |]; simpl in *;
      first [discriminate | reflexivity].
  - unfold _subscribe_orderbook_updates.
    destruct (arg_token_ids arguments) as [[| x l] |]; simpl in *;
      first [discriminate | reflexivity].
  - unfold _subscribe_market_resolution.
    destruct (arg_market_ids arguments) as [[| x l] |]; simpl in *;
      first [discriminate | reflexivity].
  - unfold _unsubscribe_realtime. rewrite Hmiss. reflexivity.
Qed.

Lemma required_arguments_enforced_witness :
  handle_tool_call demo_env "subscribe_orderbook_updates" no_arguments
    (Some demo_manager)
  = (Some demo_manager, Returned (Required "token_ids")).
Proof.
  apply (required_arguments_enforced demo_env
           {| tool_name := "subscribe_orderbook_updates";
              tool_required := ["token_ids"] |} "token_ids" no_arguments
           demo_manager).
  - simpl. tauto.
  - simpl. tauto.
  - reflexivity.
Defined.

Lemma handle_tool_call_pair (env : Environment) (name : string)
    (arguments : ToolArguments) (m : WebSocketManager) :
  handle_tool_call env name arguments (Some m)
  = (Some (fst (dispatch env name arguments m)),
     match snd (dispatch env name arguments m) with
     | Raised e => Returned (ToolError e)
     | o => o
     end).
Proof.
  unfold handle_tool_call.
  destruct (dispatch env name arguments m) as [m' [r | e |]]; reflexivity.
Qed.

(** The five subscribing handlers once their guard is passed: the manager is
    the one [subscribe] leaves, and the reply is made from its outcome. *)
Lemma subscribe_tools_unfold (new_id : string) (now : datetime)
    (arguments : ToolArguments) (m : WebSocketManager) :
  let mode := default "notification" (arg_callback_type arguments) in
  (truthy_list (arg_market_ids arguments) = true ->
   _subscribe_market_prices new_id now arguments m
   = let res := subscribe PRICE_CHANGE CLOB_MARKET (arg_market_ids arguments) None
                  mode new_id now m in
     (fst res, match snd res with
               | Returned id =>
                   Returned (PriceSubscriptionCreated id
                               (length (items (arg_market_ids arguments))) mode)
               | Raised e => Returned (SubscribeFailed "market prices" e)
               | Pending => Pending
               end)) /\
  (truthy_list (arg_token_ids arguments) = true ->
   _subscribe_orderbook_updates new_id now arguments m
   = let res := subscribe AGG_ORDERBOOK CLOB_MARKET None (arg_token_ids arguments)
                  mode new_id now m in
     (fst res, match snd res with
               | Returned id =>
                   Returned (OrderbookSubscriptionCreated id
                               (length (items (arg_token_ids arguments)))
                               (default 10%Z (arg_depth arguments)) mode)
               | Raised e => Returned (SubscribeFailed "orderbook updates" e)
               | Pending => Pending
               end)) /\
  (_subscribe_user_orders new_id now arguments m
   = let res := subscribe ORDER CLOB_USER (arg_market_ids arguments) None
                  mode new_id now m in
     (fst res, match snd res with
               | Returned id =>
                   Returned (UserOrderSubscriptionCreated id
                               (market_filter (arg_market_ids arguments)) mode)
               | Raised (RuntimeError msg) =>
                   Returned (AuthenticationRequired "order" (RuntimeError msg))
               | Raised e => Returned (SubscribeFailed "user orders" e)
               | Pending => Pending
               end)) /\
  (_subscribe_user_trades new_id now arguments m
   = let res := subscribe TRADE CLOB_USER (arg_market_ids arguments) None
                  mode new_id now m in
     (fst res, match snd res with
               | Returned id =>
                   Returned (UserTradeSubscriptionCreated id
                               (market_filter (arg_market_ids arguments)) mode)
               | Raised (RuntimeError msg) =>
                   Returned (AuthenticationRequired "trade" (RuntimeError msg))
               | Raised e => Returned (SubscribeFailed "user trades" e)
               | Pending => Pending
               end)) /\
  (truthy_list (arg_market_ids arguments) = true ->
   _subscribe_market_resolution new_id now arguments m
   = let res := subscribe MARKET_RESOLVED CLOB_MARKET (arg_market_ids arguments) None
                  mode new_id now m in
     (fst res, match snd res with
               | Returned id =>
                   Returned (ResolutionSubscriptionCreated id
                               (length (items (arg_market_ids arguments))) mode)
               | Raised e => Returned (SubscribeFailed "market resolution" e)
               | Pending => Pending
               end)).
Proof.
  intros mode. unfold mode.
  split; [| split; [| split; [| split]]].
  - unfold _subscribe_market_prices.
    destruct (arg_market_ids arguments) as [[| x l] |]; simpl; try discriminate.
    intros _. destruct (subscribe _ _ _ _ _ _ _ _) as [m' [id | e |]]; reflexivity.
  - unfold _subscribe_orderbook_updates.
    destruct (arg_token_ids arguments) as [[| x l] |]; simpl; try discriminate.
    intros _. destruct (subscribe _ _ _ _ _ _ _ _) as [m' [id | e |]]; reflexivity.
  - unfold _subscribe_user_orders.
    destruct (subscribe _ _ _ _ _ _ _ _) as [m' [id | e |]];
      [| destruct e |]; reflexivity.
  - unfold _subscribe_user_trades.
    destruct (subscribe _ _ _ _ _ _ _ _) as [m' [id | e |]];
      [| destruct e |]; reflexivity.
  - unfold _subscribe_market_resolution.
    destruct (arg_market_ids arguments) as [[| x l] |]; simpl; try discriminate.
    intros _. destruct (subscribe _ _ _ _ _ _ _ _) as [m' [id | e |]]; reflexivity.
Qed.

Lemma subscribe_disconnected (event_type : EventType) (channel : ChannelType)
    (markets tokens : option (list string)) (mode new_id : string)
    (now : datetime) (m : WebSocketManager) :
  clob_connected m = false -> on_clob channel = true ->
  (channel = CLOB_USER -> authenticated m = true) ->
  let res := subscribe event_type channel markets tokens mode new_id now m in
  snd res = Raised (RuntimeError "CLOB WebSocket not connected") /\
  dict_get new_id (subscriptions (fst res))
  = Some (new_subscription event_type channel markets tokens mode new_id now).
Proof.
  intros Hdown Hclob Hauth res.
  destruct (subscribe_stores event_type channel markets tokens mode new_id now m
              (auth_guard channel m Hauth)) as (Hget & _ & _ & Hout).
  fold res in Hget, Hout. split; [| exact Hget].
  rewrite Hout. unfold _send_subscription. simpl. rewrite Hclob, Hdown. reflexivity.
Qed.

(** X28: a subscription whose send fails stays registered, and the caller is
    not told its id.  With the CLOB socket not connected, each of the five
    subscribing tools (given its required arguments, and for the two user
    tools an authenticated manager) answers with an error reply that carries
    no subscription id, while the manager it leaves holds a new subscription
    under the id drawn for the call.  The two user tools report the lost
    connection as "Authentication required", because their handler for
    RuntimeError does not tell the two causes apart. *)
Theorem failed_subscription_stays_registered (env : Environment) (name : string)
    (arguments : ToolArguments) (m : WebSocketManager) :
  clob_connected m = false ->
  In name ["subscribe_market_prices"; "subscribe_orderbook_updates";
           "subscribe_user_orders"; "subscribe_user_trades";
           "subscribe_market_resolution"] ->
  (forall tool field, In tool get_tools -> tool_name tool = name ->
     In field (tool_required tool) -> provides field arguments = true) ->
  (name = "subscribe_user_orders" \/ name = "subscribe_user_trades" ->
   authenticated m = true) ->
  exists m' r,
    handle_tool_call env name arguments (Some m) = (Some m', Returned r) /\
    created_id r = None /\
    (exists sub, dict_get (env_new_id env) (subscriptions m') = Some sub /\
                 sub_id sub = env_new_id env /\ created_at sub = env_now env) /\
    (r = SubscribeFailed "market prices" (RuntimeError "CLOB WebSocket not connected") \/
     r = SubscribeFailed "orderbook updates"
           (RuntimeError "CLOB WebSocket not connected") \/
     r = AuthenticationRequired "order" (RuntimeError "CLOB WebSocket not connected") \/
     r = AuthenticationRequired "trade" (RuntimeError "CLOB WebSocket not connected") \/
     r = SubscribeFailed "market resolution"
           (RuntimeError "CLOB WebSocket not connected")) /\
    (name = "subscribe_user_orders" ->
     r = AuthenticationRequired "order" (RuntimeError "CLOB WebSocket not connected")) /\
    (name = "subscribe_user_trades" ->
     r = AuthenticationRequired "trade" (RuntimeError "CLOB WebSocket not connected")).
Proof.
  intros Hdown Hname Hreq Hauth.
  destruct (subscribe_tools_unfold (env_new_id env) (env_now env) arguments m)
    as (Hprices & Hbook & Horders & Htrades & Hres).
  rewrite handle_tool_call_pair.
  simpl in Hname.
  destruct Hname as [<- | [<- | [<- | [<- | [<- | []]]]]];
    unfold dispatch; simpl String.eqb; cbv iota.
  - rewrite Hprices
      by (apply (Hreq {| tool_name := "subscribe_market_prices";
                         tool_required := ["market_ids"] |} "market_ids");
          simpl; tauto).
    destruct (subscribe_disconnected PRICE_CHANGE CLOB_MARKET (arg_market_ids arguments)
                None (default "notification" (arg_callback_type arguments))
                (env_new_id env) (env_now env) m Hdown eq_refl)
      as [Hout Hget]; [discriminate |].
    simpl. rewrite Hout. eexists _, _. split; [reflexivity |].
    split; [reflexivity |]. split; [eexists; split; [exact Hget | split; reflexivity] |].
    split; [tauto |]. split; discriminate.
  - rewrite Hbook
      by (apply (Hreq {| tool_name := "subscribe_orderbook_updates";
                         tool_required := ["token_ids"] |} "token_ids");
          simpl; tauto).
    destruct (subscribe_disconnected AGG_ORDERBOOK CLOB_MARKET None
                (arg_token_ids arguments)
                (default "notification" (arg_callback_type arguments))
                (env_new_id env) (env_now env) m Hdown eq_refl)
      as [Hout Hget]; [discriminate |].
    simpl. rewrite Hout. eexists _, _. split; [reflexivity |].
    split; [reflexivity |]. split; [eexists; split; [exact Hget | split; reflexivity] |].
    split; [tauto |]. split; discriminate.
  - rewrite Horders.
    destruct (subscribe_disconnected ORDER CLOB_USER (arg_market_ids arguments)
                None (default "notification" (arg_callback_type arguments))
                (env_new_id env) (env_now env) m Hdown eq_refl)
      as [Hout Hget]; [tauto |].
    simpl. rewrite Hout. eexists _, _. split; [reflexivity |].
    split; [reflexivity |]. split; [eexists; split; [exact Hget | split; reflexivity] |].
    split; [tauto |]. split; [reflexivity | discriminate].
  - rewrite Htrades.
    destruct (subscribe_disconnected TRADE CLOB_USER (arg_market_ids arguments)
                None (default "notification" (arg_callback_type arguments))
                (env_new_id env) (env_now env) m Hdown eq_refl)
      as [Hout Hget]; [tauto |].
    simpl. rewrite Hout. eexists _, _. split; [reflexivity |].
    split; [reflexivity |]. split; [eexists; split; [exact Hget | split; reflexivity] |].
    split; [tauto |]. split; [discriminate | reflexivity].
  - rewrite Hres
      by (apply (Hreq {| tool_name := "subscribe_market_resolution";
                         tool_required := ["market_ids"] |} "market_ids");
          simpl; tauto).
    destruct (subscribe_disconnected MARKET_RESOLVED CLOB_MARKET
                (arg_market_ids arguments)
                None (default "notification" (arg_callback_type arguments))
                (env_new_id env) (env_now env) m Hdown eq_refl)
      as [Hout Hget]; [discriminate |].
    simpl. rewrite Hout. eexists _, _. split; [reflexivity |].
    split; [reflexivity |]. split; [eexists; split; [exact Hget | split; reflexivity] |].
    split; [tauto |]. split; discriminate.
Qed.

Lemma failed_subscription_stays_registered_witness :
  clob_connected (disconnect demo_manager) = false /\
  exists m' r,
    handle_tool_call demo_env "subscribe_market_prices" price_arguments
      (Some (disconnect demo_manager)) = (Some m', Returned r) /\
    created_id r = None /\
    (exists sub, dict_get "s9" (subscriptions m') = Some sub /\
                 sub_id sub = "s9" /\ created_at sub = 7%Z).
Proof.
  split; [reflexivity |].
  destruct (failed_subscription_stays_registered demo_env "subscribe_market_prices"
              price_arguments (disconnect demo_manager))
    as (m' & r & Hcall & Hid & Hsub & _).
  - reflexivity.
  - simpl. tauto.
  - intros tool field Htool Hname Hfield. simpl in Htool.
    destruct Htool as [<- | [<- | [<- | [<- | [<- | [<- | [<- | []]]]]]]];
      simpl in Hname, Hfield; try discriminate.
    destruct Hfield as [<- | []]. reflexivity.
  - intros [H | H]; discriminate H.
  - exists m', r. split; [exact Hcall |]. split; [exact Hid | exact Hsub].
Defined.

Lemma subscribe_ready (event_type : EventType) (channel : ChannelType)
    (markets tokens : option (list string)) (mode new_id : string)
    (now : datetime) (m : WebSocketManager) :
  (channel = CLOB_USER -> authenticated m = true) ->
  channel_ready channel m ->
  let res := subscribe event_type channel markets tokens mode new_id now m in
  snd res = Returned new_id /\
  subscriptions (fst res)
  = dict_set new_id (new_subscription event_type channel markets tokens mode new_id now)
      (subscriptions m).
Proof.
  intros Hauth Hready res.
  destruct (subscribe_state event_type channel markets tokens mode new_id now m
              (auth_guard channel m Hauth)) as (Hs & _ & _ & _ & Hout).
  fold res in Hs, Hout. split; [| exact Hs].
  rewrite Hout, _send_subscription_ready; [reflexivity | exact Hready].
Qed.

(** X29: the id a subscribing tool reports is the one that removes the
    subscription.  With the CLOB socket ready and a fresh non-empty id, the
    price tool replies with the id drawn for the call; the unsubscribe tool,
    given that id, confirms the removal and the registry is again what it
    was before the two calls; asked a second time it reports that the
    subscription is not found and changes nothing. *)
Theorem tool_round_trip (env env' : Environment) (arguments : ToolArguments)
    (m : WebSocketManager) :
  channel_ready CLOB_MARKET m ->
  truthy_list (arg_market_ids arguments) = true ->
  dict_get (env_new_id env) (subscriptions m) = None ->
  env_new_id env <> "" ->
  let id := env_new_id env in
  let first := handle_tool_call env "subscribe_market_prices" arguments (Some m) in
  let second := handle_tool_call env' "unsubscribe_realtime" (unsubscribe_arguments id)
                  (fst first) in
  let third := handle_tool_call env' "unsubscribe_realtime" (unsubscribe_arguments id)
                 (fst second) in
  snd first = Returned (PriceSubscriptionCreated id
                          (length (items (arg_market_ids arguments)))
                          (default "notification" (arg_callback_type arguments))) /\
  created_id (PriceSubscriptionCreated id
                (length (items (arg_market_ids arguments)))
                (default "notification" (arg_callback_type arguments))) = Some id /\
  (exists m1, fst first = Some m1 /\ dict_get id (subscriptions m1) <> None) /\
  snd second = Returned (Unsubscribed id) /\
  (exists m2, fst second = Some m2 /\ subscriptions m2 = subscriptions m) /\
  third = (fst second, Returned (SubscriptionNotFound id)).
Proof.
  intros Hready Hargs Hfresh Hne id first second third.
  destruct (subscribe_tools_unfold id (env_now env) arguments m) as (Hprices & _).
  destruct (subscribe_ready PRICE_CHANGE CLOB_MARKET (arg_market_ids arguments) None
              (default "notification" (arg_callback_type arguments)) id (env_now env) m)
    as [Hout Hsubs]; [discriminate | exact Hready |].
  set (m1 := fst (subscribe PRICE_CHANGE CLOB_MARKET (arg_market_ids arguments) None
                    (default "notification" (arg_callback_type arguments)) id
                    (env_now env) m)) in *.
  assert (Hfirst : first
            = (Some m1, Returned (PriceSubscriptionCreated id
                                    (length (items (arg_market_ids arguments)))
                                    (default "notification"
                                       (arg_callback_type arguments))))).
  { unfold first. rewrite handle_tool_call_pair. unfold dispatch. simpl String.eqb.
    cbv iota. fold id. rewrite (Hprices Hargs). simpl. fold m1. rewrite Hout.
    reflexivity. }
  assert (Hget1 : dict_get id (subscriptions m1)
                  = Some (new_subscription PRICE_CHANGE CLOB_MARKET
                            (arg_market_ids arguments) None
                            (default "notification" (arg_callback_type arguments))
                            id (env_now env))).
  { rewrite Hsubs. apply dict_get_set_eq. }
  destruct (unsubscribe_state id _ m1 Hget1) as (Hdel & _ & _ & _ & Hret).
  set (m2 := fst (unsubscribe id m1)) in *.
  assert (Htruthy : truthy_str (Some id) = true).
  { clear -Hne. unfold id. revert Hne.
    destruct (env_new_id env) as [| c rest]; intros Hne;
      [exfalso; apply Hne; reflexivity | reflexivity]. }
  assert (Hsecond : second = (Some m2, Returned (Unsubscribed id))).
  { unfold second. rewrite Hfirst. simpl fst. rewrite handle_tool_call_pair.
    unfold dispatch. simpl String.eqb. cbv iota.
    unfold _unsubscribe_realtime, unsubscribe_arguments. simpl arg_subscription_id.
    rewrite Htruthy. simpl negb. cbv iota. simpl default.
    destruct (unsubscribe id m1) as [m2' o] eqn:Hun. simpl in Hret. subst o.
    reflexivity. }
  assert (Hback : subscriptions m2 = subscriptions m).
  { rewrite Hdel, Hsubs. apply dict_del_set_fresh. exact Hfresh. }
  split; [rewrite Hfirst; reflexivity |]. split; [reflexivity |].
  split; [exists m1; rewrite Hfirst; split; [reflexivity | rewrite Hget1; discriminate] |].
  split; [rewrite Hsecond; reflexivity |].
  split; [exists m2; rewrite Hsecond; split; [reflexivity | exact Hback] |].
  unfold third. rewrite Hsecond. simpl fst. rewrite handle_tool_call_pair.
  unfold dispatch. simpl String.eqb. cbv iota.
  unfold _unsubscribe_realtime, unsubscribe_arguments. simpl arg_subscription_id.
  rewrite Htruthy. simpl negb. cbv iota. simpl default.
  destruct (unsubscribe_cases id m2) as [[_ Hnone] | [Hsome _]].
  - rewrite Hnone. reflexivity.
  - exfalso. apply Hsome. rewrite Hback. exact Hfresh.
Qed.

Lemma tool_round_trip_witness :
  let first := handle_tool_call demo_env "subscribe_market_prices" price_arguments
                 (Some demo_manager) in
  let second := handle_tool_call demo_env "unsubscribe_realtime"
                  (unsubscribe_arguments "s9") (fst first) in
  snd first = Returned (PriceSubscriptionCreated "s9" 1 "notification") /\
  snd second = Returned (Unsubscribed "s9") /\
  (exists m2, fst second = Some m2 /\ subscriptions m2 = subscriptions demo_manager).
Proof.
  destruct (tool_round_trip demo_env demo_env price_arguments demo_manager)
    as (Hfirst & _ & _ & Hsecond & Hback & _).
  - simpl. split; [reflexivity |]. eexists. split; [reflexivity |].
    split; [reflexivity | discriminate].
  - reflexivity.
  - reflexivity.
  - discriminate.
  - split; [exact Hfirst |]. split; [exact Hsecond | exact Hback].
Defined.

(** X30: what the status tool shows.  The status call leaves the manager
    untouched; it lists one line per registered subscription, in registry
    order, showing the first eight characters of the id, and the total it
    prints is the number of lines; the per-type lines are the recorded
    counters that are positive.  The CLOB line is decided by the
    authentication flag before the connection flag: it reads "CONNECTED &
    AUTHENTICATED" whenever the manager is authenticated, so also after a
    connect attempt on an authenticated manager was refused and the
    connection flag is down. *)
Theorem status_tool_reports (env : Environment) (arguments : ToolArguments)
    (m : WebSocketManager) :
  (exists report,
     handle_tool_call env "get_realtime_status" arguments (Some m)
     = (Some m, Returned (StatusText report)) /\
     sr_total report = length (sr_lines report) /\
     List.map sl_id_prefix (sr_lines report)
     = List.map (fun s => String.substring 0 8 (sub_id s))
                (dict_values (subscriptions m)) /\
     (sr_clob report = "CONNECTED & AUTHENTICATED" <-> authenticated m = true) /\
     (sr_clob report = "DISCONNECTED"
      <-> authenticated m = false /\ clob_connected m = false) /\
     (forall name n, sr_events_by_type report !! name = Some n
                     <-> events_by_type m !! name = Some n /\ (0 < n)%nat) /\
     (sr_background report = "RUNNING" <-> env_should_run env = true)) /\
  (forall net, authenticated m = true -> clob_link net = Refused ->
     let m' := fst (connect net m) in
     clob_connected m' = false /\
     exists report,
       handle_tool_call env "get_realtime_status" arguments (Some m')
       = (Some m', Returned (StatusText report)) /\
       sr_clob report = "CONNECTED & AUTHENTICATED").
Proof.
  split.
  - eexists. split; [reflexivity |]. simpl.
    split; [unfold dict_values; rewrite !List.length_map; reflexivity |].
    split; [rewrite !List.map_map; reflexivity |].
    split; [destruct (authenticated m), (clob_connected m); split; intros H;
            first [reflexivity | discriminate H] |].
    split; [destruct (authenticated m), (clob_connected m); split;
            first [intros [H1 H2]; first [discriminate H1 | discriminate H2 | reflexivity]
                  | intros H; first [discriminate H | split; reflexivity]] |].
    split; [intros name n; apply (map_lookup_filter_Some
                                     (fun kv : string * nat => (0 < snd kv)%nat)) |].
    destruct (env_should_run env); split; intros H;
      first [reflexivity | discriminate H].
  - intros net Hauth Hrefused m'.
    assert (Hm' : clob_connected m' = false /\ authenticated m' = true).
    { unfold m', connect, _connect_clob. rewrite Hrefused. simpl.
      split; [reflexivity | exact Hauth]. }
    destruct Hm' as [Hdown Hauth']. split; [exact Hdown |].
    eexists. split; [reflexivity |]. simpl. rewrite Hauth'. reflexivity.
Qed.

End RealtimeToolsFacts.
